(** * Semantic search over MongoDB Atlas and Amazon Bedrock: a shallow embedding

    The development follows the three Lambda functions of the repository:

    - [functions/createInitialEmbeddings/index.ts]: the backfill handler
      ([readDocuments], [sendToQueueInBatches], [handler]);
    - the SQS consumer ([writeEmbedding], [recordHandler], [handler]);
    - [functions/search/index.ts] ([knnSearch], [handler]);
    - [functions/commons/helpers.ts] ([getStringFromEnv],
      [getMongoCollection], [createEmbedding], [sendMessagesToQueue]).

    JavaScript values, [JSON.stringify], [JSON.parse] and [parseInt] are
    embedded first; then the outside world (collection, queue, embedding
    model) as explicit state and oracles; then the functions themselves.
    Logging and tracing (the Powertools logger and tracer, and the
    decorators of the methods) do not change what a function returns or
    throws and are left out. *)

From Stdlib Require Import String Ascii List ZArith Bool Arith Lia Sorted.
Import ListNotations.

Open Scope string_scope.
Open Scope list_scope.
Open Scope nat_scope.

(* ================================================================== *)
(** * Characters and texts *)
(* ================================================================== *)

(** A JavaScript string is kept by the bytes of its UTF-8 form.  Texts are
    handled as lists of characters inside the JSON codec and as [string] at
    the interfaces. *)
Definition text := list ascii.

Definition chars (s : string) : text := list_ascii_of_string s.
Definition str (t : text) : string := string_of_list_ascii t.

Definition dquote : ascii := ascii_of_nat 34.
Definition backslash : ascii := ascii_of_nat 92.

Definition is_digit (c : ascii) : bool :=
  let n := nat_of_ascii c in (48 <=? n) && (n <=? 57).

Definition is_ws (c : ascii) : bool :=
  let n := nat_of_ascii c in
  (n =? 32) || (n =? 9) || (n =? 10) || (n =? 13).

Fixpoint skip_ws (s : text) : text :=
  match s with
  | c :: t => if is_ws c then skip_ws t else s
  | [] => []
  end.

Fixpoint strip_prefix (p s : text) : option text :=
  match p, s with
  | [], _ => Some s
  | a :: p', b :: s' => if Ascii.eqb a b then strip_prefix p' s' else None
  | _ :: _, [] => None
  end.

Fixpoint span (f : ascii -> bool) (s : text) : text * text :=
  match s with
  | c :: t => if f c then let (a, b) := span f t in (c :: a, b) else ([], s)
  | [] => ([], [])
  end.

Fixpoint join (sep : text) (parts : list text) : text :=
  match parts with
  | [] => []
  | [p] => p
  | p :: rest => p ++ sep ++ join sep rest
  end.

(* ================================================================== *)
(** * JavaScript values *)
(* ================================================================== *)

(** The values that flow through the three handlers: the JSON values, plus
    [undefined] (missing properties), plus the two driver objects that
    MongoDB documents carry and that have a [toJSON] method, [ObjectId]
    (kept by its 24-digit hexadecimal form) and [Date] (kept by its ISO
    form).

    A number is kept by its literal: the handlers never compute with the
    numbers of a document or of an embedding, they only move them.  A
    number read from JSON is therefore written back with the digits it was
    read with, where JavaScript writes the shortest form of its double
    ([1e2] comes back as [100]); the two texts have the same Number value.
    An object is the list of its properties in the order they were set.
    That is JavaScript's enumeration order but for keys that are array
    indices ([1], [10]), which JavaScript enumerates first, in ascending
    order.  None of the keys that the handlers name is one; a document
    may have such fields. *)
#[local] Unset Elimination Schemes.
Inductive JSValue : Type :=
| VUndefined
| VNull
| VBool (b : bool)
| VNum (lit : string)
| VStr (s : string)
| VArr (items : list JSValue)
| VObj (props : list (string * JSValue))
| VObjectId (hex : string)
| VDate (iso : string).
#[local] Set Elimination Schemes.

Definition Document := list (string * JSValue).

Section JSValue_induction.
Variable P : JSValue -> Prop.
Hypothesis Hundef : P VUndefined.
Hypothesis Hnull : P VNull.
Hypothesis Hbool : forall b, P (VBool b).
Hypothesis Hnum : forall l, P (VNum l).
Hypothesis Hstr : forall s, P (VStr s).
Hypothesis Harr : forall items, Forall P items -> P (VArr items).
Hypothesis Hobj :
  forall props, Forall (fun kv => P (snd kv)) props -> P (VObj props).
Hypothesis Hoid : forall h, P (VObjectId h).
Hypothesis Hdate : forall d, P (VDate d).

Fixpoint JSValue_ind' (v : JSValue) : P v :=
  match v with
  | VUndefined => Hundef
  | VNull => Hnull
  | VBool b => Hbool b
  | VNum l => Hnum l
  | VStr s => Hstr s
  | VArr items =>
      Harr items
        ((fix go (l : list JSValue) : Forall P l :=
            match l with
            | [] => Forall_nil P
            | x :: r => Forall_cons x (JSValue_ind' x) (go r)
            end) items)
  | VObj props =>
      Hobj props
        ((fix go (l : list (string * JSValue))
            : Forall (fun kv => P (snd kv)) l :=
            match l with
            | [] => Forall_nil _
            | kv :: r => Forall_cons kv (JSValue_ind' (snd kv)) (go r)
            end) props)
  | VObjectId h => Hoid h
  | VDate d => Hdate d
  end.
End JSValue_induction.

(** ** Property access *)

Fixpoint assoc (k : string) (props : list (string * JSValue)) : option JSValue :=
  match props with
  | [] => None
  | (k', v) :: r => if String.eqb k k' then Some v else assoc k r
  end.

Definition has_field (k : string) (props : list (string * JSValue)) : bool :=
  match assoc k props with Some _ => true | None => false end.

(** [obj[k] = v]: an existing property keeps its place, a new one goes last. *)
Fixpoint js_set (k : string) (v : JSValue) (props : list (string * JSValue))
  : list (string * JSValue) :=
  match props with
  | [] => [(k, v)]
  | (k', v') :: r =>
      if String.eqb k k' then (k', v) :: r else (k', v') :: js_set k v r
  end.

(** The rest pattern [{ k, ...rest }] keeps every property but [k]. *)
Definition js_omit (k : string) (props : list (string * JSValue))
  : list (string * JSValue) :=
  filter (fun kv => negb (String.eqb k (fst kv))) props.

(** [v.k] on a value that is neither [null] nor [undefined]: own properties
    of an object; nothing for the names used here on arrays and primitives. *)
Definition js_get (k : string) (v : JSValue) : JSValue :=
  match v with
  | VObj props => match assoc k props with Some x => x | None => VUndefined end
  | _ => VUndefined
  end.

(* ================================================================== *)
(** * JSON numbers *)
(* ================================================================== *)

(** The grammar of a JSON number as an automaton: an optional minus sign;
    a zero, or a nonzero digit and more digits; an optional fraction (a dot
    and digits); an optional exponent (e or E, an optional sign, digits). *)
Inductive NumState :=
| NStart | NMinus | NZero | NInt | NDot | NFrac | NE | NESign | NExp.

Definition num_step (st : NumState) (c : ascii) : option NumState :=
  let n := nat_of_ascii c in
  let digit := is_digit c in
  let e := (n =? 101) || (n =? 69) in
  match st with
  | NStart =>
      if n =? 45 then Some NMinus
      else if n =? 48 then Some NZero
      else if digit then Some NInt else None
  | NMinus =>
      if n =? 48 then Some NZero else if digit then Some NInt else None
  | NZero =>
      if n =? 46 then Some NDot else if e then Some NE else None
  | NInt =>
      if digit then Some NInt
      else if n =? 46 then Some NDot else if e then Some NE else None
  | NDot => if digit then Some NFrac else None
  | NFrac => if digit then Some NFrac else if e then Some NE else None
  | NE =>
      if (n =? 43) || (n =? 45) then Some NESign
      else if digit then Some NExp else None
  | NESign => if digit then Some NExp else None
  | NExp => if digit then Some NExp else None
  end.

Definition num_final (st : NumState) : bool :=
  match st with
  | NZero | NInt | NFrac | NExp => true
  | _ => false
  end.

Fixpoint num_run (st : NumState) (s : text) : bool :=
  match s with
  | [] => num_final st
  | c :: t => match num_step st c with
              | Some st' => num_run st' t
              | None => false
              end
  end.

(** The characters a number token is made of. *)
Definition numchar (c : ascii) : bool :=
  let n := nat_of_ascii c in
  is_digit c || (n =? 45) || (n =? 43) || (n =? 46) || (n =? 101) || (n =? 69).

Definition is_json_number (s : text) : bool :=
  forallb numchar s && num_run NStart s.

(** Decimal form of a count. *)
Definition digit_char (n : nat) : ascii := ascii_of_nat (48 + n).

Fixpoint dec_aux (fuel n : nat) (acc : text) : text :=
  match fuel with
  | O => acc
  | S f =>
      let acc' := digit_char (n mod 10) :: acc in
      if n / 10 =? 0 then acc' else dec_aux f (n / 10) acc'
  end.

Definition dec (n : nat) : string := str (dec_aux (S n) n []).

Definition VNat (n : nat) : JSValue := VNum (dec n).

(* ================================================================== *)
(** * JSON.stringify *)
(* ================================================================== *)

Definition hex_char (n : nat) : ascii :=
  if n <? 10 then ascii_of_nat (48 + n) else ascii_of_nat (87 + n).

(** QuoteJSONString, one character at a time: the bytes of a character
    outside ASCII are written as they are. *)
Definition escape_char (c : ascii) : text :=
  let n := nat_of_ascii c in
  if n =? 34 then [backslash; dquote]
  else if n =? 92 then [backslash; backslash]
  else if n =? 8 then backslash :: chars "b"
  else if n =? 9 then backslash :: chars "t"
  else if n =? 10 then backslash :: chars "n"
  else if n =? 12 then backslash :: chars "f"
  else if n =? 13 then backslash :: chars "r"
  else if n <? 32 then
    backslash :: chars "u00" ++ [hex_char (n / 16); hex_char (n mod 16)]
  else [c].

Definition quote (s : string) : text :=
  dquote :: flat_map escape_char (chars s) ++ [dquote].

(** SerializeJSONProperty without replacer and without indentation.  [None]
    stands for the [undefined] that [JSON.stringify] gives for [undefined]:
    such a property is left out of an object and is [null] in an array.
    [ObjectId] and [Date] are serialised through their [toJSON], a number
    that has no JSON literal ([NaN], [Infinity]) as [null]. *)
Fixpoint serialize (v : JSValue) : option text :=
  match v with
  | VUndefined => None
  | VNull => Some (chars "null")
  | VBool true => Some (chars "true")
  | VBool false => Some (chars "false")
  | VNum lit =>
      Some (if is_json_number (chars lit) then chars lit else chars "null")
  | VStr s => Some (quote s)
  | VObjectId hex => Some (quote hex)
  | VDate iso => Some (quote iso)
  | VArr items =>
      Some (chars "[" ++
            join (chars ",")
              (map (fun x => match serialize x with
                             | Some t => t
                             | None => chars "null"
                             end) items) ++
            chars "]")
  | VObj props =>
      Some (chars "{" ++
            join (chars ",")
              (flat_map (fun kv => match serialize (snd kv) with
                                   | Some t => [quote (fst kv) ++ chars ":" ++ t]
                                   | None => []
                                   end) props) ++
            chars "}")
  end.

(** [JSON.stringify(v)]; every call site passes an object or an array, for
    which the result is a string. *)
Definition JSON_stringify (v : JSValue) : string :=
  match serialize v with
  | Some t => str t
  | None => "undefined"
  end.

(* ================================================================== *)
(** * JSON.parse *)
(* ================================================================== *)

Definition hex_val (c : ascii) : option nat :=
  let n := nat_of_ascii c in
  if (48 <=? n) && (n <=? 57) then Some (n - 48)
  else if (97 <=? n) && (n <=? 102) then Some (n - 87)
  else if (65 <=? n) && (n <=? 70) then Some (n - 55)
  else None.

Definition hex4 (a b c d : ascii) : option N :=
  match hex_val a, hex_val b, hex_val c, hex_val d with
  | Some x, Some y, Some z, Some w =>
      Some (((N.of_nat x * 16 + N.of_nat y) * 16 + N.of_nat z) * 16 + N.of_nat w)%N
  | _, _, _, _ => None
  end.

Definition unescape (e : ascii) : option ascii :=
  let n := nat_of_ascii e in
  if (n =? 34) || (n =? 92) || (n =? 47) then Some e
  else if n =? 98 then Some (ascii_of_nat 8)
  else if n =? 116 then Some (ascii_of_nat 9)
  else if n =? 110 then Some (ascii_of_nat 10)
  else if n =? 102 then Some (ascii_of_nat 12)
  else if n =? 114 then Some (ascii_of_nat 13)
  else None.

(** The UTF-8 form of a code point (of a lone surrogate too, which has
    none in strict UTF-8). *)
Definition utf8 (cp : N) : text :=
  (if cp <? 128 then [ascii_of_N cp]
   else if cp <? 2048 then
     [ascii_of_N (192 + cp / 64); ascii_of_N (128 + cp mod 64)]
   else if cp <? 65536 then
     [ascii_of_N (224 + cp / 4096); ascii_of_N (128 + (cp / 64) mod 64);
      ascii_of_N (128 + cp mod 64)]
   else
     [ascii_of_N (240 + cp / 262144); ascii_of_N (128 + (cp / 4096) mod 64);
      ascii_of_N (128 + (cp / 64) mod 64); ascii_of_N (128 + cp mod 64)])%N.

Definition is_high_surrogate (u : N) : bool := ((55296 <=? u) && (u <? 56320))%N.
Definition is_low_surrogate (u : N) : bool := ((56320 <=? u) && (u <? 57344))%N.

(** The low surrogate that the six characters of an escape [\uXXXX] give. *)
Definition low_surrogate (b u g1 g2 g3 g4 : ascii) : option N :=
  if (nat_of_ascii b =? 92) && (nat_of_ascii u =? 117) then
    match hex4 g1 g2 g3 g4 with
    | Some lo => if is_low_surrogate lo then Some lo else None
    | None => None
    end
  else None.

Definition cons_chars (cs : text) (r : option (text * text)) : option (text * text) :=
  match r with
  | Some (t, rest) => Some (cs ++ t, rest)
  | None => None
  end.

Definition cons_char (c : ascii) (r : option (text * text)) : option (text * text) :=
  cons_chars [c] r.

(** The characters of a string literal, after its opening quote.  An escape
    [\uXXXX] gives the UTF-8 form of its code point, a surrogate pair the
    form of the code point it encodes. *)
Fixpoint parse_chars (s : text) : option (text * text) :=
  match s with
  | [] => None
  | c :: t =>
      let n := nat_of_ascii c in
      if n =? 34 then Some ([], t)
      else if n =? 92 then
        match t with
        | [] => None
        | e :: t' =>
            if nat_of_ascii e =? 117 then
              match t' with
              | h1 :: h2 :: h3 :: h4 :: t'' =>
                  match hex4 h1 h2 h3 h4 with
                  | Some hi =>
                      if is_high_surrogate hi then
                        match t'' with
                        | b :: u :: g1 :: g2 :: g3 :: g4 :: t3 =>
                            match low_surrogate b u g1 g2 g3 g4 with
                            | Some lo =>
                                cons_chars
                                  (utf8 (65536 + (hi - 55296) * 1024 + (lo - 56320))%N)
                                  (parse_chars t3)
                            | None => cons_chars (utf8 hi) (parse_chars t'')
                            end
                        | _ => cons_chars (utf8 hi) (parse_chars t'')
                        end
                      else cons_chars (utf8 hi) (parse_chars t'')
                  | None => None
                  end
              | _ => None
              end
            else
              match unescape e with
              | Some x => cons_char x (parse_chars t')
              | None => None
              end
        end
      else if n <? 32 then None
      else cons_char c (parse_chars t)
  end.

(** A parsed object: a repeated key keeps its first place and its last value. *)
Definition obj_of_members (ms : list (string * JSValue)) : list (string * JSValue) :=
  fold_left (fun acc kv => js_set (fst kv) (snd kv) acc) ms [].

Definition literal (v : JSValue) (rest_of_word : string) (r : text)
  : option (JSValue * text) :=
  match strip_prefix (chars rest_of_word) r with
  | Some r' => Some (v, r')
  | None => None
  end.

Fixpoint parse_value (fuel : nat) (s : text) {struct fuel}
  : option (JSValue * text) :=
  match fuel with
  | O => None
  | S f =>
      match skip_ws s with
      | [] => None
      | c :: r =>
          let n := nat_of_ascii c in
          if numchar c then
            let (tok, r') := span numchar (c :: r) in
            if is_json_number tok then Some (VNum (str tok), r') else None
          else if n =? 110 then literal VNull "ull" r
          else if n =? 116 then literal (VBool true) "rue" r
          else if n =? 102 then literal (VBool false) "alse" r
          else if n =? 34 then
            match parse_chars r with
            | Some (t, r') => Some (VStr (str t), r')
            | None => None
            end
          else if n =? 91 then
            match skip_ws r with
            | [] => None
            | c' :: r' =>
                if nat_of_ascii c' =? 93 then Some (VArr [], r')
                else match parse_elements f r with
                     | Some (vs, r'') => Some (VArr vs, r'')
                     | None => None
                     end
            end
          else if n =? 123 then
            match skip_ws r with
            | [] => None
            | c' :: r' =>
                if nat_of_ascii c' =? 125 then Some (VObj [], r')
                else match parse_members f r with
                     | Some (ms, r'') => Some (VObj (obj_of_members ms), r'')
                     | None => None
                     end
            end
          else None
      end
  end

with parse_elements (fuel : nat) (s : text) {struct fuel}
  : option (list JSValue * text) :=
  match fuel with
  | O => None
  | S f =>
      match parse_value f s with
      | None => None
      | Some (v, r) =>
          match skip_ws r with
          | [] => None
          | c :: r' =>
              let n := nat_of_ascii c in
              if n =? 44 then
                match parse_elements f r' with
                | Some (vs, r'') => Some (v :: vs, r'')
                | None => None
                end
              else if n =? 93 then Some ([v], r')
              else None
          end
      end
  end

with parse_members (fuel : nat) (s : text) {struct fuel}
  : option (list (string * JSValue) * text) :=
  match fuel with
  | O => None
  | S f =>
      match skip_ws s with
      | [] => None
      | q :: r =>
          if nat_of_ascii q =? 34 then
            match parse_chars r with
            | None => None
            | Some (k, r1) =>
                match skip_ws r1 with
                | [] => None
                | colon :: r2 =>
                    if nat_of_ascii colon =? 58 then
                      match parse_value f r2 with
                      | None => None
                      | Some (v, r3) =>
                          match skip_ws r3 with
                          | [] => None
                          | c :: r4 =>
                              let n := nat_of_ascii c in
                              if n =? 44 then
                                match parse_members f r4 with
                                | Some (ms, r5) => Some ((str k, v) :: ms, r5)
                                | None => None
                                end
                              else if n =? 125 then Some ([(str k, v)], r4)
                              else None
                          end
                      end
                    else None
                end
            end
          else None
      end
  end.

(** [JSON.parse(s)]: the value, or [None] for the SyntaxError.  A parse
    never needs more fuel than the characters it consumes, so the fuel given
    here is never what makes a parse fail ([JSON_parse_fuel] below). *)
Definition JSON_parse (s : string) : option JSValue :=
  let t := chars s in
  match parse_value (S (length t)) t with
  | Some (v, r) => match skip_ws r with [] => Some v | _ :: _ => None end
  | None => None
  end.

(* ================================================================== *)
(** * parseInt *)
(* ================================================================== *)

(** The result of [parseInt]: [NaN], an integer that is a Number value, or
    an infinity.  (The sign of a zero is not kept: [-0] is [Int 0].) *)
Inductive Num :=
| NaN
| Int (z : Z)
| Infinity (negative : bool).

(** The Number value of a natural number: itself below 2^53; from there on
    the nearest number with 53 significant bits, a tie going to the one
    whose last bit is 0. *)
Definition nearest_double (a : Z) : Z :=
  if (a <? 2 ^ 53)%Z then a
  else
    let e := (Z.log2 a - 52)%Z in
    let q := Z.shiftr a e in
    let r := (a mod 2 ^ e)%Z in
    let half := (2 ^ (e - 1))%Z in
    let q' := if (half <? r)%Z || ((r =? half)%Z && Z.odd q) then (q + 1)%Z
              else q in
    Z.shiftl q' e.

(** The Number value of an integer: the nearest double, an infinity from
    2^1024 on. *)
Definition number_of_integer (z : Z) : Num :=
  let a := nearest_double (Z.abs z) in
  if (2 ^ 1024 <=? a)%Z then Infinity (z <? 0)%Z
  else Int (if (z <? 0)%Z then (- a)%Z else a).

(** The bytes of a WhiteSpace or LineTerminator character at the head of a
    text, dropped: tab, line feed, vertical tab, form feed, carriage
    return, space, and in their UTF-8 form the no-break space, the byte
    order mark, the line and paragraph separators and the space separators
    of Unicode. *)
Definition drop_js_space (s : text) : option text :=
  match map nat_of_ascii (firstn 3 s), s with
  | c :: _, _ :: r =>
      if (9 <=? c) && (c <=? 13) || (c =? 32) then Some r
      else
        match map nat_of_ascii (firstn 3 s), s with
        | [194; 160], _ :: _ :: r2 => Some r2
        | 194 :: 160 :: _, _ :: _ :: r2 => Some r2
        | [a; b; c3], _ :: _ :: _ :: r3 =>
            if (a =? 225) && (b =? 154) && (c3 =? 128) then Some r3
            else if (a =? 226) && (b =? 128) &&
                    ((128 <=? c3) && (c3 <=? 138) || (c3 =? 168) ||
                     (c3 =? 169) || (c3 =? 175)) then Some r3
            else if (a =? 226) && (b =? 129) && (c3 =? 159) then Some r3
            else if (a =? 227) && (b =? 128) && (c3 =? 128) then Some r3
            else if (a =? 239) && (b =? 187) && (c3 =? 191) then Some r3
            else None
        | _, _ => None
        end
  | _, _ => None
  end.

Fixpoint trim_start_fuel (fuel : nat) (s : text) : text :=
  match fuel with
  | O => s
  | S f => match drop_js_space s with
           | Some r => trim_start_fuel f r
           | None => s
           end
  end.

Definition trim_start (s : text) : text := trim_start_fuel (length s) s.

Definition radix_digit (radix : nat) (c : ascii) : bool :=
  match hex_val c with
  | Some d => d <? radix
  | None => false
  end.

Definition digit_value (c : ascii) : Z :=
  match hex_val c with
  | Some d => Z.of_nat d
  | None => 0%Z
  end.

Definition digits_value (radix : nat) (ds : text) : Z :=
  fold_left (fun acc c => (acc * Z.of_nat radix + digit_value c)%Z) ds 0%Z.

(** [parseInt(s)] with no radix argument: leading white space and a sign
    are skipped, a [0x] prefix selects radix 16, and the longest run of
    digits is read; no digit at all gives [NaN].  The result is the Number
    value of the integer read: exact up to 2^53, the nearest double beyond,
    an infinity from 2^1024 on.  (ECMAScript lets an implementation read
    only the first 20 significant decimal digits; V8 rounds the whole
    integer, which is what is modelled.) *)
Definition parseInt (s : string) : Num :=
  let t := trim_start (chars s) in
  let (negative, t1) :=
    match t with
    | c :: r =>
        if nat_of_ascii c =? 45 then (true, r)
        else if nat_of_ascii c =? 43 then (false, r)
        else (false, t)
    | [] => (false, t)
    end in
  let (radix, t2) :=
    match t1 with
    | z :: x :: r =>
        if (nat_of_ascii z =? 48) &&
           ((nat_of_ascii x =? 120) || (nat_of_ascii x =? 88))
        then (16, r) else (10, t1)
    | _ => (10, t1)
    end in
  match fst (span (radix_digit radix) t2) with
  | [] => NaN
  | ds => let v := digits_value radix ds in
          number_of_integer (if negative then (- v)%Z else v)
  end.

(* ================================================================== *)
(** * Errors, outcomes and the world outside the handlers *)
(* ================================================================== *)

(** A JavaScript [Error]: [new Error(message)] and
    [new Error(message, { cause })]. *)
Inductive JSError :=
| Err (message : string)
| ErrCause (message : string) (cause : JSError).

Definition error_message (e : JSError) : string :=
  match e with Err m | ErrCause m _ => m end.

Definition error_cause (e : JSError) : option JSError :=
  match e with Err _ => None | ErrCause _ c => Some c end.

Inductive Outcome (A : Type) :=
| Ok (a : A)
| Throw (e : JSError).
Arguments Ok {A} a.
Arguments Throw {A} e.

Definition succeeded {A} (o : Outcome A) : bool :=
  match o with Ok _ => true | Throw _ => false end.

(** An entry of [SendMessageBatchCommandInput['Entries']]. *)
Record Entry := { Id : string; MessageBody : string }.

(** What the embedding model answers to [InvokeModelCommand]. *)
Inductive BedrockReply :=
| BedrockRejects (e : JSError)
| BedrockResponse (httpStatusCode : option Z) (body : option string).

(** What the Parameters utility answers to [getSecret]. *)
Inductive SecretReply :=
| SecretRejects (e : JSError)
| SecretUndefined
| SecretValue (url : string).

(** The stages of the aggregation pipeline that [knnSearch] builds. *)
Record KnnBeta := { vector : JSValue; path : string; k : nat }.

Inductive Stage :=
| Search (index : string) (knnBeta : KnnBeta)
| Project (include : list string) (searchScoreAs : string).

(** The requests that leave the process, in the order they are made.  A
    [ReplaceOne] is recorded with the [modifiedCount] of its response (the
    code logs the response). *)
Inductive Call :=
| GetSecret (name : string)
| InvokeModel (modelId body : string)
| SendMessageBatch (queueUrl : string) (entries : list Entry)
| Find (limit : Num)
| ReplaceOne (id : option string) (replacement : Document) (modifiedCount : option nat)
| Aggregate (pipeline : list Stage).

(** The names of [functions/commons/constants.ts], which is not among the
    sources: they are parameters of the model. *)
Record Constants := {
  BEDROCK_MODEL_ID : string;
  MONGODB_SEARCH_INDEX_NAME : string
}.

(** The services the handlers talk to.  Each answer may depend on the
    request and on how many requests were made before (the first argument),
    so that a service may fail now and answer later.

    - [processEnv]: [process.env];
    - [getSecret]: Secrets Manager through the Parameters utility;
    - [bedrock]: the embedding model;
    - [sqs]: [SendMessageBatch]; [Some e] is a rejected request.  The reply
      of an accepted request is not looked at by the code, so the entries
      of an accepted batch are taken as enqueued;
    - [storeFault]: a collection operation that is rejected (connection,
      time-out);
    - [limitNonFinite]: what [find().limit(n)] returns for an [n] that is
      [NaN] or an infinity, which the sources do not fix;
    - [searchScore]: the score the search index gives a stored document for
      a query vector, [None] for a document the index does not hold.  The
      index computes a floating-point cosine similarity; it is modelled by
      an integer, with the integer order as the order of scores;
    - [uuid]: the [n]th identifier drawn from [node:crypto]. *)
Record Services := {
  processEnv : string -> option string;
  getSecret : nat -> string -> SecretReply;
  bedrock : nat -> string -> string -> BedrockReply;
  sqs : nat -> string -> list Entry -> option JSError;
  storeFault : nat -> option JSError;
  limitNonFinite : Num -> list Document -> Outcome (list Document);
  searchScore : string -> string -> JSValue -> Document -> option Z;
  uuid : nat -> string
}.

(** The state the handlers read and change: the [movies] collection, the
    module-level [mongoClient] singleton, the messages the queue holds, the
    requests made so far and the number of identifiers drawn. *)
Record World := {
  collection : list Document;
  mongoClient : bool;
  queue : list Entry;
  calls : list Call;
  uuids : nat
}.

Definition clock (w : World) : nat := length (calls w).

Definition record_call (c : Call) (w : World) : World :=
  {| collection := collection w; mongoClient := mongoClient w;
     queue := queue w; calls := calls w ++ [c]; uuids := uuids w |}.

Definition set_collection (docs : list Document) (w : World) : World :=
  {| collection := docs; mongoClient := mongoClient w;
     queue := queue w; calls := calls w; uuids := uuids w |}.

Definition set_mongoClient (b : bool) (w : World) : World :=
  {| collection := collection w; mongoClient := b;
     queue := queue w; calls := calls w; uuids := uuids w |}.

Definition enqueue (entries : list Entry) (w : World) : World :=
  {| collection := collection w; mongoClient := mongoClient w;
     queue := queue w ++ entries; calls := calls w; uuids := uuids w |}.

Definition draw_uuid (w : World) : World :=
  {| collection := collection w; mongoClient := mongoClient w;
     queue := queue w; calls := calls w; uuids := S (uuids w) |}.

(** ** The monad of the handlers: state and exceptions *)

Definition M (A : Type) : Type := World -> Outcome A * World.

Definition ret {A} (a : A) : M A := fun w => (Ok a, w).

Definition throw {A} (e : JSError) : M A := fun w => (Throw e, w).

Definition bind {A B} (m : M A) (f : A -> M B) : M B :=
  fun w =>
    match m w with
    | (Ok a, w') => f a w'
    | (Throw e, w') => (Throw e, w')
    end.

(** [try { m } catch (error) { h error }]. *)
Definition try_catch {A} (m : M A) (h : JSError -> M A) : M A :=
  fun w =>
    match m w with
    | (Ok a, w') => (Ok a, w')
    | (Throw e, w') => h e w'
    end.

Definition lift {A} (o : Outcome A) : M A := fun w => (o, w).

Declare Scope js_scope.
Delimit Scope js_scope with js.
Notation "x <- m ;; f" := (bind m (fun x => f))
  (at level 61, m at next level, right associativity) : js_scope.
Notation "m ;;; f" := (bind m (fun _ => f))
  (at level 61, right associativity) : js_scope.
Open Scope js_scope.

(** The TypeError of reading a property of [null] or [undefined]. *)
Definition TypeError : JSError := Err "TypeError".

(** The SyntaxError of [JSON.parse]. *)
Definition SyntaxError : JSError := Err "SyntaxError".

Definition JSON_parse_or_throw (s : string) : Outcome JSValue :=
  match JSON_parse s with
  | Some v => Ok v
  | None => Throw SyntaxError
  end.

(** [const { k } = v]: a TypeError on [null] and [undefined]. *)
Definition destructure (key : string) (v : JSValue) : Outcome JSValue :=
  match v with
  | VUndefined | VNull => Throw TypeError
  | _ => Ok (js_get key v)
  end.

(** A number literal [-12.50e3] read as an integer and a power of ten,
    1250 * 10^(3 - 2): the part before the exponent, ... *)
Definition before_exponent (lit : text) : text :=
  fst (span (fun c => negb ((nat_of_ascii c =? 101) || (nat_of_ascii c =? 69))) lit).

(** ... its digits as a natural number, ... *)
Definition literal_digits (lit : text) : Z :=
  digits_value 10 (filter is_digit (before_exponent lit)).

(** ... the number of digits after the point, ... *)
Definition fraction_length (lit : text) : Z :=
  Z.of_nat (length (filter is_digit
    (snd (span (fun c => negb (nat_of_ascii c =? 46)) (before_exponent lit))))).

(** ... and the exponent written after [e] or [E], 0 when there is none. *)
Definition written_exponent (lit : text) : Z :=
  match snd (span (fun c => negb ((nat_of_ascii c =? 101) || (nat_of_ascii c =? 69))) lit) with
  | _ :: sign :: r =>
      if nat_of_ascii sign =? 45 then (- digits_value 10 r)%Z
      else if nat_of_ascii sign =? 43 then digits_value 10 r
      else digits_value 10 (sign :: r)
  | _ => 0%Z
  end.

(** The Number value of a literal is zero when its digits are all 0, or
    when it is so small that the nearest double is 0: at most 2^-1075, half
    of the least positive double 2^-1074 (a tie goes to 0).  With [m] the
    digits and [e <= 0] the power of ten, [m * 10^e <= 2^-1075] is
    [m * 2^1075 <= 10^(-e)]. *)
Definition num_is_zero (lit : text) : bool :=
  let m := literal_digits lit in
  let e := (written_exponent lit - fraction_length lit)%Z in
  (m =? 0)%Z || ((e <? 0)%Z && (m * 2 ^ 1075 <=? 10 ^ (- e))%Z).

(** ToBoolean.  A number is falsy when it is 0 or [NaN]; a number read from
    JSON is given by its literal. *)
Definition truthy (v : JSValue) : bool :=
  match v with
  | VUndefined | VNull => false
  | VBool b => b
  | VNum lit =>
      if is_json_number (chars lit) then negb (num_is_zero (chars lit))
      else negb (String.eqb lit "NaN")
  | VStr s => negb (String.eqb s "")
  | VArr _ | VObj _ | VObjectId _ | VDate _ => true
  end.

(* ================================================================== *)
(** * The MongoDB collection *)
(* ================================================================== *)

(** What the driver writes for a JavaScript value: [undefined] is stored as
    [null] (the driver's default, [ignoreUndefined: false]). *)
Fixpoint bson (v : JSValue) : JSValue :=
  match v with
  | VUndefined => VNull
  | VArr items => VArr (map bson items)
  | VObj props => VObj (map (fun kv => (fst kv, bson (snd kv))) props)
  | _ => v
  end.

Definition bson_document (d : Document) : Document :=
  map (fun kv => (fst kv, bson (snd kv))) d.

Definition is_hex_digit (c : ascii) : bool :=
  match hex_val c with Some _ => true | None => false end.

Definition lower_char (c : ascii) : ascii :=
  let n := nat_of_ascii c in
  if (65 <=? n) && (n <=? 90) then ascii_of_nat (n + 32) else c.

Definition is_hex24 (s : string) : bool :=
  (length (chars s) =? 24) && forallb is_hex_digit (chars s).

(** [new ObjectId(id)]: a string of 24 hexadecimal digits names that id
    ([Some hex], in lower case); [undefined], [null] and a number make the
    driver generate a new id ([None]), which is the id of no stored document.
    An object with an [id] property stands for that property, which must be
    a string (the driver's [ObjectIdLike]; an object read from JSON has no
    [toHexString] method and no byte array); an ObjectId stands for itself.
    Anything else throws: a boolean, an array, an object without [id].
    (Drivers before version 6 also take a string of 12 characters as the
    12 bytes of an id; that case is not modelled and throws here.) *)
Definition new_ObjectId (id : JSValue) : Outcome (option string) :=
  match id with
  | VStr s =>
      if is_hex24 s then Ok (Some (str (map lower_char (chars s))))
      else Throw (Err "BSONError")
  | VUndefined | VNull | VNum _ => Ok None
  | VObj props =>
      match assoc "id" props with
      | Some (VStr s) =>
          if is_hex24 s then Ok (Some (str (map lower_char (chars s))))
          else Throw (Err "BSONError")
      | _ => Throw (Err "BSONError")
      end
  | VObjectId hex => Ok (Some hex)
  | _ => Throw (Err "BSONError")
  end.

Definition has_id (hex : string) (d : Document) : bool :=
  match assoc "_id" d with
  | Some (VObjectId h) => String.eqb h hex
  | _ => false
  end.

(** The candidate filter of [readDocuments]:
    [{ plot: { $exists: true }, plot_embedding: { $exists: false } }]. *)
Definition is_candidate (d : Document) : bool :=
  has_field "plot" d && negb (has_field "plot_embedding" d).

(** [cursor.limit(n)]: 0 is no limit, a negative limit is its absolute
    value. *)
Definition apply_limit (n : Z) (docs : list Document) : list Document :=
  if (n =? 0)%Z then docs else firstn (Z.abs_nat n) docs.

(** The first document with the key is replaced by the key and the
    replacement; [None] when no document has the key. *)
Fixpoint replace_by_id (hex : string) (replacement : Document)
  (docs : list Document) : option (list Document) :=
  match docs with
  | [] => None
  | d :: r =>
      if has_id hex d then Some ((("_id", VObjectId hex) :: replacement) :: r)
      else match replace_by_id hex replacement r with
           | Some r' => Some (d :: r')
           | None => None
           end
  end.

(** A row of an aggregation: a document and, after [$search], its score. *)
Record Row := { row_doc : Document; row_score : option Z }.

Definition score_leb (a b : Row) : bool :=
  match row_score a, row_score b with
  | Some x, Some y => (x <=? y)%Z
  | None, _ => true
  | Some _, None => false
  end.

(** Insertion by decreasing score; equal scores keep collection order. *)
Fixpoint insert_desc (r : Row) (rs : list Row) : list Row :=
  match rs with
  | [] => [r]
  | x :: rest =>
      if score_leb x r then r :: rs else x :: insert_desc r rest
  end.

Definition sort_desc (rs : list Row) : list Row :=
  fold_right insert_desc [] rs.

Definition dec_Z (z : Z) : string :=
  if (z <? 0)%Z then String (ascii_of_nat 45) (dec (Z.abs_nat z))
  else dec (Z.abs_nat z).

Definition mem_string (s : string) (l : list string) : bool :=
  existsb (String.eqb s) l.

Module Mongo.
Section WithServices.
Variable svc : Services.

(** [collection.find(candidate filter).limit(count).toArray()].  An
    integer limit is applied as the driver documents it; what the store
    answers to a limit that is not finite is a parameter.  (An integer
    beyond the 64-bit range is applied like any other integer: what the
    server says to such a limit is not modelled.) *)
Definition find_candidates (count : Num) : M (list Document) :=
  fun w =>
    let w1 := record_call (Find count) w in
    match storeFault svc (clock w) with
    | Some e => (Throw e, w1)
    | None =>
        let matching := filter is_candidate (collection w) in
        match count with
        | Int n => (Ok (apply_limit n matching), w1)
        | NaN | Infinity _ => (limitNonFinite svc count matching, w1)
        end
    end.

(** Modelled from the spec: the Document Store Gateway's
    [replaceDocument(key, fullDocument)], which is [collection.replaceOne]
    of the MongoDB driver and is not among the sources.  The document with
    the key is replaced whole and one document is reported modified; when
    no document has the key nothing changes and zero is reported.  The
    result is [modifiedCount].  (The replacement that [recordHandler] builds
    never carries an [_id]; the stored document keeps its key.) *)
Definition replaceOne (oid : option string) (replacement : Document) : M nat :=
  fun w =>
    match storeFault svc (clock w) with
    | Some e => (Throw e, record_call (ReplaceOne oid replacement None) w)
    | None =>
        match oid with
        | Some hex =>
            match replace_by_id hex (js_omit "_id" (bson_document replacement))
                    (collection w) with
            | Some docs =>
                (Ok 1, set_collection docs
                         (record_call (ReplaceOne oid replacement (Some 1)) w))
            | None =>
                (Ok 0, record_call (ReplaceOne oid replacement (Some 0)) w)
            end
        | None => (Ok 0, record_call (ReplaceOne oid replacement (Some 0)) w)
        end
    end.

(** Modelled from the spec: the Document Store Gateway's
    [vectorSearch(vector, field, k, projection)], which is the Atlas Search
    index behind [collection.aggregate] and is not among the sources.
    [$search] with [knnBeta] scores the documents the index holds for the
    field, ranks them by decreasing score and keeps the first [k].
    [$project] keeps [_id], the included fields a document has, and the
    search score under the given name. *)
Definition run_stage (stage : Stage) (rows : list Row) : list Row :=
  match stage with
  | Search index knn =>
      firstn (k knn)
        (sort_desc
           (flat_map
              (fun r =>
                 match searchScore svc index (path knn) (vector knn) (row_doc r) with
                 | Some s => [{| row_doc := row_doc r; row_score := Some s |}]
                 | None => []
                 end) rows))
  | Project include scoreName =>
      map (fun r =>
             {| row_doc :=
                  filter (fun kv => String.eqb (fst kv) "_id" ||
                                    mem_string (fst kv) include) (row_doc r) ++
                  match row_score r with
                  | Some s => [(scoreName, VNum (dec_Z s))]
                  | None => []
                  end;
                row_score := row_score r |}) rows
  end.

Definition run_pipeline (pipeline : list Stage) (docs : list Document)
  : list Document :=
  map row_doc
    (fold_left (fun rows stage => run_stage stage rows) pipeline
       (map (fun d => {| row_doc := d; row_score := None |}) docs)).

(** [collection.aggregate(pipeline).toArray()]. *)
Definition aggregate (pipeline : list Stage) : M (list Document) :=
  fun w =>
    let w1 := record_call (Aggregate pipeline) w in
    match storeFault svc (clock w) with
    | Some e => (Throw e, w1)
    | None => (Ok (run_pipeline pipeline (collection w)), w1)
    end.

End WithServices.
End Mongo.

(* ================================================================== *)
(** * functions/commons/helpers.ts *)
(* ================================================================== *)

Module Helpers.
Section WithServices.
Variable svc : Services.
Variable consts : Constants.

Definition getStringFromEnv (name : string) : Outcome string :=
  match processEnv svc name with
  | Some value =>
      if String.eqb value "" then Throw (Err (String.append name " is not set"))
      else Ok value
  | None => Throw (Err (String.append name " is not set"))
  end.

(** The client is created once; later calls return the collection of the
    existing client. *)
Definition getMongoCollection : M unit :=
  fun w =>
    if mongoClient w then (Ok tt, w)
    else
      match getStringFromEnv "MONGODB_CONNECTION_STRING_SECRET_NAME" with
      | Throw e => (Throw e, w)
      | Ok mongoDBSecretName =>
          let w1 := record_call (GetSecret mongoDBSecretName) w in
          match getSecret svc (clock w) mongoDBSecretName with
          | SecretRejects e => (Throw e, w1)
          | SecretUndefined =>
              (Throw (Err "MongoDB connection string not found"), w1)
          | SecretValue _ => (Ok tt, set_mongoClient true w1)
          end
      end.

Definition invokeModel (request : string) : M (option Z * option string) :=
  fun w =>
    let w1 := record_call (InvokeModel (BEDROCK_MODEL_ID consts) request) w in
    match bedrock svc (clock w) (BEDROCK_MODEL_ID consts) request with
    | BedrockRejects e => (Throw e, w1)
    | BedrockResponse status body => (Ok (status, body), w1)
    end.

Definition status_is (code : Z) (httpStatusCode : option Z) : bool :=
  match httpStatusCode with
  | Some s => (s =? code)%Z
  | None => false
  end.

(** The request body, [JSON.stringify({ inputText })]. *)
Definition embedding_request (inputText : JSValue) : string :=
  JSON_stringify (VObj [("inputText", inputText)]).

Definition createEmbedding (inputText : JSValue) : M JSValue :=
  try_catch
    (response <- invokeModel (embedding_request inputText) ;;
     let (httpStatusCode, body) := response in
     if negb (status_is 200 httpStatusCode) then
       throw (Err "Error in model response")
     else
       match body with
       | None => throw (Err "Error in model response")
       | Some body =>
           parsed <- lift (JSON_parse_or_throw body) ;;
           embedding <- lift (destructure "embedding" parsed) ;;
           ret embedding
       end)
    (fun error => throw error).

Definition sendMessagesToQueue (batch : list Entry) : M unit :=
  queueUrl <- lift (getStringFromEnv "EVENTS_QUEUE_URL") ;;
  fun w =>
    let w1 := record_call (SendMessageBatch queueUrl batch) w in
    match sqs svc (clock w) queueUrl batch with
    | Some e => (Throw e, w1)
    | None => (Ok tt, enqueue batch w1)
    end.

Definition getEmbedding := createEmbedding.

End WithServices.
End Helpers.

(* ================================================================== *)
(** * Events and responses *)
(* ================================================================== *)

Module APIGatewayEvent.
Record t := {
  body : option string;
  queryStringParameters : option (list (string * string))
}.
End APIGatewayEvent.

Module HttpResponse.
Record t := { statusCode : Z; body : string }.
End HttpResponse.

Module SQSRecord.
Record t := { messageId : string; body : string }.
End SQSRecord.

(** [SQSBatchResponse]: the [itemIdentifier] of each reported failure. *)
Record SQSBatchResponse := { batchItemFailures : list string }.

(** The Lambda context: the remaining time, read when the clock of the
    world (the number of requests made so far) has a given value. *)
Record Context := { getRemainingTimeInMillis : nat -> Z }.

Fixpoint lookup_param (name : string) (ps : list (string * string))
  : option string :=
  match ps with
  | [] => None
  | (n, v) :: r => if String.eqb name n then Some v else lookup_param name r
  end.

(* ================================================================== *)
(** * functions/createInitialEmbeddings/index.ts *)
(* ================================================================== *)

Module Backfill.
Section WithServices.
Variable svc : Services.

Definition readDocuments (count : Num) : M (list Document) :=
  Helpers.getMongoCollection svc ;;;
  documents <- Mongo.find_candidates svc count ;;
  ret documents.

Definition randomUUID : M string :=
  fun w => (Ok (uuid svc (uuids w)), draw_uuid w).

(** The message body: the reduced EventBridge format. *)
Definition changeEvent (id : string) (document : Document) : JSValue :=
  VObj [("version", VStr "0");
        ("id", VStr id);
        ("detail-type", VStr "MongoDB Database Trigger for sample_mflix.movies");
        ("detail",
          VObj [("operationType", VStr "update");
                ("fullDocument", VObj document);
                ("documentKey", VObj [("_id", js_get "_id" (VObj document))])])].

(** The loop of [sendToQueueInBatches], with its two variables.  The batch
    size is a JavaScript number that is only compared with a length. *)
Fixpoint sendLoop (documents : list Document) (batchSize : Z)
  (sentCount : nat) (batch : list Entry) : M nat :=
  match documents with
  | [] => ret sentCount
  | document :: rest =>
      entryId <- randomUUID ;;
      id <- randomUUID ;;
      let batch :=
        batch ++ [{| Id := entryId;
                     MessageBody := JSON_stringify (changeEvent id document) |}] in
      if (Z.of_nat (length batch) =? batchSize)%Z then
        Helpers.sendMessagesToQueue svc batch ;;;
        sendLoop rest batchSize (sentCount + length batch) []
      else sendLoop rest batchSize sentCount batch
  end.

Definition sendToQueueInBatches (documents : list Document) (batchSize : Z)
  : M nat :=
  sendLoop documents batchSize 0 [].

Definition defaultBatchSize : Z := 10.

(** [count ? parseInt(count) : 50]. *)
Definition limitOfCount (count : option string) : Num :=
  match count with
  | Some c => if String.eqb c "" then Int 50 else parseInt c
  | None => Int 50
  end.

Definition handler (event : APIGatewayEvent.t) : M HttpResponse.t :=
  let count :=
    match APIGatewayEvent.queryStringParameters event with
    | Some ps => lookup_param "count" ps
    | None => None
    end in
  try_catch
    (documents <- readDocuments (limitOfCount count) ;;
     sentCount <- sendToQueueInBatches documents defaultBatchSize ;;
     ret {| HttpResponse.statusCode := 200;
            HttpResponse.body :=
              JSON_stringify (VObj [("read", VNat (length documents));
                                    ("sent", VNat sentCount)]) |})
    (fun error => throw error).

End WithServices.
End Backfill.

(* ================================================================== *)
(** * The queue consumer (the second handler of the same source file) *)
(* ================================================================== *)

Module Embed.
Section WithServices.
Variable svc : Services.
Variable consts : Constants.

Definition writeEmbedding (id : JSValue) (fullDocument : Document) : M unit :=
  Helpers.getMongoCollection svc ;;;
  oid <- lift (new_ObjectId id) ;;
  modifiedCount <- Mongo.replaceOne svc oid fullDocument ;;
  if modifiedCount =? 1 then ret tt
  else throw (Err "Unable to update document").

Definition indexed (items : list JSValue) : Document :=
  combine (map dec (seq 0 (length items))) items.

(** [const { _id, ...document } = v]: the own enumerable properties but
    [_id]; a TypeError on [null] and [undefined].  A string spreads into
    its characters, here its bytes (the same for an ASCII string). *)
Definition rest_without (key : string) (v : JSValue) : Outcome Document :=
  match v with
  | VUndefined | VNull => Throw TypeError
  | VObj props => Ok (js_omit key props)
  | VArr items => Ok (indexed items)
  | VStr s => Ok (indexed (map (fun c => VStr (String c EmptyString)) (chars s)))
  | _ => Ok []
  end.

Definition timeThreshold : Z := 1000.

Definition obind {A B} (o : Outcome A) (f : A -> Outcome B) : Outcome B :=
  match o with
  | Ok a => f a
  | Throw e => Throw e
  end.

(** [try { payload = JSON.parse(body) } catch (error) { throw ... }]. *)
Definition parseBody (body : string) : Outcome JSValue :=
  match JSON_parse_or_throw body with
  | Ok payload => Ok payload
  | Throw error => Throw (ErrCause "Unable to parse SQS record" error)
  end.

(** The part of [recordHandler] that reads the record: the payload is
    parsed and [payload.detail] is taken apart into the document id and the
    full document without its [_id]. *)
Definition extractDetail (detail : JSValue) : Outcome (JSValue * Document) :=
  obind (destructure "documentKey" detail) (fun documentKey =>
  obind (destructure "_id" documentKey) (fun id =>
  obind (rest_without "_id" (js_get "fullDocument" detail)) (fun document =>
  Ok (id, document)))).

Definition extractEvent (body : string) : Outcome (JSValue * Document) :=
  obind (parseBody body) (fun payload =>
  obind (destructure "detail" payload) (fun detail =>
  extractDetail detail)).

Definition recordHandler (record : SQSRecord.t) (lambdaContext : Context)
  : M unit :=
  try_catch
    (fun w =>
       if (getRemainingTimeInMillis lambdaContext (clock w) <? timeThreshold)%Z
       then throw (Err "Time is about to expire, stopping processing") w
       else
         (event <- lift (extractEvent (SQSRecord.body record)) ;;
          let (id, document) := event in
          embedding <- try_catch
                         (Helpers.getEmbedding svc consts (js_get "plot" (VObj document)))
                         (fun error => throw (ErrCause "Unble to create embedding" error)) ;;
          let document := js_set "plot_embedding" embedding document in
          try_catch
            (writeEmbedding id document)
            (fun error => throw (ErrCause "Unable to write embedding" error))) w)
    (fun error => throw error).

(** Modelled from the spec: [processPartialResponse] with a
    [BatchProcessor] for SQS, which belong to the Powertools batch utility
    and are not among the sources.  Each record of the delivered batch is
    handed to the record handler, in delivery order; a handler that throws
    marks its record as failed and the next record is still processed; the
    response lists the message identifier of every failed record. *)
Fixpoint processPartialResponse (records : list SQSRecord.t)
  (handle : SQSRecord.t -> M unit) : M SQSBatchResponse :=
  match records with
  | [] => ret {| batchItemFailures := [] |}
  | record :: rest =>
      fun w =>
        let (outcome, w1) := handle record w in
        match processPartialResponse rest handle w1 with
        | (Ok response, w2) =>
            (Ok {| batchItemFailures :=
                     match outcome with
                     | Ok _ => batchItemFailures response
                     | Throw _ =>
                         SQSRecord.messageId record :: batchItemFailures response
                     end |}, w2)
        | (Throw e, w2) => (Throw e, w2)
        end
  end.

Definition handler (event : list SQSRecord.t) (context : Context)
  : M SQSBatchResponse :=
  processPartialResponse event (fun record => recordHandler record context).

End WithServices.
End Embed.

(* ================================================================== *)
(** * functions/search/index.ts *)
(* ================================================================== *)

Module Search.
Section WithServices.
Variable svc : Services.
Variable consts : Constants.

Definition pipeline (embedding : JSValue) : list Stage :=
  [ Search (MONGODB_SEARCH_INDEX_NAME consts)
      {| vector := embedding; path := "plot_embedding"; k := 3 |};
    Project ["title"; "plot"] "score" ].

Definition knnSearch (embedding : JSValue) : M (list Document) :=
  Helpers.getMongoCollection svc ;;;
  results <- Mongo.aggregate svc (pipeline embedding) ;;
  ret results.

Definition errorMessage : string :=
  "An error occurred while searching the movies, please try again later.".

Definition errorResponse : HttpResponse.t :=
  {| HttpResponse.statusCode := 500;
     HttpResponse.body := JSON_stringify (VObj [("message", VStr errorMessage)]) |}.

Definition handler (event : APIGatewayEvent.t) : M HttpResponse.t :=
  try_catch
    (parsed <- lift (JSON_parse_or_throw
                       (match APIGatewayEvent.body event with
                        | Some b => if String.eqb b "" then "{}" else b
                        | None => "{}"
                        end)) ;;
     query <- lift (destructure "query" parsed) ;;
     embedding <- try_catch
                    (embedding <- Helpers.getEmbedding svc consts query ;;
                     if truthy embedding then ret embedding
                     else throw (Err "Empty embedding returned by the API"))
                    (fun error => throw (ErrCause "Unable to get embedding" error)) ;;
     items <- try_catch
                (knnSearch embedding)
                (fun error =>
                   throw (ErrCause "Unable to get embedding or search index" error)) ;;
     ret {| HttpResponse.statusCode := 200;
            HttpResponse.body := JSON_stringify (VArr (map VObj items)) |})
    (fun _ => ret errorResponse).

End WithServices.
End Search.

(* ================================================================== *)
(** * Notions used to state the properties *)
(* ================================================================== *)

(** What [JSON.parse(JSON.stringify(v))] is, for a [v] that is not
    [undefined]: driver objects become the strings of their [toJSON],
    [undefined] is dropped from objects and is [null] in arrays, and a
    number without a JSON literal is [null]. *)
Fixpoint to_json (v : JSValue) : JSValue :=
  match v with
  | VUndefined => VNull
  | VNum lit => if is_json_number (chars lit) then VNum lit else VNull
  | VObjectId hex => VStr hex
  | VDate iso => VStr iso
  | VArr items => VArr (map to_json items)
  | VObj props =>
      VObj (flat_map (fun kv => match snd kv with
                                | VUndefined => []
                                | _ => [(fst kv, to_json (snd kv))]
                                end) props)
  | _ => v
  end.

Fixpoint distinct (l : list string) : bool :=
  match l with
  | [] => true
  | x :: r => negb (mem_string x r) && distinct r
  end.

(** The keys of every object are distinct, as they are in JavaScript. *)
Fixpoint unique_keys (v : JSValue) : bool :=
  match v with
  | VArr items => forallb unique_keys items
  | VObj props =>
      distinct (map fst props) &&
      forallb (fun kv => unique_keys (snd kv)) props
  | _ => true
  end.

(** A JSON value: no [undefined], no driver object, no number without a
    literal. *)
Fixpoint is_json (v : JSValue) : bool :=
  match v with
  | VUndefined | VObjectId _ | VDate _ => false
  | VNum lit => is_json_number (chars lit)
  | VArr items => forallb is_json items
  | VObj props => forallb (fun kv => is_json (snd kv)) props
  | _ => true
  end.

(** The hexadecimal form [ObjectId.toHexString] gives: 24 digits, lower
    case. *)
Definition is_object_id_hex (s : string) : bool :=
  is_hex24 s && String.eqb (str (map lower_char (chars s))) s.

Section Stating.
Variable svc : Services.
Variable consts : Constants.

(** The entries [sendToQueueInBatches] builds for a list of documents when
    [u] identifiers were drawn before: two identifiers per document. *)
Fixpoint entriesFor (u : nat) (documents : list Document) : list Entry :=
  match documents with
  | [] => []
  | document :: rest =>
      {| Id := uuid svc u;
         MessageBody :=
           JSON_stringify (Backfill.changeEvent (uuid svc (S u)) document) |}
      :: entriesFor (S (S u)) rest
  end.

(** The queue gateway is configured and accepts every batch. *)
Definition queue_accepts (queueUrl : string) : Prop :=
  Helpers.getStringFromEnv svc "EVENTS_QUEUE_URL" = Ok queueUrl /\
  forall t entries, sqs svc t queueUrl entries = None.



End Stating.

(** What [createEmbedding] makes of a reply of the model. *)
Definition embedding_of_reply (reply : BedrockReply) : Outcome JSValue :=
  match reply with
  | BedrockRejects e => Throw e
  | BedrockResponse status body =>
      if negb (Helpers.status_is 200 status)
      then Throw (Err "Error in model response")
      else match body with
           | None => Throw (Err "Error in model response")
           | Some b =>
               match JSON_parse b with
               | None => Throw SyntaxError
               | Some parsed => destructure "embedding" parsed
               end
           end
  end.

Definition field_names (d : Document) : list string := map fst d.

Definition last_call (w : World) : option Call := last (map Some (calls w)) None.

(** The calls made between two worlds. *)
Definition calls_since (w w' : World) : list Call :=
  skipn (length (calls w)) (calls w').

Definition is_aggregate (c : Call) : bool :=
  match c with Aggregate _ => true | _ => false end.

(** ** Notions used to state the properties of the search *)

(** The item the pipeline of [knnSearch] returns for a document with a
    given score. *)
Definition project_item (d : Document) (s : Z) : Document :=
  filter (fun kv => String.eqb (fst kv) "_id" ||
                    mem_string (fst kv) ["title"; "plot"]) d ++
  [("score", VNum (dec_Z s))].

(** [a] ranks at least as high as [b]. *)
Definition above (a b : Row) : Prop := score_leb b a = true.

Definition row_of (p : Document * Z) : Row :=
  {| row_doc := fst p; row_score := Some (snd p) |}.

Definition scored (svc : Services) (index field : string) (query : JSValue)
  (docs : list Document) : list (Document * Z) :=
  flat_map (fun d => match searchScore svc index field query d with
                     | Some s => [(d, s)]
                     | None => []
                     end) docs.

(** [body || '{}']. *)
Definition search_text (event : APIGatewayEvent.t) : string :=
  match APIGatewayEvent.body event with
  | Some b => if String.eqb b "" then "{}" else b
  | None => "{}"
  end.

(** Every step of the search handler succeeds: the body is JSON and not
    [null], the model gives an embedding that is not falsy, and the
    aggregation answers with [items], leaving the world [w']. *)
Definition search_succeeds (svc : Services) (consts : Constants)
  (event : APIGatewayEvent.t) (w : World) (items : list Document) (w' : World)
  : Prop :=
  exists parsed query embedding w1,
    JSON_parse (search_text event) = Some parsed /\
    destructure "query" parsed = Ok query /\
    Helpers.getEmbedding svc consts query w = (Ok embedding, w1) /\
    truthy embedding = true /\
    Search.knnSearch svc consts embedding w1 = (Ok items, w').

Definition okResponse (items : list Document) : HttpResponse.t :=
  {| HttpResponse.statusCode := 200;
     HttpResponse.body := JSON_stringify (VArr (map VObj items)) |}.

(** ** Notions used in the proofs about the JSON codec *)

(** With fuel [f], a successful parse consumes part of the text, and any
    fuel above the number of characters consumed gives the same result. *)
Definition enough {A} (parse : nat -> text -> option (A * text)) (f : nat) : Prop :=
  forall s v r,
    parse f s = Some (v, r) ->
    length r < length s /\
    forall f', length s - length r < f' -> parse f' s = Some (v, r).


(** A text may be followed by [rest] without changing how it is read: what
    follows does not continue a number. *)
Definition delim_ok (rest : text) : bool :=
  match rest with [] => true | c :: _ => negb (numchar c) end.

(** The text [t] is read back as [j], whatever follows it. *)
Definition good (t : text) (j : JSValue) : Prop :=
  forall fuel rest, length t < fuel -> delim_ok rest = true ->
    parse_value fuel (t ++ rest) = Some (j, rest).

Definition head_ok (t : text) : Prop :=
  exists c t', t = c :: t' /\ is_ws c = false /\ (nat_of_ascii c =? 93) = false.

Definition member_text (e : string * (text * JSValue)) : text :=
  quote (fst e) ++ chars ":" ++ fst (snd e).

Definition member_value (e : string * (text * JSValue)) : string * JSValue :=
  (fst e, snd (snd e)).

Definition element_text (x : JSValue) : text :=
  match serialize x with Some t => t | None => chars "null" end.

Definition member_of (kv : string * JSValue)
  : list (string * (text * JSValue)) :=
  match serialize (snd kv) with
  | Some t => [(fst kv, (t, to_json (snd kv)))]
  | None => []
  end.

(* ================================================================== *)
(** * Sample data *)
(* ================================================================== *)

Module Fixtures.

Definition two_digits (n : nat) : string :=
  if n <? 10 then String.append "0" (dec n) else dec n.

Definition hexOf (n : nat) : string :=
  String.append "573a1398f29313caabcea3" (two_digits n).

Definition movie (n : nat) : Document :=
  [("_id", VObjectId (hexOf n));
   ("plot", VStr (String.append "plot " (dec n)));
   ("title", VStr (String.append "title " (dec n)));
   ("year", VNum "1999")].

Definition movies (n : nat) : list Document := map movie (seq 0 n).

(** A movie as the sample data has them, with a [Date] among its fields. *)
Definition datedMovie : Document :=
  [("_id", VObjectId (hexOf 0));
   ("plot", VStr "plot 0");
   ("released", VDate "1999-03-31T00:00:00.000Z")].

Definition embedded (n : nat) : Document :=
  movie n ++ [("plot_embedding", VArr [VNum (dec n); VNum "0.5"])].

Definition queueUrl : string := "https://sqs.example/events".

Definition modelAnswer : string :=
  JSON_stringify (VObj [("embedding", VArr [VNum "0.25"; VNum "-1e-3"])]).

Definition emptyAnswer : string :=
  JSON_stringify (VObj [("embedding", VArr [])]).

Definition failingRequest : string :=
  JSON_stringify (VObj [("inputText", VStr "plot 1")]).

(** Services that work, but for the model, which fails on the plot of
    movie 1. *)
Definition services : Services :=
  {| processEnv := fun name =>
       if String.eqb name "EVENTS_QUEUE_URL" then Some queueUrl
       else if String.eqb name "MONGODB_CONNECTION_STRING_SECRET_NAME"
            then Some "mongodb-secret" else None;
     getSecret := fun _ _ => SecretValue "mongodb+srv://cluster";
     bedrock := fun _ _ request =>
       if String.eqb request failingRequest
       then BedrockResponse (Some 500%Z) None
       else BedrockResponse (Some 200%Z) (Some modelAnswer);
     sqs := fun _ _ _ => None;
     storeFault := fun _ => None;
     limitNonFinite := fun _ docs => Ok docs;
     searchScore := fun _ _ _ d =>
       match assoc "plot_embedding" d with
       | Some (VArr (VNum s :: _)) =>
           Some (match parseInt s with Int z => z | _ => 0%Z end)
       | _ => None
       end;
     uuid := fun n => String.append "uuid-" (dec n) |}.

(** The same services with a model that answers an empty vector. *)
Definition emptyVectorServices : Services :=
  {| processEnv := processEnv services;
     getSecret := getSecret services;
     bedrock := fun _ _ _ => BedrockResponse (Some 200%Z) (Some emptyAnswer);
     sqs := sqs services;
     storeFault := storeFault services;
     limitNonFinite := limitNonFinite services;
     searchScore := searchScore services;
     uuid := uuid services |}.

Definition constants : Constants :=
  {| BEDROCK_MODEL_ID := "amazon.titan-embed-text-v1";
     MONGODB_SEARCH_INDEX_NAME := "default" |}.

Definition world (docs : list Document) : World :=
  {| collection := docs; mongoClient := false; queue := [];
     calls := []; uuids := 0 |}.

Definition context : Context :=
  {| getRemainingTimeInMillis := fun _ => 60000%Z |}.

Definition lateContext : Context :=
  {| getRemainingTimeInMillis := fun _ => 500%Z |}.

Definition recordOf (n : nat) : SQSRecord.t :=
  {| SQSRecord.messageId := String.append "message-" (dec n);
     SQSRecord.body :=
       JSON_stringify (Backfill.changeEvent (String.append "event-" (dec n)) (movie n)) |}.

Definition backfillEvent (count : option string) : APIGatewayEvent.t :=
  {| APIGatewayEvent.body := None;
     APIGatewayEvent.queryStringParameters :=
       match count with
       | Some c => Some [("count", c)]
       | None => None
       end |}.

Definition searchEvent (query : string) : APIGatewayEvent.t :=
  {| APIGatewayEvent.body := Some (JSON_stringify (VObj [("query", VStr query)]));
     APIGatewayEvent.queryStringParameters := None |}.

Definition itemsOf {A} (o : Outcome (list A)) : list A :=
  match o with Ok l => l | Throw _ => [] end.

End Fixtures.

(* ================================================================== *)
(** * Notions used to state the further properties *)
(* ================================================================== *)

(** The kinds of requests. *)
Definition is_get_secret (c : Call) : bool :=
  match c with GetSecret _ => true | _ => false end.

Definition is_invoke_model (c : Call) : bool :=
  match c with InvokeModel _ _ => true | _ => false end.

Definition is_send (c : Call) : bool :=
  match c with SendMessageBatch _ _ => true | _ => false end.

Definition is_find (c : Call) : bool :=
  match c with Find _ => true | _ => false end.

Definition is_replace (c : Call) : bool :=
  match c with ReplaceOne _ _ _ => true | _ => false end.

(** [const { count } = queryStringParameters || {}]. *)
Definition count_of (event : APIGatewayEvent.t) : option string :=
  match APIGatewayEvent.queryStringParameters event with
  | Some ps => lookup_param "count" ps
  | None => None
  end.

(** The answer of the backfill handler for [read] documents read and [sent]
    messages sent. *)
Definition backfillResponse (read sent : nat) : HttpResponse.t :=
  {| HttpResponse.statusCode := 200;
     HttpResponse.body :=
       JSON_stringify (VObj [("read", VNat read); ("sent", VNat sent)]) |}.

(** Between [w] and [w'] requests were only added, each of them allowed by
    [P] or a request for the secret made when [w] had no client; a client
    that exists in [w] is kept. *)
Definition only_requests (P : Call -> bool) (w w' : World) : Prop :=
  (exists later,
     calls w' = calls w ++ later /\
     forallb (fun c => P c || (is_get_secret c && negb (mongoClient w))) later
     = true) /\
  (mongoClient w = true -> mongoClient w' = true).

(** The environment variable is not set, or set to the empty string. *)
Definition env_unset (svc : Services) (name : string) : Prop :=
  processEnv svc name = None \/ processEnv svc name = Some "".

(** [null] or [undefined]: the values that cannot be destructured. *)
Definition is_nullish (v : JSValue) : bool :=
  match v with VUndefined | VNull => true | _ => false end.

(** The replacement that [recordHandler] writes for a document snapshot and
    an embedding. *)
Definition replacementOf (document : Document) (embedding : JSValue) : Document :=
  js_set "plot_embedding" embedding document.

(** What the collection holds under the key after the replacement. *)
Definition storedAs (hex : string) (replacement : Document) : Document :=
  ("_id", VObjectId hex) :: js_omit "_id" (bson_document replacement).

(** A decimal digit. *)
Definition is_decimal (c : ascii) : Prop := exists d, d < 10 /\ c = digit_char d.

(** What [find(candidates).limit(count).toArray()] gives on the documents
    of a reachable collection. *)
Definition found (svc : Services) (count : Num) (docs : list Document)
  : Outcome (list Document) :=
  match count with
  | Int n => Ok (apply_limit n (filter is_candidate docs))
  | NaN | Infinity _ => limitNonFinite svc count (filter is_candidate docs)
  end.

(* ================================================================== *)
(** * Further sample data *)
(* ================================================================== *)

Module Scenarios.

(** The services of [Fixtures] with another queue gateway. *)
Definition withQueue (answer : nat -> string -> list Entry -> option JSError)
  : Services :=
  {| processEnv := processEnv Fixtures.services;
     getSecret := getSecret Fixtures.services;
     bedrock := bedrock Fixtures.services;
     sqs := answer;
     storeFault := storeFault Fixtures.services;
     limitNonFinite := limitNonFinite Fixtures.services;
     searchScore := searchScore Fixtures.services;
     uuid := uuid Fixtures.services |}.

(** A queue that rejects the second request it gets. *)
Definition rejectingServices : Services :=
  withQueue (fun t _ _ => if t =? 1 then Some (Err "ServiceUnavailable") else None).

(** The services of [Fixtures] in an environment without the address of the
    queue. *)
Definition noQueueServices : Services :=
  {| processEnv := fun name =>
       if String.eqb name "EVENTS_QUEUE_URL" then None
       else processEnv Fixtures.services name;
     getSecret := getSecret Fixtures.services;
     bedrock := bedrock Fixtures.services;
     sqs := sqs Fixtures.services;
     storeFault := storeFault Fixtures.services;
     limitNonFinite := limitNonFinite Fixtures.services;
     searchScore := searchScore Fixtures.services;
     uuid := uuid Fixtures.services |}.

(** The services of [Fixtures] when the secret does not exist. *)
Definition noSecretServices : Services :=
  {| processEnv := processEnv Fixtures.services;
     getSecret := fun _ _ => SecretUndefined;
     bedrock := bedrock Fixtures.services;
     sqs := sqs Fixtures.services;
     storeFault := storeFault Fixtures.services;
     limitNonFinite := limitNonFinite Fixtures.services;
     searchScore := searchScore Fixtures.services;
     uuid := uuid Fixtures.services |}.

(** A process that has connected already. *)
Definition connected (docs : list Document) : World :=
  set_mongoClient true (Fixtures.world docs).

(** The change event of a deleted document: it has no [fullDocument]. *)
Definition deleteEvent : JSValue :=
  VObj [("version", VStr "0");
        ("id", VStr "event-9");
        ("detail-type", VStr "MongoDB Database Trigger for sample_mflix.movies");
        ("detail",
          VObj [("operationType", VStr "delete");
                ("documentKey", VObj [("_id", VStr (Fixtures.hexOf 0))])])].

Definition deleteRecord : SQSRecord.t :=
  {| SQSRecord.messageId := "message-9";
     SQSRecord.body := JSON_stringify deleteEvent |}.

(** A change event whose key is given as an object with an [id]. *)
Definition objectKeyEvent : JSValue :=
  VObj [("version", VStr "0");
        ("id", VStr "event-8");
        ("detail-type", VStr "MongoDB Database Trigger for sample_mflix.movies");
        ("detail",
          VObj [("operationType", VStr "update");
                ("fullDocument", VObj (js_omit "_id" (Fixtures.movie 0)));
                ("documentKey",
                  VObj [("_id", VObj [("id", VStr (Fixtures.hexOf 0))])])])].

Definition objectKeyRecord : SQSRecord.t :=
  {| SQSRecord.messageId := "message-8";
     SQSRecord.body := JSON_stringify objectKeyEvent |}.

(** The vector of [Fixtures.modelAnswer]. *)
Definition vector : JSValue := VArr [VNum "0.25"; VNum "-1e-3"].

End Scenarios.

(** The request model of the search method in [lib/searchApi-construct.ts],
    against which the gateway checks the body before the handler runs: the
    JSON schema [{ type: object, required: [query], properties: { query:
    { type: string } } }].  Other properties are allowed. *)
Definition SearchRequestModel (payload : JSValue) : bool :=
  match payload with
  | VObj props =>
      match assoc "query" props with
      | Some (VStr _) => true
      | _ => false
      end
  | _ => false
  end.

(* ================================================================== *)
(** * The JSON codec: what is written is read back *)
(* ================================================================== *)

Lemma parse_chars_escape (c : ascii) (tail : text) :
  parse_chars (escape_char c ++ tail) = cons_char c (parse_chars tail).
Proof.
  destruct c as [[] [] [] [] [] [] [] []]; reflexivity.
Qed.

Lemma parse_chars_quoted (s rest : text) :
  parse_chars (flat_map escape_char s ++ dquote :: rest) = Some (s, rest).
Proof.
  induction s as [|c s IH]; simpl.
  - reflexivity.
  - rewrite <- app_assoc, parse_chars_escape, IH. reflexivity.
Qed.

Lemma numchar_not_ws (c : ascii) : numchar c = true -> is_ws c = false.
Proof.
  destruct c as [[] [] [] [] [] [] [] []]; simpl; intro H;
    first [reflexivity | discriminate H].
Qed.


Lemma span_numchar (t rest : text) :
  forallb numchar t = true -> delim_ok rest = true ->
  span numchar (t ++ rest) = (t, rest).
Proof.
  induction t as [|c t IH]; simpl; intros Ht Hr.
  - destruct rest as [|c r]; simpl in *; [reflexivity|].
    destruct (numchar c); [discriminate|reflexivity].
  - apply andb_true_iff in Ht as [Hc Ht]. rewrite Hc, (IH Ht Hr). reflexivity.
Qed.

Lemma numchar_not_bracket (c : ascii) :
  numchar c = true -> (nat_of_ascii c =? 93) = false.
Proof.
  destruct c as [[] [] [] [] [] [] [] []]; simpl; intro H;
    first [reflexivity | discriminate H].
Qed.

Lemma skip_ws_head (c : ascii) (r : text) :
  is_ws c = false -> skip_ws (c :: r) = c :: r.
Proof. intro H. simpl. rewrite H. reflexivity. Qed.



Lemma str_chars (s : string) : str (chars s) = s.
Proof. apply string_of_list_ascii_of_string. Qed.

Lemma chars_str (t : text) : chars (str t) = t.
Proof. apply list_ascii_of_string_of_list_ascii. Qed.

Lemma serialize_head (v : JSValue) (t : text) :
  serialize v = Some t -> head_ok t.
Proof.
  destruct v as [| |b|lit|s|items|props|h|d]; simpl; intro H;
    try discriminate; try (injection H as <-).
  - do 2 eexists; repeat split; reflexivity.
  - destruct b; injection H as <-; do 2 eexists; repeat split; reflexivity.
  - destruct (is_json_number (chars lit)) eqn:E.
    + unfold is_json_number in E. apply andb_true_iff in E as [E1 E2].
      destruct (chars lit) as [|c r]; [discriminate E2|].
      simpl in E1. apply andb_true_iff in E1 as [E1 _].
      exists c, r. repeat split; auto using numchar_not_ws, numchar_not_bracket.
    + do 2 eexists; repeat split; reflexivity.
  - do 2 eexists; repeat split; reflexivity.
  - do 2 eexists; repeat split; reflexivity.
  - do 2 eexists; repeat split; reflexivity.
  - do 2 eexists; repeat split; reflexivity.
  - do 2 eexists; repeat split; reflexivity.
Qed.

Lemma parse_elements_unfold (f : nat) (s : text) :
  parse_elements (S f) s =
  match parse_value f s with
  | None => None
  | Some (v, r) =>
      match skip_ws r with
      | [] => None
      | c :: r' =>
          let n := nat_of_ascii c in
          if n =? 44 then
            match parse_elements f r' with
            | Some (vs, r'') => Some (v :: vs, r'')
            | None => None
            end
          else if n =? 93 then Some ([v], r')
          else None
      end
  end.
Proof. reflexivity. Qed.

Lemma parse_elements_ok (items : list (text * JSValue)) :
  Forall (fun tj => good (fst tj) (snd tj)) items -> items <> [] ->
  forall fuel rest,
    length (join (chars ",") (map fst items)) + 1 < fuel ->
    parse_elements fuel (join (chars ",") (map fst items) ++ chars "]" ++ rest)
    = Some (map snd items, rest).
Proof.
  induction 1 as [|[t j] items Hg _ IH]; intros Hne fuel rest Hf; [congruence|].
  destruct fuel as [|f]; [lia|]. rewrite parse_elements_unfold.
  destruct items as [|tj2 items'].
  - cbn [map fst snd join] in *. rewrite (Hg f) by (simpl; auto; lia).
    reflexivity.
  - change (join (chars ",") (map fst ((t, j) :: tj2 :: items')))
      with (t ++ chars "," ++ join (chars ",") (map fst (tj2 :: items'))) in *.
    rewrite length_app in Hf. cbn [fst snd] in Hg.
    rewrite <- !app_assoc. rewrite (Hg f) by (simpl; auto; lia).
    cbn [chars list_ascii_of_string app]. rewrite skip_ws_head by reflexivity.
    cbv zeta. change (nat_of_ascii "," =? 44) with true. cbv iota.
    cbn [chars list_ascii_of_string app length] in Hf.
    specialize (IH ltac:(discriminate) f rest).
    cbn [chars list_ascii_of_string app] in IH. rewrite IH by lia.
    reflexivity.
Qed.

Lemma parse_members_unfold (f : nat) (s : text) :
  parse_members (S f) s =
  match skip_ws s with
  | [] => None
  | q :: r =>
      if nat_of_ascii q =? 34 then
        match parse_chars r with
        | None => None
        | Some (k, r1) =>
            match skip_ws r1 with
            | [] => None
            | colon :: r2 =>
                if nat_of_ascii colon =? 58 then
                  match parse_value f r2 with
                  | None => None
                  | Some (v, r3) =>
                      match skip_ws r3 with
                      | [] => None
                      | c :: r4 =>
                          let n := nat_of_ascii c in
                          if n =? 44 then
                            match parse_members f r4 with
                            | Some (ms, r5) => Some ((str k, v) :: ms, r5)
                            | None => None
                            end
                          else if n =? 125 then Some ([(str k, v)], r4)
                          else None
                      end
                  end
                else None
            end
        end
      else None
  end.
Proof. reflexivity. Qed.



Lemma member_text_shape (k : string) (t : text) (j : JSValue) (tail : text) :
  member_text (k, (t, j)) ++ tail =
  dquote :: flat_map escape_char (chars k) ++ dquote :: ":"%char :: t ++ tail.
Proof.
  unfold member_text, quote. cbn [fst snd chars list_ascii_of_string].
  simpl. rewrite <- !app_assoc. reflexivity.
Qed.

Lemma length_member_text (e : string * (text * JSValue)) :
  length (fst (snd e)) + 3 <= length (member_text e).
Proof.
  unfold member_text, quote. cbn [length chars list_ascii_of_string].
  rewrite !length_app. cbn [length app]. rewrite ?length_app. cbn [length]. lia.
Qed.

Lemma parse_members_ok (items : list (string * (text * JSValue))) :
  Forall (fun e => good (fst (snd e)) (snd (snd e))) items -> items <> [] ->
  forall fuel rest,
    length (join (chars ",") (map member_text items)) + 1 < fuel ->
    parse_members fuel
      (join (chars ",") (map member_text items) ++ "}"%char :: rest)
    = Some (map member_value items, rest).
Proof.
  induction 1 as [|[k [t j]] items Hg _ IH]; intros Hne fuel rest Hf; [congruence|].
  destruct fuel as [|f]; [lia|]. rewrite parse_members_unfold.
  cbn [fst snd] in Hg.
  pose proof (length_member_text (k, (t, j))) as Hlen. cbn [fst snd] in Hlen.
  destruct items as [|e2 items'].
  - cbn [map join] in *. rewrite member_text_shape.
    rewrite skip_ws_head by reflexivity.
    change (nat_of_ascii dquote =? 34) with true. cbv iota.
    rewrite parse_chars_quoted. rewrite skip_ws_head by reflexivity.
    change (nat_of_ascii ":" =? 58) with true. cbv iota.
    rewrite (Hg f) by (simpl; auto; lia).
    rewrite str_chars. reflexivity.
  - change (join (chars ",") (map member_text ((k, (t, j)) :: e2 :: items')))
      with (member_text (k, (t, j)) ++ chars "," ++
            join (chars ",") (map member_text (e2 :: items'))) in *.
    rewrite length_app in Hf. cbn [chars list_ascii_of_string app length] in Hf.
    rewrite <- app_assoc. rewrite member_text_shape.
    rewrite skip_ws_head by reflexivity.
    change (nat_of_ascii dquote =? 34) with true. cbv iota.
    rewrite parse_chars_quoted. rewrite skip_ws_head by reflexivity.
    change (nat_of_ascii ":" =? 58) with true. cbv iota.
    rewrite <- app_assoc.
    rewrite (Hg f) by (simpl; auto; lia).
    cbn [chars list_ascii_of_string app]. rewrite skip_ws_head by reflexivity.
    cbv zeta. change (nat_of_ascii "," =? 44) with true. cbv iota.
    specialize (IH ltac:(discriminate) f rest).
    cbn [chars list_ascii_of_string app] in IH. rewrite IH by lia.
    rewrite str_chars. reflexivity.
Qed.

Lemma mem_string_in (s : string) (l : list string) :
  mem_string s l = true <-> In s l.
Proof.
  unfold mem_string. rewrite existsb_exists. split.
  - intros [x [Hin Heq]]. apply String.eqb_eq in Heq. subst. exact Hin.
  - intro Hin. exists s. split; [exact Hin | apply String.eqb_refl].
Qed.

Lemma js_set_fresh (key : string) (v : JSValue) (acc : list (string * JSValue)) :
  mem_string key (map fst acc) = false -> js_set key v acc = acc ++ [(key, v)].
Proof.
  induction acc as [|[k' v'] acc IH]; simpl; intro H; [reflexivity|].
  apply orb_false_iff in H as [H1 H2].
  rewrite H1, (IH H2). reflexivity.
Qed.

Lemma fold_js_set_distinct (ms acc : list (string * JSValue)) :
  distinct (map fst ms) = true ->
  (forall key, In key (map fst ms) -> mem_string key (map fst acc) = false) ->
  fold_left (fun a kv => js_set (fst kv) (snd kv) a) ms acc = acc ++ ms.
Proof.
  revert acc. induction ms as [|[key v] ms IH]; intros acc Hd Hacc.
  - simpl. now rewrite app_nil_r.
  - simpl in Hd. apply andb_true_iff in Hd as [Hk Hd].
    cbn [fold_left fst snd]. rewrite js_set_fresh by (apply Hacc; now left).
    rewrite IH; [now rewrite <- app_assoc | exact Hd |].
    intros key' Hin. rewrite map_app. cbn [map fst].
    unfold mem_string. rewrite existsb_app. apply orb_false_iff. split.
    + apply Hacc. now right.
    + simpl. rewrite orb_false_r.
      destruct (String.eqb key' key) eqn:E; [|reflexivity].
      apply String.eqb_eq in E. subst key'.
      apply negb_true_iff in Hk.
      apply mem_string_in in Hin. congruence.
Qed.

Lemma obj_of_members_distinct (ms : list (string * JSValue)) :
  distinct (map fst ms) = true -> obj_of_members ms = ms.
Proof.
  intro H. unfold obj_of_members. now rewrite fold_js_set_distinct.
Qed.

Lemma serialize_none (v : JSValue) : serialize v = None <-> v = VUndefined.
Proof.
  destruct v as [| |b|lit|s|items|props|h|d]; simpl; split; intro H;
    try discriminate; try reflexivity.
  destruct b; discriminate.
Qed.

Lemma parse_value_unfold (f : nat) (s : text) :
  parse_value (S f) s =
  match skip_ws s with
  | [] => None
  | c :: r =>
      let n := nat_of_ascii c in
      if numchar c then
        let (tok, r') := span numchar (c :: r) in
        if is_json_number tok then Some (VNum (str tok), r') else None
      else if n =? 110 then literal VNull "ull" r
      else if n =? 116 then literal (VBool true) "rue" r
      else if n =? 102 then literal (VBool false) "alse" r
      else if n =? 34 then
        match parse_chars r with
        | Some (t, r') => Some (VStr (str t), r')
        | None => None
        end
      else if n =? 91 then
        match skip_ws r with
        | [] => None
        | c' :: r' =>
            if nat_of_ascii c' =? 93 then Some (VArr [], r')
            else match parse_elements f r with
                 | Some (vs, r'') => Some (VArr vs, r'')
                 | None => None
                 end
        end
      else if n =? 123 then
        match skip_ws r with
        | [] => None
        | c' :: r' =>
            if nat_of_ascii c' =? 125 then Some (VObj [], r')
            else match parse_members f r with
                 | Some (ms, r'') => Some (VObj (obj_of_members ms), r'')
                 | None => None
                 end
        end
      else None
  end.
Proof. reflexivity. Qed.

Lemma good_null : good (chars "null") VNull.
Proof. intros [|f] rest Hf _; [simpl in Hf; lia | reflexivity]. Qed.

Lemma good_true : good (chars "true") (VBool true).
Proof. intros [|f] rest Hf _; [simpl in Hf; lia | reflexivity]. Qed.

Lemma good_false : good (chars "false") (VBool false).
Proof. intros [|f] rest Hf _; [simpl in Hf; lia | reflexivity]. Qed.

Lemma good_quote (s : string) : good (quote s) (VStr s).
Proof.
  intros [|f] rest Hf _; [lia|]. rewrite parse_value_unfold.
  unfold quote. cbn [app]. rewrite skip_ws_head by reflexivity.
  cbv zeta.
  change (numchar dquote) with false.
  change (nat_of_ascii dquote =? 110) with false.
  change (nat_of_ascii dquote =? 116) with false.
  change (nat_of_ascii dquote =? 102) with false.
  change (nat_of_ascii dquote =? 34) with true. cbv iota.
  rewrite <- app_assoc. cbn [app]. rewrite parse_chars_quoted, str_chars.
  reflexivity.
Qed.

Lemma good_number (lit : string) :
  is_json_number (chars lit) = true -> good (chars lit) (VNum lit).
Proof.
  intros Hv [|f] rest Hf Hr; [lia|]. rewrite parse_value_unfold.
  pose proof Hv as Hv'. unfold is_json_number in Hv'.
  apply andb_true_iff in Hv' as [Hall Hrun].
  destruct (chars lit) as [|c r] eqn:E; [discriminate Hrun|].
  pose proof Hall as Hc. simpl in Hc. apply andb_true_iff in Hc as [Hc _].
  cbn [app]. rewrite skip_ws_head by now apply numchar_not_ws.
  cbv zeta. rewrite Hc.
  change (c :: r ++ rest) with ((c :: r) ++ rest).
  rewrite span_numchar by assumption. rewrite Hv.
  rewrite <- E, str_chars. reflexivity.
Qed.



Lemma members_text (props : list (string * JSValue)) :
  flat_map (fun kv => match serialize (snd kv) with
                      | Some t => [quote (fst kv) ++ chars ":" ++ t]
                      | None => []
                      end) props
  = map member_text (flat_map member_of props).
Proof.
  induction props as [|kv props IH]; [reflexivity|].
  cbn [flat_map]. rewrite map_app, <- IH. f_equal.
  unfold member_of. destruct (serialize (snd kv)); reflexivity.
Qed.

Lemma members_value (props : list (string * JSValue)) :
  flat_map (fun kv => match snd kv with
                      | VUndefined => []
                      | _ => [(fst kv, to_json (snd kv))]
                      end) props
  = map member_value (flat_map member_of props).
Proof.
  induction props as [|kv props IH]; [reflexivity|].
  cbn [flat_map]. rewrite map_app, <- IH. f_equal.
  unfold member_of. destruct (serialize (snd kv)) eqn:E.
  - destruct (snd kv); try reflexivity. discriminate E.
  - apply serialize_none in E. rewrite E. reflexivity.
Qed.

Lemma distinct_members (props : list (string * JSValue)) :
  distinct (map fst props) = true ->
  distinct (map fst (map member_value (flat_map member_of props))) = true.
Proof.
  induction props as [|[key v] props IH]; [reflexivity|].
  cbn [map fst distinct flat_map]. intro H.
  apply andb_true_iff in H as [Hk Hd]. specialize (IH Hd).
  unfold member_of at 1. cbn [fst snd].
  destruct (serialize v); [|exact IH].
  cbn [app map member_value fst snd distinct]. rewrite IH, andb_true_r.
  apply negb_true_iff. apply negb_true_iff in Hk.
  destruct (mem_string key (map fst (map member_value (flat_map member_of props))))
    eqn:E; [|reflexivity].
  rewrite <- Hk. symmetry. apply mem_string_in. apply mem_string_in in E.
  clear -E. induction props as [|[k2 v2] props IH]; [exact E|].
  cbn [flat_map] in E. rewrite !map_app in E. apply in_app_or in E as [E|E].
  - unfold member_of in E. cbn [fst snd] in E.
    destruct (serialize v2); [|contradiction].
    simpl in E. destruct E as [E|[]]. left. exact E.
  - right. apply IH. exact E.
Qed.

Theorem serialize_parse (v : JSValue) :
  unique_keys v = true ->
  forall t, serialize v = Some t -> good t (to_json v).
Proof.
  induction v as [| |b|lit|s|items IH|props IH|h|d] using JSValue_ind';
    intros Hu t Hs; simpl in Hs; try discriminate.
  - injection Hs as <-. apply good_null.
  - destruct b; injection Hs as <-; [apply good_true | apply good_false].
  - injection Hs as <-. cbn [to_json].
    destruct (is_json_number (chars lit)) eqn:E;
      [now apply good_number | apply good_null].
  - injection Hs as <-. apply good_quote.
  - (* arrays *)
    injection Hs as <-. cbn [to_json].
    change (map _ items) with (map element_text items) at 1.
    assert (Hgood : Forall (fun tj => good (fst tj) (snd tj))
                      (map (fun x => (element_text x, to_json x)) items)).
    { simpl in Hu. apply Forall_map. rewrite Forall_forall in IH |- *.
      intros x Hx. cbn [fst snd]. unfold element_text.
      destruct (serialize x) eqn:E.
      - apply IH; auto. rewrite forallb_forall in Hu. now apply Hu.
      - apply serialize_none in E. subst x. apply good_null. }
    intros [|f] rest Hf Hr; [lia|]. rewrite parse_value_unfold.
    cbn [chars list_ascii_of_string app]. rewrite skip_ws_head by reflexivity.
    cbv zeta.
    change (numchar "[") with false.
    change (nat_of_ascii "[" =? 110) with false.
    change (nat_of_ascii "[" =? 116) with false.
    change (nat_of_ascii "[" =? 102) with false.
    change (nat_of_ascii "[" =? 34) with false.
    change (nat_of_ascii "[" =? 91) with true. cbv iota.
    destruct items as [|x items'].
    + reflexivity.
    + assert (Hhead : head_ok (element_text x)).
      { unfold element_text. destruct (serialize x) eqn:E.
        - eapply serialize_head; eauto.
        - do 2 eexists; repeat split; reflexivity. }
      destruct Hhead as (c & t' & Ht & Hws & Hnb).
      pose proof (parse_elements_ok _ Hgood ltac:(discriminate) f rest) as Hpe.
      rewrite !map_map in Hpe. cbn [fst snd] in Hpe.
      rewrite (map_ext _ element_text) in Hpe by reflexivity.
      rewrite (map_ext _ to_json) in Hpe by reflexivity.
      cbn [chars list_ascii_of_string app] in Hpe.
      rewrite <- app_assoc. cbn [app].
      cbn [chars list_ascii_of_string app length] in Hf.
      rewrite length_app in Hf. cbn [length] in Hf.
      rewrite Hpe by lia.
      assert (Hsk : exists r', skip_ws (join [","%char] (map element_text (x :: items'))
                                 ++ "]"%char :: rest) = c :: r').
      { cbn [map join]. destruct (map element_text items');
          rewrite Ht; cbn [app]; rewrite skip_ws_head by assumption; eauto. }
      destruct Hsk as [r' ->]. rewrite Hnb. reflexivity.
  - (* objects *)
    injection Hs as <-. cbn [to_json].
    simpl in Hu. apply andb_true_iff in Hu as [Hd Hu].
    rewrite members_text, members_value.
    assert (Hgood : Forall (fun e => good (fst (snd e)) (snd (snd e)))
                      (flat_map member_of props)).
    { rewrite Forall_forall in IH |- *. intros e He.
      apply in_flat_map in He as (kv & Hkv & He).
      unfold member_of in He. destruct (serialize (snd kv)) eqn:E; [|contradiction].
      destruct He as [<-|[]]. cbn [fst snd].
      apply IH; auto. rewrite forallb_forall in Hu. now apply Hu. }
    pose proof (distinct_members props Hd) as Hdm.
    intros [|f] rest Hf Hr; [lia|]. rewrite parse_value_unfold.
    cbn [chars list_ascii_of_string app]. rewrite skip_ws_head by reflexivity.
    cbv zeta.
    change (numchar "{") with false.
    change (nat_of_ascii "{" =? 110) with false.
    change (nat_of_ascii "{" =? 116) with false.
    change (nat_of_ascii "{" =? 102) with false.
    change (nat_of_ascii "{" =? 34) with false.
    change (nat_of_ascii "{" =? 91) with false.
    change (nat_of_ascii "{" =? 123) with true. cbv iota.
    destruct (flat_map member_of props) as [|[key [t j]] items'] eqn:Eitems.
    + reflexivity.
    + pose proof (parse_members_ok _ Hgood ltac:(discriminate) f rest) as Hpm.
      rewrite <- app_assoc. cbn [app].
      cbn [chars list_ascii_of_string app length] in Hf.
      rewrite length_app in Hf. cbn [length] in Hf.
      cbn [chars list_ascii_of_string] in Hpm.
      rewrite Hpm by lia.
      rewrite obj_of_members_distinct by assumption.
      assert (Hsk : exists r', skip_ws (join [","%char]
                                  (map member_text ((key, (t, j)) :: items'))
                                 ++ "}"%char :: rest) = dquote :: r').
      { cbn [map join]. destruct (map member_text items');
          [|rewrite <- app_assoc]; rewrite member_text_shape;
          rewrite skip_ws_head by reflexivity; eauto. }
      destruct Hsk as [r' ->].
      change (nat_of_ascii dquote =? 125) with false. reflexivity.
  - injection Hs as <-. apply good_quote.
  - injection Hs as <-. apply good_quote.
Qed.

(** ** The fuel of the parser *)

Lemma skip_ws_length (s : text) : length (skip_ws s) <= length s.
Proof.
  induction s as [|c s IH]; simpl; [lia|]. destruct (is_ws c); simpl; lia.
Qed.

Lemma skip_ws_cons_length (s r : text) (c : ascii) :
  skip_ws s = c :: r -> length r < length s.
Proof. intro H. pose proof (skip_ws_length s). rewrite H in *. simpl in *. lia. Qed.

Lemma strip_prefix_length (p s r : text) :
  strip_prefix p s = Some r -> length r <= length s.
Proof.
  revert s. induction p as [|a p IH]; intros [|b s] H; simpl in H;
    try discriminate; try (injection H as <-; simpl; lia).
  destruct (Ascii.eqb a b); [|discriminate]. apply IH in H. simpl. lia.
Qed.

Lemma span_length (f : ascii -> bool) (s a b : text) :
  span f s = (a, b) -> length a + length b = length s.
Proof.
  revert a b. induction s as [|c s IH]; intros a b H; simpl in H.
  - injection H as <- <-. reflexivity.
  - destruct (f c).
    + destruct (span f s) as [a' b']. injection H as <- <-.
      simpl. now rewrite (IH a' b' eq_refl).
    + injection H as <- <-. reflexivity.
Qed.

Lemma parse_chars_length (s t r : text) :
  parse_chars s = Some (t, r) -> length r < length s.
Proof.
  remember (length s) as n eqn:Hn. revert s t r Hn.
  induction n as [n IHn] using lt_wf_ind. intros s t r Hn H. subst n.
  assert (IH : forall u t' r', length u < length s ->
                 parse_chars u = Some (t', r') -> length r' < length u)
    by (intros u t' r' Hu; now apply (IHn (length u) Hu u)).
  clear IHn.
  destruct s as [|c s']; [discriminate|].
  cbn [parse_chars] in H. cbv zeta in H.
  destruct (nat_of_ascii c =? 34).
  { injection H as <- <-. cbn [length]. lia. }
  destruct (nat_of_ascii c =? 92).
  { destruct s' as [|e s'']; [discriminate|].
    destruct (nat_of_ascii e =? 117).
    - destruct s'' as [|h1 [|h2 [|h3 [|h4 u]]]]; try discriminate.
      destruct (hex4 h1 h2 h3 h4) as [k|]; [|discriminate].
      assert (Hlone : cons_chars (utf8 k) (parse_chars u) = Some (t, r) ->
                      length r < length u).
      { unfold cons_chars. destruct (parse_chars u) as [[t' r']|] eqn:E;
          [|discriminate].
        intro H0. injection H0 as <- <-. apply IH in E; cbn [length] in *; lia. }
      destruct (is_high_surrogate k); [|apply Hlone in H; cbn [length]; lia].
      destruct u as [|b [|u0 [|g1 [|g2 [|g3 [|g4 t3]]]]]];
        try (apply Hlone in H; cbn [length] in *; lia).
      destruct (low_surrogate b u0 g1 g2 g3 g4);
        [|apply Hlone in H; cbn [length] in *; lia].
      unfold cons_chars in H. destruct (parse_chars t3) as [[t' r']|] eqn:E;
        [|discriminate].
      injection H as <- <-. apply IH in E; cbn [length] in *; lia.
    - destruct (unescape e); [|discriminate].
      unfold cons_char, cons_chars in H.
      destruct (parse_chars s'') as [[t' r']|] eqn:E; [|discriminate].
      injection H as <- <-. apply IH in E; cbn [length] in *; lia. }
  destruct (nat_of_ascii c <? 32); [discriminate|].
  unfold cons_char, cons_chars in H.
  destruct (parse_chars s') as [[t' r']|] eqn:E; [|discriminate].
  injection H as <- <-. apply IH in E; cbn [length] in *; lia.
Qed.


Lemma parse_fuel (f : nat) :
  enough parse_value f /\ enough parse_elements f /\ enough parse_members f.
Proof.
  induction f as [|f (IHv & IHe & IHm)].
  { split; [|split]; intros s v r H; discriminate H. }
  split; [|split].
  - (* values *)
    intros s v r H. rewrite parse_value_unfold in H.
    destruct (skip_ws s) as [|c t] eqn:Hs; [discriminate|].
    pose proof (skip_ws_cons_length _ _ _ Hs) as Hlen.
    cbv zeta in H.
    destruct (numchar c) eqn:Hnum.
    { destruct (span numchar (c :: t)) as [tok r'] eqn:Hspan.
      destruct (is_json_number tok) eqn:Etok; [|discriminate]. injection H as <- <-.
      pose proof (span_length _ _ _ _ Hspan) as Hsp.
      assert (Htok : 0 < length tok).
      { simpl in Hspan. rewrite Hnum in Hspan.
        destruct (span numchar t). injection Hspan as <- _. simpl. lia. }
      simpl in Hsp. split; [lia|].
      intros [|f'] Hf; [lia|]. rewrite parse_value_unfold, Hs. cbv zeta.
      rewrite Hnum, Hspan, Etok. reflexivity. }
    destruct (nat_of_ascii c =? 110) eqn:E1.
    { unfold literal in H. destruct (strip_prefix _ t) as [r'|] eqn:Hp; [|discriminate].
      injection H as <- <-. pose proof (strip_prefix_length _ _ _ Hp).
      split; [lia|]. intros [|f'] Hf; [lia|].
      rewrite parse_value_unfold, Hs. cbv zeta. rewrite Hnum, E1.
      unfold literal. now rewrite Hp. }
    destruct (nat_of_ascii c =? 116) eqn:E2.
    { unfold literal in H. destruct (strip_prefix _ t) as [r'|] eqn:Hp; [|discriminate].
      injection H as <- <-. pose proof (strip_prefix_length _ _ _ Hp).
      split; [lia|]. intros [|f'] Hf; [lia|].
      rewrite parse_value_unfold, Hs. cbv zeta. rewrite Hnum, E1, E2.
      unfold literal. now rewrite Hp. }
    destruct (nat_of_ascii c =? 102) eqn:E3.
    { unfold literal in H. destruct (strip_prefix _ t) as [r'|] eqn:Hp; [|discriminate].
      injection H as <- <-. pose proof (strip_prefix_length _ _ _ Hp).
      split; [lia|]. intros [|f'] Hf; [lia|].
      rewrite parse_value_unfold, Hs. cbv zeta. rewrite Hnum, E1, E2, E3.
      unfold literal. now rewrite Hp. }
    destruct (nat_of_ascii c =? 34) eqn:E4.
    { destruct (parse_chars t) as [[k r']|] eqn:Hp; [|discriminate].
      injection H as <- <-. pose proof (parse_chars_length _ _ _ Hp).
      split; [lia|]. intros [|f'] Hf; [lia|].
      rewrite parse_value_unfold, Hs. cbv zeta. rewrite Hnum, E1, E2, E3, E4.
      now rewrite Hp. }
    destruct (nat_of_ascii c =? 91) eqn:E5.
    { destruct (skip_ws t) as [|c' t'] eqn:Hs'; [discriminate|].
      pose proof (skip_ws_cons_length _ _ _ Hs') as Hlen'.
      destruct (nat_of_ascii c' =? 93) eqn:E6.
      - injection H as <- <-. split; [lia|]. intros [|f'] Hf; [lia|].
        rewrite parse_value_unfold, Hs. cbv zeta.
        rewrite Hnum, E1, E2, E3, E4, E5, Hs', E6. reflexivity.
      - destruct (parse_elements f t) as [[vs r']|] eqn:Hp; [|discriminate].
        injection H as <- <-. destruct (IHe _ _ _ Hp) as [Hr Hmore].
        split; [lia|]. intros [|f'] Hf; [lia|].
        rewrite parse_value_unfold, Hs. cbv zeta.
        rewrite Hnum, E1, E2, E3, E4, E5, Hs', E6.
        rewrite (Hmore f') by lia. reflexivity. }
    destruct (nat_of_ascii c =? 123) eqn:E7; [|discriminate].
    destruct (skip_ws t) as [|c' t'] eqn:Hs'; [discriminate|].
    pose proof (skip_ws_cons_length _ _ _ Hs') as Hlen'.
    destruct (nat_of_ascii c' =? 125) eqn:E8.
    + injection H as <- <-. split; [lia|]. intros [|f'] Hf; [lia|].
      rewrite parse_value_unfold, Hs. cbv zeta.
      rewrite Hnum, E1, E2, E3, E4, E5, E7, Hs', E8. reflexivity.
    + destruct (parse_members f t) as [[ms r']|] eqn:Hp; [|discriminate].
      injection H as <- <-. destruct (IHm _ _ _ Hp) as [Hr Hmore].
      split; [lia|]. intros [|f'] Hf; [lia|].
      rewrite parse_value_unfold, Hs. cbv zeta.
      rewrite Hnum, E1, E2, E3, E4, E5, E7, Hs', E8.
      rewrite (Hmore f') by lia. reflexivity.
  - (* elements *)
    intros s vs r H. rewrite parse_elements_unfold in H.
    destruct (parse_value f s) as [[v r1]|] eqn:Hv; [|discriminate].
    destruct (IHv _ _ _ Hv) as [Hr1 Hmore1].
    destruct (skip_ws r1) as [|c r2] eqn:Hs; [discriminate|].
    pose proof (skip_ws_cons_length _ _ _ Hs) as Hlen.
    cbv zeta in H. destruct (nat_of_ascii c =? 44) eqn:E1.
    + destruct (parse_elements f r2) as [[vs' r3]|] eqn:Hp; [|discriminate].
      injection H as <- <-. destruct (IHe _ _ _ Hp) as [Hr3 Hmore3].
      split; [lia|]. intros [|f'] Hf; [lia|].
      rewrite parse_elements_unfold, (Hmore1 f') by lia. rewrite Hs. cbv zeta.
      rewrite E1, (Hmore3 f') by lia. reflexivity.
    + destruct (nat_of_ascii c =? 93) eqn:E2; [|discriminate].
      injection H as <- <-. split; [lia|]. intros [|f'] Hf; [lia|].
      rewrite parse_elements_unfold, (Hmore1 f') by lia. rewrite Hs. cbv zeta.
      rewrite E1, E2. reflexivity.
  - (* members *)
    intros s ms r H. rewrite parse_members_unfold in H.
    destruct (skip_ws s) as [|q t] eqn:Hs; [discriminate|].
    pose proof (skip_ws_cons_length _ _ _ Hs) as Hlen.
    destruct (nat_of_ascii q =? 34) eqn:E0; [|discriminate].
    destruct (parse_chars t) as [[key r1]|] eqn:Hk; [|discriminate].
    pose proof (parse_chars_length _ _ _ Hk) as Hlen1.
    destruct (skip_ws r1) as [|colon r2] eqn:Hs1; [discriminate|].
    pose proof (skip_ws_cons_length _ _ _ Hs1) as Hlen2.
    destruct (nat_of_ascii colon =? 58) eqn:E1; [|discriminate].
    destruct (parse_value f r2) as [[v r3]|] eqn:Hv; [|discriminate].
    destruct (IHv _ _ _ Hv) as [Hr3 Hmore3].
    destruct (skip_ws r3) as [|c r4] eqn:Hs3; [discriminate|].
    pose proof (skip_ws_cons_length _ _ _ Hs3) as Hlen4.
    cbv zeta in H. destruct (nat_of_ascii c =? 44) eqn:E2.
    + destruct (parse_members f r4) as [[ms' r5]|] eqn:Hp; [|discriminate].
      injection H as <- <-. destruct (IHm _ _ _ Hp) as [Hr5 Hmore5].
      split; [lia|]. intros [|f'] Hf; [lia|].
      rewrite parse_members_unfold, Hs, E0, Hk, Hs1, E1.
      rewrite (Hmore3 f') by lia. rewrite Hs3. cbv zeta.
      rewrite E2, (Hmore5 f') by lia. reflexivity.
    + destruct (nat_of_ascii c =? 125) eqn:E3; [|discriminate].
      injection H as <- <-. split; [lia|]. intros [|f'] Hf; [lia|].
      rewrite parse_members_unfold, Hs, E0, Hk, Hs1, E1.
      rewrite (Hmore3 f') by lia. rewrite Hs3. cbv zeta.
      rewrite E2, E3. reflexivity.
Qed.

(** The fuel [JSON_parse] gives is enough: a text that some amount of fuel
    parses is parsed by [JSON_parse] to the same value. *)
Theorem JSON_parse_fuel (s : string) (f : nat) (v : JSValue) (r : text) :
  parse_value f (chars s) = Some (v, r) ->
  parse_value (S (length (chars s))) (chars s) = Some (v, r).
Proof.
  intro H. destruct (parse_fuel f) as (Hv & _).
  destruct (Hv _ _ _ H) as [_ Hmore]. apply Hmore. lia.
Qed.

Corollary JSON_parse_complete (s : string) (f : nat) (v : JSValue) (r : text) :
  parse_value f (chars s) = Some (v, r) -> skip_ws r = [] ->
  JSON_parse s = Some v.
Proof.
  intros H Hr. unfold JSON_parse. rewrite (JSON_parse_fuel s f v r H), Hr.
  reflexivity.
Qed.

(* ================================================================== *)
(** * The backfill dispatcher *)
(* ================================================================== *)

Section Dispatch.
Variable svc : Services.
Variable queueUrl : string.
Hypothesis Haccepts : queue_accepts svc queueUrl.

Lemma sendMessagesToQueue_accepted (batch : list Entry) (w : World) :
  Helpers.sendMessagesToQueue svc batch w =
  (Ok tt, enqueue batch (record_call (SendMessageBatch queueUrl batch) w)).
Proof.
  destruct Haccepts as [Henv Hsqs].
  unfold Helpers.sendMessagesToQueue, bind, lift. rewrite Henv, Hsqs.
  reflexivity.
Qed.

Lemma firstn_app_exact {A} (l l' : list A) (m : nat) :
  firstn (length l + m) (l ++ l') = l ++ firstn m l'.
Proof. induction l; simpl; [reflexivity | now rewrite IHl]. Qed.

Lemma entriesFor_firstn (m u : nat) (documents : list Document) :
  entriesFor svc u (firstn m documents) = firstn m (entriesFor svc u documents).
Proof.
  revert u documents. induction m as [|m IH]; intros u [|d ds]; simpl;
    try reflexivity. now rewrite IH.
Qed.

Lemma sendLoop_spec (n : nat) (documents : list Document) :
  0 < n ->
  forall sentCount batch w,
    length batch < n ->
    exists batches w',
      Backfill.sendLoop svc documents (Z.of_nat n) sentCount batch w
      = (Ok (sentCount + n * ((length batch + length documents) / n)), w') /\
      length batches = (length batch + length documents) / n /\
      Forall (fun b => length b = n) batches /\
      concat batches =
        firstn (n * ((length batch + length documents) / n))
               (batch ++ entriesFor svc (uuids w) documents) /\
      calls w' = calls w ++ map (SendMessageBatch queueUrl) batches /\
      queue w' = queue w ++ concat batches /\
      collection w' = collection w.
Proof.
  intro Hn. induction documents as [|document rest IH]; intros sentCount batch w Hb.
  - exists [], w. cbn [length Backfill.sendLoop]. rewrite Nat.add_0_r.
    rewrite Nat.div_small by exact Hb. rewrite Nat.mul_0_r, Nat.add_0_r.
    cbn [map concat firstn length]. rewrite !app_nil_r. repeat split; constructor.
  - cbn [Backfill.sendLoop]. unfold bind at 1. unfold Backfill.randomUUID at 1.
    unfold bind at 1. unfold Backfill.randomUUID at 1.
    set (e := {| Id := uuid svc (uuids w);
                 MessageBody := JSON_stringify
                   (Backfill.changeEvent (uuid svc (uuids (draw_uuid w))) document) |}).
    set (w2 := draw_uuid (draw_uuid w)).
    assert (Hlen : length (batch ++ [e]) = S (length batch))
      by (rewrite length_app; simpl; lia).
    destruct (Z.of_nat (length (batch ++ [e])) =? Z.of_nat n)%Z eqn:E.
    + apply Z.eqb_eq in E. apply Nat2Z.inj in E.
      unfold bind at 1. rewrite sendMessagesToQueue_accepted.
      set (w3 := enqueue _ _).
      destruct (IH (sentCount + length (batch ++ [e])) [] w3 Hn)
        as (batches & w' & Hrun & Hcount & Hall & Hcat & Hcalls & Hqueue & Hcoll).
      exists ((batch ++ [e]) :: batches), w'.
      assert (Hq : (length batch + length (document :: rest)) / n
                   = S (length rest / n)).
      { cbn [length]. replace (length batch + S (length rest))
          with (1 * n + length rest) by lia.
        rewrite Nat.div_add_l by lia. lia. }
      rewrite Hq. cbn [length app Nat.add] in Hrun, Hcount, Hcat.
      repeat split.
      * rewrite Hrun. f_equal. f_equal. rewrite E, Nat.mul_succ_r. lia.
      * cbn [length]. now rewrite Hcount.
      * constructor; [exact E | exact Hall].
      * cbn [concat]. rewrite Hcat.
        replace (n * S (length rest / n))
          with (length (batch ++ [e]) + n * (length rest / n))
          by (rewrite E, Nat.mul_succ_r; lia).
        rewrite <- firstn_app_exact. cbn [entriesFor].
        rewrite <- app_assoc. reflexivity.
      * rewrite Hcalls. subst w3 w2. cbn [calls enqueue record_call draw_uuid map].
        now rewrite <- app_assoc.
      * rewrite Hqueue. subst w3 w2. cbn [queue enqueue record_call draw_uuid concat].
        now rewrite <- app_assoc.
      * rewrite Hcoll. reflexivity.
    + apply Z.eqb_neq in E.
      assert (Hb' : length (batch ++ [e]) < n) by (rewrite Hlen in *; lia).
      destruct (IH sentCount (batch ++ [e]) w2 Hb')
        as (batches & w' & Hrun & Hcount & Hall & Hcat & Hcalls & Hqueue & Hcoll).
      exists batches, w'.
      assert (Hsum : length (batch ++ [e]) + length rest
                     = length batch + length (document :: rest))
        by (rewrite Hlen; simpl; lia).
      rewrite Hsum in *.
      repeat split; try assumption.
      rewrite Hcat. cbn [entriesFor]. rewrite <- app_assoc. reflexivity.
Qed.

End Dispatch.

(** C1. With a queue gateway that accepts every batch and a batch size
    [B >= 1], [sendToQueueInBatches] on [N] documents sends exactly
    [N / B] batches, each of exactly [B] entries; the batches are, in
    order, the entries of the first [B * (N / B)] documents, so the
    trailing [N mod B] documents are not sent; the queue receives exactly
    these [B * (N / B)] messages and that number is returned. *)
Theorem dispatch_sends_full_batches
  (svc : Services) (queueUrl : string) (documents : list Document)
  (batchSize : Z) (w : World) :
  queue_accepts svc queueUrl -> (0 < batchSize)%Z ->
  let B := Z.to_nat batchSize in
  let N := length documents in
  exists batches w',
    Backfill.sendToQueueInBatches svc documents batchSize w
      = (Ok (B * (N / B)), w') /\
    length batches = N / B /\
    Forall (fun b => length b = B) batches /\
    concat batches = entriesFor svc (uuids w) (firstn (B * (N / B)) documents) /\
    calls w' = calls w ++ map (SendMessageBatch queueUrl) batches /\
    queue w' = queue w ++ concat batches /\
    length (queue w') = length (queue w) + B * (N / B) /\
    length (skipn (B * (N / B)) documents) = N mod B.
Proof.
  intros Hacc Hpos B N.
  assert (HB : 0 < B) by (subst B; lia).
  destruct (sendLoop_spec svc queueUrl Hacc B documents HB 0 [] w HB)
    as (batches & w' & Hrun & Hcount & Hall & Hcat & Hcalls & Hqueue & _).
  cbn [length app Nat.add] in *.
  exists batches, w'. unfold Backfill.sendToQueueInBatches.
  replace batchSize with (Z.of_nat B) by (subst B; lia).
  fold N in Hrun, Hcount, Hcat.
  assert (Hle : B * (N / B) <= N) by (apply Nat.Div0.mul_div_le).
  repeat split; try assumption.
  - now rewrite entriesFor_firstn.
  - rewrite Hqueue, length_app, Hcat, length_firstn.
    assert (length (entriesFor svc (uuids w) documents) = N).
    { subst N. clear. generalize (uuids w).
      induction documents; intros; simpl; auto. }
    lia.
  - rewrite length_skipn. fold N.
    pose proof (Nat.div_mod_eq N B). lia.
Qed.

(* ================================================================== *)
(** * The collection gateway *)
(* ================================================================== *)

Lemma getMongoCollection_inv (svc : Services) (w w1 : World) (o : Outcome unit) :
  Helpers.getMongoCollection svc w = (o, w1) ->
  collection w1 = collection w /\ queue w1 = queue w /\ uuids w1 = uuids w /\
  (exists later, calls w1 = calls w ++ later /\
                 forallb (fun c => negb (is_aggregate c)) later = true) /\
  (o = Ok tt -> mongoClient w1 = true).
Proof.
  unfold Helpers.getMongoCollection. intro H.
  destruct (mongoClient w) eqn:Hc.
  - injection H as <- <-. repeat split; auto.
    exists []. now rewrite app_nil_r.
  - destruct (Helpers.getStringFromEnv svc _) as [name|e].
    + assert (Hlater : exists later,
                calls (record_call (GetSecret name) w) = calls w ++ later /\
                forallb (fun c => negb (is_aggregate c)) later = true)
        by (exists [GetSecret name]; split; reflexivity).
      destruct (getSecret svc (clock w) name); injection H as <- <-;
        repeat split; try exact Hlater; try discriminate; reflexivity.
    + injection H as <- <-. repeat split; auto; try discriminate.
      exists []. now rewrite app_nil_r.
Qed.

Lemma getMongoCollection_connected (svc : Services) (w : World) :
  mongoClient w = true -> Helpers.getMongoCollection svc w = (Ok tt, w).
Proof. intro H. unfold Helpers.getMongoCollection. now rewrite H. Qed.

Lemma firstn_filter_incl {A} (f : A -> bool) (m : nat) (l : list A) (x : A) :
  In x (firstn m (filter f l)) -> In x l /\ f x = true.
Proof.
  intro H. assert (Hin : In x (filter f l)).
  { rewrite <- (firstn_skipn m (filter f l)). apply in_or_app. now left. }
  now apply filter_In in Hin.
Qed.

(** C9. For a reachable store and a positive limit, [readDocuments]
    returns the first [limit] documents of the collection that have the
    text field and lack the vector field: only such documents, never one
    that has the vector field, at most [limit] of them, and every such
    document when there are no more than [limit]; the limit is 50 when no
    count is given. *)
Theorem readDocuments_selects_candidates
  (svc : Services) (limit : Z) (w w1 : World) :
  (0 < limit)%Z ->
  Helpers.getMongoCollection svc w = (Ok tt, w1) ->
  storeFault svc (clock w1) = None ->
  exists documents,
    Backfill.readDocuments svc (Int limit) w
      = (Ok documents, record_call (Find (Int limit)) w1) /\
    documents = firstn (Z.to_nat limit) (filter is_candidate (collection w)) /\
    (forall d, In d documents ->
       In d (collection w) /\
       has_field "plot" d = true /\ has_field "plot_embedding" d = false) /\
    (forall d, has_field "plot_embedding" d = true -> ~ In d documents) /\
    (Z.of_nat (length documents) <= limit)%Z /\
    (length (filter is_candidate (collection w)) <= Z.to_nat limit ->
     forall d, In d (collection w) ->
       has_field "plot" d = true -> has_field "plot_embedding" d = false ->
       In d documents) /\
    Backfill.limitOfCount None = Int 50.
Proof.
  intros Hpos Hconn Hfault.
  destruct (getMongoCollection_inv _ _ _ _ Hconn) as (Hcoll & _).
  exists (firstn (Z.to_nat limit) (filter is_candidate (collection w))).
  assert (Hcand : forall d,
            In d (firstn (Z.to_nat limit) (filter is_candidate (collection w))) ->
            In d (collection w) /\
            has_field "plot" d = true /\ has_field "plot_embedding" d = false).
  { intros d Hd. apply firstn_filter_incl in Hd as [Hin Hc].
    unfold is_candidate in Hc. apply andb_true_iff in Hc as [H1 H2].
    apply negb_true_iff in H2. auto. }
  repeat split.
  - unfold Backfill.readDocuments, bind. rewrite Hconn.
    unfold Mongo.find_candidates, ret. rewrite Hfault, Hcoll.
    unfold apply_limit. replace (limit =? 0)%Z with false by lia.
    replace (Z.abs_nat limit) with (Z.to_nat limit) by lia. reflexivity.
  - now apply Hcand.
  - now apply Hcand.
  - now apply Hcand.
  - intros d Hv Hin. apply Hcand in Hin as (_ & _ & Hno). congruence.
  - rewrite length_firstn. lia.
  - intros Hfew d Hin Hp Hv. rewrite firstn_all2 by exact Hfew.
    apply filter_In. split; [exact Hin|]. unfold is_candidate.
    now rewrite Hp, Hv.
Qed.

(** ** The count parameter *)

Lemma sendLoop_calls (svc : Services) (documents : list Document) (batchSize : Z) :
  forall sentCount batch w o w',
    Backfill.sendLoop svc documents batchSize sentCount batch w = (o, w') ->
    exists later, calls w' = calls w ++ later.
Proof.
  induction documents as [|document rest IH]; intros sentCount batch w o w' H.
  - injection H as <- <-. exists []. now rewrite app_nil_r.
  - cbn [Backfill.sendLoop] in H. unfold bind at 1 in H.
    unfold Backfill.randomUUID at 1 in H. unfold bind at 1 in H.
    unfold Backfill.randomUUID at 1 in H.
    match type of H with
    | (if ?c then _ else _) _ = _ => destruct c
    end.
    + unfold bind at 1 in H.
      destruct (Helpers.sendMessagesToQueue svc _ _) as [[[]|e] w3] eqn:Hs.
      * apply IH in H as [later Hl].
        unfold Helpers.sendMessagesToQueue, bind, lift in Hs.
        destruct (Helpers.getStringFromEnv svc _); [|discriminate].
        destruct (sqs svc _ _ _); [discriminate|]. injection Hs as <-.
        rewrite Hl. cbn [calls enqueue record_call draw_uuid].
        eexists. rewrite <- app_assoc. reflexivity.
      * injection H as <- <-.
        unfold Helpers.sendMessagesToQueue, bind, lift in Hs.
        destruct (Helpers.getStringFromEnv svc _).
        -- destruct (sqs svc _ _ _); [|discriminate]. injection Hs as <- <-.
           cbn [calls enqueue record_call draw_uuid]. eexists. reflexivity.
        -- injection Hs as <- <-. exists []. cbn. now rewrite app_nil_r.
    + apply IH in H as [later Hl]. rewrite Hl. now exists later.
Qed.

(** C10. The backfill handler does not validate [count]: a non-empty
    count gives the limit [parseInt(count)], also when that is [NaN] (as
    for ["abc"]), 0 (for which the collection applies no limit), negative,
    or a number that [parseInt] had to round to a double (as for 2^53 + 1);
    50 is used when the count is absent or empty; and with working services
    the request [find().limit(...)] is made with that limit and the answer
    is a 200, whatever the count. *)
Theorem count_is_passed_unvalidated
  (svc : Services) (queueUrl : string) (event : APIGatewayEvent.t) (w w1 : World) :
  queue_accepts svc queueUrl ->
  (forall t, storeFault svc t = None) ->
  (forall limit documents, succeeded (limitNonFinite svc limit documents) = true) ->
  Helpers.getMongoCollection svc w = (Ok tt, w1) ->
  let count :=
    match APIGatewayEvent.queryStringParameters event with
    | Some ps => lookup_param "count" ps
    | None => None
    end in
  (forall c, count = Some c -> c <> "" -> Backfill.limitOfCount count = parseInt c) /\
  (count = None \/ count = Some "" -> Backfill.limitOfCount count = Int 50) /\
  parseInt "abc" = NaN /\
  parseInt "0" = Int 0 /\
  parseInt "-5" = Int (-5) /\
  parseInt "9007199254740993" = Int 9007199254740992 /\
  (forall documents, apply_limit 0 documents = documents) /\
  exists response w' later,
    Backfill.handler svc event w = (Ok response, w') /\
    HttpResponse.statusCode response = 200%Z /\
    calls w' = calls w1 ++ Find (Backfill.limitOfCount count) :: later.
Proof.
  intros Hacc Hfault Hnan Hconn count.
  split; [|split; [|split; [|split; [|split; [|split; [|split]]]]]].
  3, 4, 5, 6: vm_compute; reflexivity.
  3: reflexivity.
  - intros c -> Hc. unfold Backfill.limitOfCount.
    destruct (String.eqb c "") eqn:E; [|reflexivity].
    apply String.eqb_eq in E. contradiction.
  - intros [-> | ->]; reflexivity.
  - unfold Backfill.handler. fold count.
    unfold try_catch, bind at 1. unfold Backfill.readDocuments, bind at 1.
    rewrite Hconn. unfold bind at 1. unfold Mongo.find_candidates.
    rewrite Hfault.
    set (limit := Backfill.limitOfCount count).
    set (matching := filter is_candidate (collection w1)).
    assert (Hread : exists documents,
              match limit with
              | Int n => (Ok (apply_limit n matching), record_call (Find limit) w1)
              | NaN | Infinity _ =>
                  (limitNonFinite svc limit matching, record_call (Find limit) w1)
              end = (Ok documents, record_call (Find limit) w1)).
    { destruct limit as [|n|negative] eqn:Elimit; [|eauto|];
        match goal with
        | |- context [limitNonFinite svc ?l matching] =>
            specialize (Hnan l matching);
            destruct (limitNonFinite svc l matching); [eauto|discriminate]
        end. }
    destruct Hread as [documents ->]. unfold ret at 1.
    unfold bind at 1. unfold Backfill.sendToQueueInBatches, Backfill.defaultBatchSize.
    destruct (sendLoop_spec svc queueUrl Hacc 10 documents ltac:(lia) 0 []
                (record_call (Find limit) w1) ltac:(simpl; lia))
      as (batches & w' & Hrun & _ & _ & _ & Hcalls & _).
    change (Z.of_nat 10) with 10%Z in Hrun. rewrite Hrun. unfold ret.
    eexists _, w', _. repeat split.
    rewrite Hcalls. cbn [calls record_call]. rewrite <- app_assoc. reflexivity.
Qed.

(* ================================================================== *)
(** * The queue consumer *)
(* ================================================================== *)

Section Consumer.
Variable svc : Services.
Variable consts : Constants.


Lemma createEmbedding_unfold (inputText : JSValue) (w : World) :
  Helpers.createEmbedding svc consts inputText w =
  (embedding_of_reply
     (bedrock svc (clock w) (BEDROCK_MODEL_ID consts)
        (Helpers.embedding_request inputText)),
   record_call (InvokeModel (BEDROCK_MODEL_ID consts)
                  (Helpers.embedding_request inputText)) w).
Proof.
  unfold Helpers.createEmbedding, try_catch, bind at 1, Helpers.invokeModel.
  unfold embedding_of_reply.
  destruct (bedrock svc _ _ _) as [e|status body]; [reflexivity|].
  destruct (negb (Helpers.status_is 200 status)); [reflexivity|].
  destruct body as [b|]; [|reflexivity].
  unfold bind, lift, ret, JSON_parse_or_throw.
  destruct (JSON_parse b) as [parsed|]; [|reflexivity].
  destruct (destructure "embedding" parsed); reflexivity.
Qed.

Lemma writeEmbedding_unfold (id : JSValue) (fullDocument : Document) (w : World) :
  Embed.writeEmbedding svc id fullDocument w =
  match Helpers.getMongoCollection svc w with
  | (Throw e, w1) => (Throw e, w1)
  | (Ok _, w1) =>
      match new_ObjectId id with
      | Throw e => (Throw e, w1)
      | Ok oid =>
          match Mongo.replaceOne svc oid fullDocument w1 with
          | (Throw e, w2) => (Throw e, w2)
          | (Ok modifiedCount, w2) =>
              if modifiedCount =? 1 then (Ok tt, w2)
              else (Throw (Err "Unable to update document"), w2)
          end
      end
  end.
Proof.
  unfold Embed.writeEmbedding, bind at 1.
  destruct (Helpers.getMongoCollection svc w) as [[[]|e] w1]; [|reflexivity].
  unfold bind at 1, lift.
  destruct (new_ObjectId id) as [oid|e]; [|reflexivity].
  unfold bind.
  destruct (Mongo.replaceOne svc oid fullDocument w1) as [[m|e] w2]; [|reflexivity].
  destruct (m =? 1); reflexivity.
Qed.

Lemma recordHandler_unfold (record : SQSRecord.t) (ctx : Context) (w : World) :
  Embed.recordHandler svc consts record ctx w =
  if (getRemainingTimeInMillis ctx (clock w) <? Embed.timeThreshold)%Z then
    (Throw (Err "Time is about to expire, stopping processing"), w)
  else
    match Embed.extractEvent (SQSRecord.body record) with
    | Throw e => (Throw e, w)
    | Ok (id, document) =>
        match Helpers.createEmbedding svc consts (js_get "plot" (VObj document)) w with
        | (Throw e, wa) => (Throw (ErrCause "Unble to create embedding" e), wa)
        | (Ok embedding, wa) =>
            match Embed.writeEmbedding svc id
                    (js_set "plot_embedding" embedding document) wa with
            | (Throw e, wb) => (Throw (ErrCause "Unable to write embedding" e), wb)
            | (Ok u, wb) => (Ok u, wb)
            end
        end
    end.
Proof.
  unfold Embed.recordHandler, try_catch at 1.
  destruct (getRemainingTimeInMillis ctx (clock w) <? Embed.timeThreshold)%Z;
    [reflexivity|].
  unfold bind at 1, lift.
  destruct (Embed.extractEvent (SQSRecord.body record)) as [[id document]|e];
    [|reflexivity].
  unfold bind at 1, try_catch at 1, Helpers.getEmbedding.
  destruct (Helpers.createEmbedding svc consts _ w) as [[embedding|e] wa];
    [|reflexivity].
  unfold try_catch.
  destruct (Embed.writeEmbedding svc id _ wa) as [[u|e] wb]; reflexivity.
Qed.

Lemma replaceOne_inv (oid : option string) (replacement : Document)
  (w w' : World) (o : Outcome nat) :
  Mongo.replaceOne svc oid replacement w = (o, w') ->
  queue w' = queue w /\ mongoClient w' = mongoClient w /\
  (o <> Ok 1 -> collection w' = collection w) /\
  (o = Ok 1 ->
     exists hex docs,
       oid = Some hex /\ storeFault svc (clock w) = None /\
       replace_by_id hex (js_omit "_id" (bson_document replacement)) (collection w)
         = Some docs /\
       w' = set_collection docs
              (record_call (ReplaceOne oid replacement (Some 1)) w)).
Proof.
  unfold Mongo.replaceOne. intro H.
  destruct (storeFault svc (clock w)) as [e|].
  { injection H as <- <-. repeat split; auto; discriminate. }
  destruct oid as [hex|].
  - destruct (replace_by_id hex _ (collection w)) as [docs|] eqn:E;
      injection H as <- <-; repeat split; auto; try congruence.
    intros _. exists hex, docs. auto.
  - injection H as <- <-. repeat split; auto; discriminate.
Qed.



End Consumer.

(** C4. When less than 1000 ms remain, [recordHandler] fails the record
    at once with the time error and leaves the world as it was: no request
    to the embedding model, none to the collection, and the same outcome
    whatever the record holds, so that its body is never parsed. *)
Theorem time_guard_fails_before_any_work
  (svc : Services) (consts : Constants) (record : SQSRecord.t)
  (ctx : Context) (w : World) :
  (getRemainingTimeInMillis ctx (clock w) < 1000)%Z ->
  Embed.recordHandler svc consts record ctx w
    = (Throw (Err "Time is about to expire, stopping processing"), w) /\
  forall other : SQSRecord.t,
    Embed.recordHandler svc consts other ctx w
    = Embed.recordHandler svc consts record ctx w.
Proof.
  intro Hlow. rewrite !recordHandler_unfold. unfold Embed.timeThreshold.
  replace (getRemainingTimeInMillis ctx (clock w) <? 1000)%Z with true by lia.
  split; [reflexivity|]. intro other. rewrite recordHandler_unfold.
  unfold Embed.timeThreshold.
  replace (getRemainingTimeInMillis ctx (clock w) <? 1000)%Z with true by lia.
  reflexivity.
Qed.




(** ** Processing an event twice *)

Lemma replace_by_id_again (hex : string) (replacement : Document)
  (docs docs' : list Document) :
  replace_by_id hex replacement docs = Some docs' ->
  replace_by_id hex replacement docs' = Some docs'.
Proof.
  revert docs'. induction docs as [|d r IH]; intros docs' H; [discriminate|].
  cbn [replace_by_id] in H. destruct (has_id hex d) eqn:Hd.
  - injection H as <-. cbn [replace_by_id].
    unfold has_id. cbn [assoc]. rewrite !String.eqb_refl. reflexivity.
  - destruct (replace_by_id hex replacement r) as [r'|]; [|discriminate].
    injection H as <-. cbn [replace_by_id]. rewrite Hd.
    now rewrite (IH r' eq_refl).
Qed.

Lemma replace_by_id_stored (hex : string) (replacement : Document)
  (docs docs' : list Document) :
  replace_by_id hex replacement docs = Some docs' ->
  In (("_id", VObjectId hex) :: replacement) docs'.
Proof.
  revert docs'. induction docs as [|d r IH]; intros docs' H; [discriminate|].
  cbn [replace_by_id] in H. destruct (has_id hex d).
  - injection H as <-. now left.
  - destruct (replace_by_id hex replacement r) as [r'|]; [|discriminate].
    injection H as <-. right. now apply IH.
Qed.

Lemma last_call_snoc (c : Call) (l : list Call) :
  last (map Some (l ++ [c])) None = Some c.
Proof. rewrite map_app. apply last_last. Qed.

Lemma assoc_js_set (key : string) (v : JSValue) (d : Document) :
  assoc key (js_set key v d) = Some v.
Proof.
  induction d as [|[k' v'] d IH]; cbn [js_set assoc].
  - now rewrite String.eqb_refl.
  - destruct (String.eqb key k') eqn:E; cbn [assoc]; rewrite E; auto.
Qed.

(** C3. When an event was processed with success, processing the same
    event again (time remaining, the model answering as before, the store
    reachable) succeeds as well: the same replacement is written under the
    same key, the store reports one modified document on both applies, and
    the stored documents, so the stored vector, are the same after the
    second apply as after the first. *)
Theorem reprocessing_is_idempotent
  (svc : Services) (consts : Constants) (record : SQSRecord.t)
  (ctx : Context) (w w1 : World) :
  Embed.recordHandler svc consts record ctx w = (Ok tt, w1) ->
  (1000 <= getRemainingTimeInMillis ctx (clock w1))%Z ->
  (forall request,
     bedrock svc (clock w1) (BEDROCK_MODEL_ID consts) request
     = bedrock svc (clock w) (BEDROCK_MODEL_ID consts) request) ->
  storeFault svc (S (clock w1)) = None ->
  exists w2 hex replacement embedding,
    Embed.recordHandler svc consts record ctx w1 = (Ok tt, w2) /\
    collection w2 = collection w1 /\
    last_call w1 = Some (ReplaceOne (Some hex) replacement (Some 1)) /\
    last_call w2 = Some (ReplaceOne (Some hex) replacement (Some 1)) /\
    assoc "plot_embedding" replacement = Some embedding /\
    In (("_id", VObjectId hex) :: js_omit "_id" (bson_document replacement))
       (collection w1).
Proof.
  intros Hfirst Htime Hmodel Hstore.
  rewrite recordHandler_unfold in Hfirst. rewrite recordHandler_unfold.
  unfold Embed.timeThreshold in *.
  destruct (_ <? 1000)%Z; [discriminate|].
  replace (getRemainingTimeInMillis ctx (clock w1) <? 1000)%Z with false by lia.
  destruct (Embed.extractEvent _) as [[id document]|e]; [|discriminate].
  rewrite createEmbedding_unfold in Hfirst. rewrite createEmbedding_unfold.
  rewrite Hmodel.
  destruct (embedding_of_reply _) as [embedding|e]; [|discriminate].
  set (replacement := js_set "plot_embedding" embedding document) in *.
  set (request := InvokeModel _ _) in *.
  rewrite writeEmbedding_unfold in Hfirst. rewrite writeEmbedding_unfold.
  destruct (Helpers.getMongoCollection svc (record_call request w))
    as [[[]|e] wb] eqn:Hconn; [|discriminate].
  apply getMongoCollection_inv in Hconn as (_ & _ & _ & _ & Hclient).
  specialize (Hclient eq_refl).
  destruct (new_ObjectId id) as [oid|e]; [|discriminate].
  destruct (Mongo.replaceOne svc oid replacement wb) as [[m|e] wc] eqn:Hrep;
    [|discriminate].
  destruct (m =? 1) eqn:Em; [|discriminate].
  apply Nat.eqb_eq in Em. subst m. injection Hfirst as ->.
  apply replaceOne_inv in Hrep as (_ & Hmc & _ & Hone).
  destruct (Hone eq_refl) as (hex & docs & -> & _ & Hdocs & ->).
  assert (Hclient1 : mongoClient
            (record_call request
               (set_collection docs
                  (record_call (ReplaceOne (Some hex) replacement (Some 1)) wb)))
            = true) by exact Hclient.
  rewrite (getMongoCollection_connected _ _ Hclient1).
  unfold Mongo.replaceOne.
  replace (clock (record_call request _)) with
    (S (clock (set_collection docs
                 (record_call (ReplaceOne (Some hex) replacement (Some 1)) wb))))
    by (unfold clock; cbn [calls record_call set_collection];
        rewrite !length_app; simpl; lia).
  rewrite Hstore. cbn [collection record_call set_collection].
  rewrite (replace_by_id_again _ _ _ _ Hdocs). cbn [Nat.eqb].
  eexists _, hex, replacement, embedding. split; [reflexivity|].
  repeat split.
  - unfold last_call. cbn [calls record_call set_collection]. apply last_call_snoc.
  - unfold last_call. cbn [calls record_call set_collection]. apply last_call_snoc.
  - apply assoc_js_set.
  - eapply replace_by_id_stored; eauto.
Qed.

(* ================================================================== *)
(** * The message format *)
(* ================================================================== *)

Theorem JSON_roundtrip (v : JSValue) :
  unique_keys v = true -> v <> VUndefined ->
  JSON_parse (JSON_stringify v) = Some (to_json v).
Proof.
  intros Hu Hv. unfold JSON_stringify, JSON_parse.
  destruct (serialize v) as [t|] eqn:E.
  - rewrite chars_str.
    pose proof (serialize_parse v Hu t E (S (length t)) []) as H.
    rewrite app_nil_r in H. rewrite H by (auto; reflexivity). reflexivity.
  - apply serialize_none in E. contradiction.
Qed.

Lemma to_json_id (v : JSValue) : is_json v = true -> to_json v = v.
Proof.
  induction v as [| |b|lit|s|items IH|props IH|h|d] using JSValue_ind';
    cbn [is_json to_json]; intro H; try discriminate; try reflexivity.
  - now rewrite H.
  - f_equal. induction items as [|x items IHl]; [reflexivity|].
    cbn [forallb] in H. apply andb_true_iff in H as [Hx Hl].
    inversion IH as [|? ? IHx IHitems]; subst.
    cbn [map]. rewrite (IHx Hx), (IHl IHitems Hl). reflexivity.
  - f_equal. induction props as [|[key x] props IHl]; [reflexivity|].
    cbn [forallb snd] in H. apply andb_true_iff in H as [Hx Hl].
    inversion IH as [|? ? IHx IHprops]; subst. cbn [snd] in IHx.
    cbn [flat_map fst snd]. rewrite (IHl IHprops Hl), (IHx Hx).
    destruct x; try reflexivity. discriminate Hx.
Qed.

Lemma to_json_fields_omit (key : string) (d : Document) :
  forallb (fun kv => is_json (snd kv)) (js_omit key d) = true ->
  js_omit key
    (flat_map (fun kv => match snd kv with
                         | VUndefined => []
                         | _ => [(fst kv, to_json (snd kv))]
                         end) d)
  = js_omit key d.
Proof.
  unfold js_omit. induction d as [|[k' x] d IH]; [reflexivity|].
  cbn [flat_map filter fst snd]. rewrite filter_app.
  destruct (negb (String.eqb key k')) eqn:E.
  - cbn [forallb snd]. intro H. apply andb_true_iff in H as [Hx Hd].
    rewrite (IH Hd).
    replace (match x with VUndefined => [] | _ => [(k', to_json x)] end)
      with [(k', x)]
      by (rewrite (to_json_id x Hx); destruct x; try reflexivity; discriminate Hx).
    cbn [filter fst]. rewrite E. reflexivity.
  - intro H. rewrite (IH H).
    destruct x; cbn [filter fst]; rewrite ?E; reflexivity.
Qed.

Lemma unique_keys_field (key : string) (d : Document) :
  unique_keys (VObj d) = true -> unique_keys (js_get key (VObj d)) = true.
Proof.
  cbn [unique_keys js_get]. intro H. apply andb_true_iff in H as [_ H].
  induction d as [|[k' x] d IH]; [reflexivity|].
  cbn [forallb snd] in H. apply andb_true_iff in H as [Hx Hd].
  cbn [assoc]. destruct (String.eqb key k'); [exact Hx | now apply IH].
Qed.

Lemma changeEvent_unique_keys (id : string) (document : Document) :
  unique_keys (VObj document) = true ->
  unique_keys (Backfill.changeEvent id document) = true.
Proof.
  intro H. pose proof (unique_keys_field "_id" document H) as Hid.
  unfold Backfill.changeEvent.
  cbn [unique_keys map fst snd forallb distinct mem_string existsb] in *.
  rewrite H, Hid. reflexivity.
Qed.

(** What the consumer reads from a message of the dispatcher, for any
    document: the JSON forms of the key and of the fields. *)
Lemma extractEvent_changeEvent (id : string) (document : Document) :
  unique_keys (VObj document) = true ->
  Embed.extractEvent (JSON_stringify (Backfill.changeEvent id document))
  = Embed.extractDetail
      (VObj [("operationType", VStr "update");
             ("fullDocument", to_json (VObj document));
             ("documentKey", to_json (VObj [("_id", js_get "_id" (VObj document))]))]).
Proof.
  intro Hu. unfold Embed.extractEvent, Embed.parseBody, JSON_parse_or_throw.
  rewrite JSON_roundtrip by (auto using changeEvent_unique_keys; discriminate).
  reflexivity.
Qed.

Lemma lower_hex_id (hex : string) :
  is_object_id_hex hex = true -> new_ObjectId (VStr hex) = Ok (Some hex).
Proof.
  unfold is_object_id_hex, new_ObjectId. intro H.
  apply andb_true_iff in H as [H1 H2]. rewrite H1.
  apply String.eqb_eq in H2. now rewrite H2.
Qed.

(** C5 (as amended). For a document whose key is an [ObjectId] and whose
    other fields are JSON values, the consumer reads from the dispatcher's
    message the key in its hexadecimal form, from which [new ObjectId]
    makes the key itself, and exactly the other fields of the document, in
    order.  Any other record whose payload has the same [detail] is handled
    in the same way. *)
Theorem dispatched_message_round_trips
  (id hex : string) (document : Document) :
  unique_keys (VObj document) = true ->
  assoc "_id" document = Some (VObjectId hex) ->
  is_object_id_hex hex = true ->
  forallb (fun kv => is_json (snd kv)) (js_omit "_id" document) = true ->
  let message := JSON_stringify (Backfill.changeEvent id document) in
  Embed.extractEvent message = Ok (VStr hex, js_omit "_id" document) /\
  new_ObjectId (VStr hex) = Ok (Some hex) /\
  forall body payload,
    JSON_parse body = Some payload ->
    (exists envelope, JSON_parse message = Some envelope /\
                      js_get "detail" payload = js_get "detail" envelope) ->
    forall svc consts messageId messageId' ctx w,
      Embed.recordHandler svc consts
        {| SQSRecord.messageId := messageId'; SQSRecord.body := body |} ctx w
      = Embed.recordHandler svc consts
          {| SQSRecord.messageId := messageId; SQSRecord.body := message |} ctx w.
Proof.
  intros Hu Hid Hhex Hjson message.
  assert (Hmsg : Embed.extractEvent message = Ok (VStr hex, js_omit "_id" document)).
  { subst message. rewrite extractEvent_changeEvent by exact Hu.
    unfold Embed.extractDetail. cbn [js_get]. rewrite Hid.
    cbn [to_json flat_map fst snd app destructure js_get assoc String.eqb
         Ascii.eqb Bool.eqb Embed.obind Embed.rest_without].
    rewrite to_json_fields_omit by exact Hjson. reflexivity. }
  split; [exact Hmsg|]. split; [now apply lower_hex_id|].
  intros body payload Hparse (envelope & Henv & Hdetail) svc consts mid mid' ctx w.
  assert (Hsame : Embed.extractEvent body = Embed.extractEvent message).
  { unfold Embed.extractEvent, Embed.parseBody, JSON_parse_or_throw.
    rewrite Hparse, Henv. cbn [Embed.obind].
    subst message.
    rewrite JSON_roundtrip in Henv
      by (auto using changeEvent_unique_keys; discriminate).
    injection Henv as <-.
    cbn [to_json Backfill.changeEvent flat_map fst snd app js_get assoc String.eqb
         Ascii.eqb Bool.eqb destructure Embed.obind] in Hdetail |- *.
    destruct payload; try discriminate Hdetail.
    cbn [destructure Embed.obind]. rewrite Hdetail. reflexivity. }
  rewrite !recordHandler_unfold. cbn [SQSRecord.body]. rewrite Hsame. reflexivity.
Qed.

(* ================================================================== *)
(** * The vector search *)
(* ================================================================== *)

Lemma score_leb_total (a b : Row) : score_leb a b = false -> score_leb b a = true.
Proof.
  unfold score_leb. destruct (row_score a), (row_score b); try discriminate; auto.
  intro H. apply Z.leb_gt in H. apply Z.leb_le. lia.
Qed.

Lemma score_leb_trans (a b c : Row) :
  score_leb a b = true -> score_leb b c = true -> score_leb a c = true.
Proof.
  unfold score_leb. destruct (row_score a), (row_score b), (row_score c);
    try discriminate; auto.
  intros H1 H2. apply Z.leb_le in H1, H2. apply Z.leb_le. lia.
Qed.

Lemma insert_desc_in (r x : Row) (rs : list Row) :
  In x (insert_desc r rs) <-> x = r \/ In x rs.
Proof.
  induction rs as [|y rs IH]; cbn [insert_desc].
  - simpl. intuition.
  - destruct (score_leb y r); simpl in *; rewrite ?IH; intuition.
Qed.

Lemma sort_desc_in (x : Row) (rs : list Row) :
  In x (sort_desc rs) <-> In x rs.
Proof.
  induction rs as [|y rs IH]; [reflexivity|].
  cbn [sort_desc fold_right]. fold (sort_desc rs).
  rewrite insert_desc_in, IH. simpl. intuition.
Qed.

Lemma insert_desc_sorted (r : Row) (rs : list Row) :
  StronglySorted above rs -> StronglySorted above (insert_desc r rs).
Proof.
  induction 1 as [|y rs Hs IH Hy]; cbn [insert_desc].
  - constructor; constructor.
  - destruct (score_leb y r) eqn:E.
    + constructor; [constructor; assumption|].
      constructor; [exact E|].
      rewrite Forall_forall in Hy |- *. intros z Hz.
      unfold above in *. eapply score_leb_trans; eauto.
    + constructor; [exact IH|].
      rewrite Forall_forall in Hy |- *. intros z Hz.
      apply insert_desc_in in Hz as [->|Hz]; [|now apply Hy].
      now apply score_leb_total.
Qed.

Lemma sort_desc_sorted (rs : list Row) : StronglySorted above (sort_desc rs).
Proof.
  induction rs as [|y rs IH]; [constructor|].
  cbn [sort_desc fold_right]. now apply insert_desc_sorted.
Qed.

Lemma StronglySorted_firstn {A} (R : A -> A -> Prop) (m : nat) (l : list A) :
  StronglySorted R l -> StronglySorted R (firstn m l).
Proof.
  intro H. revert m. induction H as [|x l Hs IH Hx]; intros [|m]; cbn [firstn];
    try constructor; auto.
  rewrite Forall_forall in Hx |- *. intros y Hy. apply Hx.
  rewrite <- (firstn_skipn m l). apply in_or_app. now left.
Qed.

Lemma StronglySorted_firstn_skipn {A} (R : A -> A -> Prop) (m : nat) (l : list A) :
  StronglySorted R l ->
  forall x y, In x (firstn m l) -> In y (skipn m l) -> R x y.
Proof.
  intro H. revert m. induction H as [|z l Hs IH Hz]; intros [|m] x y Hx Hy;
    cbn [firstn skipn] in *; try contradiction.
  destruct Hx as [<-|Hx].
  - rewrite Forall_forall in Hz. apply Hz.
    rewrite <- (firstn_skipn m l). apply in_or_app. now right.
  - eapply IH; eauto.
Qed.

Lemma rows_of_pairs (l : list Row) :
  Forall (fun r => exists p, r = row_of p) l -> exists ps, l = map row_of ps.
Proof.
  induction 1 as [|r l [p ->] _ [ps ->]].
  - now exists [].
  - now exists (p :: ps).
Qed.

Lemma StronglySorted_pairs (ps : list (Document * Z)) :
  StronglySorted above (map row_of ps) ->
  StronglySorted (fun a b => (snd b <= snd a)%Z) ps.
Proof.
  induction ps as [|p ps IH]; cbn [map]; intro H; [constructor|].
  inversion H as [|? ? Hs Hall]; subst. constructor; [now apply IH|].
  rewrite Forall_forall in Hall |- *. intros q Hq.
  specialize (Hall (row_of q) (in_map row_of _ _ Hq)).
  unfold above, score_leb, row_of in Hall. cbn in Hall. now apply Z.leb_le.
Qed.

Lemma assoc_app (key : string) (l l' : Document) :
  assoc key (l ++ l') =
  match assoc key l with Some v => Some v | None => assoc key l' end.
Proof.
  induction l as [|[k' v] l IH]; [reflexivity|].
  cbn [app assoc]. destruct (String.eqb key k'); auto.
Qed.

Lemma assoc_filter (keep : string -> bool) (key : string) (d : Document) :
  assoc key (filter (fun kv => keep (fst kv)) d) =
  if keep key then assoc key d else None.
Proof.
  induction d as [|[k' v] d IH]; [now destruct (keep key)|].
  cbn [filter fst]. destruct (String.eqb key k') eqn:E.
  - apply String.eqb_eq in E. subst k'.
    destruct (keep key) eqn:K; cbn [assoc]; rewrite ?String.eqb_refl; auto.
  - destruct (keep k'); cbn [assoc]; rewrite ?E; exact IH.
Qed.

Lemma project_item_fields (d : Document) (s : Z) :
  incl (field_names (project_item d s)) ["_id"; "title"; "plot"; "score"] /\
  assoc "_id" (project_item d s) = assoc "_id" d /\
  assoc "title" (project_item d s) = assoc "title" d /\
  assoc "plot" (project_item d s) = assoc "plot" d /\
  assoc "score" (project_item d s) = Some (VNum (dec_Z s)).
Proof.
  unfold project_item.
  set (keep := fun name => String.eqb name "_id" || mem_string name ["title"; "plot"]).
  change (filter _ d) with (filter (fun kv => keep (fst kv)) d).
  split; [|split; [|split; [|split]]].
  - unfold field_names. rewrite map_app. intros name Hin.
    apply in_app_or in Hin as [Hin|Hin].
    + apply in_map_iff in Hin as ([k' v] & <- & Hf).
      apply filter_In in Hf as [_ Hk]. cbn [fst] in *. unfold keep in Hk.
      apply orb_true_iff in Hk as [Hk|Hk].
      * apply String.eqb_eq in Hk. subst. simpl. auto.
      * apply mem_string_in in Hk. simpl in Hk. simpl. intuition.
    + simpl in Hin. simpl. intuition.
  - rewrite assoc_app, assoc_filter. cbn. now destruct (assoc "_id" d).
  - rewrite assoc_app, assoc_filter. cbn. now destruct (assoc "title" d).
  - rewrite assoc_app, assoc_filter. cbn. now destruct (assoc "plot" d).
  - rewrite assoc_app, assoc_filter. reflexivity.
Qed.

Lemma scored_rows (svc : Services) (index field : string) (query : JSValue)
  (docs : list Document) :
  flat_map
    (fun r =>
       match searchScore svc index field query (row_doc r) with
       | Some s => [{| row_doc := row_doc r; row_score := Some s |}]
       | None => []
       end)
    (map (fun d => {| row_doc := d; row_score := None |}) docs)
  = map row_of (scored svc index field query docs).
Proof.
  unfold scored. induction docs as [|d docs IH]; [reflexivity|].
  cbn [map flat_map row_doc]. rewrite map_app, IH.
  destruct (searchScore svc index field query d); reflexivity.
Qed.

Lemma scored_in (svc : Services) (index field : string) (query : JSValue)
  (docs : list Document) (d : Document) (s : Z) :
  In (d, s) (scored svc index field query docs) <->
  In d docs /\ searchScore svc index field query d = Some s.
Proof.
  unfold scored. rewrite in_flat_map. split.
  - intros (x & Hx & Hin). destruct (searchScore svc index field query x) eqn:E;
      [|contradiction].
    destruct Hin as [Hin|[]]. injection Hin as <- <-. auto.
  - intros [Hd Hs]. exists d. split; [exact Hd|]. rewrite Hs. now left.
Qed.

(** C6. When [knnSearch] returns, the request it made is the aggregation
    of a [$search] over the index, with [knnBeta] on the vector field
    [plot_embedding] for the given embedding and [k] 3, followed by the
    projection of [title], [plot] and the search score; it returns at most
    three items, the best-scoring documents the index holds, by decreasing
    score; and an item carries the [_id], [title] and [plot] of its
    document and its score, and no other field. *)
Theorem knnSearch_returns_top3
  (svc : Services) (consts : Constants) (embedding : JSValue)
  (w w' : World) (items : list Document) :
  Search.knnSearch svc consts embedding w = (Ok items, w') ->
  let index := MONGODB_SEARCH_INDEX_NAME consts in
  last_call w' =
    Some (Aggregate
            [Search index {| vector := embedding; path := "plot_embedding"; k := 3 |};
             Project ["title"; "plot"] "score"]) /\
  length items <= 3 /\
  exists ranked : list (Document * Z),
    items = map (fun r => project_item (fst r) (snd r)) ranked /\
    StronglySorted (fun a b => (snd b <= snd a)%Z) ranked /\
    (forall d s, In (d, s) ranked ->
       In d (collection w) /\
       searchScore svc index "plot_embedding" embedding d = Some s) /\
    (forall d s,
       In d (collection w) ->
       searchScore svc index "plot_embedding" embedding d = Some s ->
       In (d, s) ranked \/ forall r, In r ranked -> (s <= snd r)%Z) /\
    (forall d s, In (d, s) ranked ->
       incl (field_names (project_item d s)) ["_id"; "title"; "plot"; "score"] /\
       assoc "_id" (project_item d s) = assoc "_id" d /\
       assoc "title" (project_item d s) = assoc "title" d /\
       assoc "plot" (project_item d s) = assoc "plot" d /\
       assoc "score" (project_item d s) = Some (VNum (dec_Z s))).
Proof.
  intros Hrun index. unfold Search.knnSearch, bind at 1 in Hrun.
  destruct (Helpers.getMongoCollection svc w) as [[[]|e] w1] eqn:Hconn;
    [|discriminate].
  apply getMongoCollection_inv in Hconn as (Hcoll & _).
  unfold bind, Mongo.aggregate, ret in Hrun.
  destruct (storeFault svc (clock w1)); [discriminate|].
  injection Hrun as <- <-.
  split; [unfold last_call; cbn [calls record_call]; apply last_call_snoc|].
  unfold Mongo.run_pipeline, Search.pipeline.
  cbn [fold_left Mongo.run_stage k path vector]. fold index.
  rewrite scored_rows, Hcoll.
  set (pairs := scored svc index "plot_embedding" embedding (collection w)).
  pose proof (sort_desc_sorted (map row_of pairs)) as Hsorted.
  assert (Hall : Forall (fun r => exists p, r = row_of p)
                   (firstn 3 (sort_desc (map row_of pairs)))).
  { rewrite Forall_forall. intros r Hr.
    assert (Hin : In r (sort_desc (map row_of pairs))).
    { rewrite <- (firstn_skipn 3 (sort_desc _)). apply in_or_app. now left. }
    apply sort_desc_in, in_map_iff in Hin as (p & <- & _). now exists p. }
  destruct (rows_of_pairs _ Hall) as [ranked Hranked].
  rewrite Hranked, !map_map. cbn [row_doc row_of row_score].
  split.
  { rewrite length_map, <- (length_map row_of), <- Hranked. apply firstn_le_length. }
  exists ranked. split; [reflexivity|].
  assert (Hsub : forall p, In p ranked -> In p pairs).
  { intros p Hp. apply (in_map row_of) in Hp. rewrite <- Hranked in Hp.
    assert (Hin : In (row_of p) (sort_desc (map row_of pairs))).
    { rewrite <- (firstn_skipn 3 (sort_desc _)). apply in_or_app. now left. }
    apply sort_desc_in, in_map_iff in Hin as (q & Hq & Hin).
    destruct p, q. unfold row_of in Hq. cbn in Hq. now injection Hq as <- <-. }
  repeat split.
  - apply StronglySorted_pairs. rewrite <- Hranked.
    now apply StronglySorted_firstn.
  - apply Hsub in H. now apply scored_in in H.
  - apply Hsub in H. now apply scored_in in H.
  - intros d s Hd Hs.
    assert (Hin : In (row_of (d, s)) (sort_desc (map row_of pairs))).
    { apply sort_desc_in, in_map. now apply scored_in. }
    rewrite <- (firstn_skipn 3 (sort_desc _)) in Hin.
    apply in_app_or in Hin as [Hin|Hin].
    + left. rewrite Hranked in Hin. apply in_map_iff in Hin as ([d' s'] & Hq & Hin).
      unfold row_of in Hq. cbn in Hq. now injection Hq as <- <-.
    + right. intros r Hr. apply (in_map row_of) in Hr. rewrite <- Hranked in Hr.
      pose proof (StronglySorted_firstn_skipn above 3 _ Hsorted _ _ Hr Hin) as Hab.
      unfold above, score_leb, row_of in Hab. cbn in Hab. now apply Z.leb_le.
  - apply project_item_fields.
  - apply project_item_fields.
  - apply project_item_fields.
  - apply project_item_fields.
  - apply project_item_fields.
Qed.

(* ================================================================== *)
(** * The search handler *)
(* ================================================================== *)

Lemma search_handler_unfold
  (svc : Services) (consts : Constants) (event : APIGatewayEvent.t) (w : World) :
  Search.handler svc consts event w =
  match JSON_parse (search_text event) with
  | None => (Ok Search.errorResponse, w)
  | Some parsed =>
      match destructure "query" parsed with
      | Throw _ => (Ok Search.errorResponse, w)
      | Ok query =>
          match Helpers.getEmbedding svc consts query w with
          | (Throw _, w1) => (Ok Search.errorResponse, w1)
          | (Ok embedding, w1) =>
              if truthy embedding then
                match Search.knnSearch svc consts embedding w1 with
                | (Ok items, w2) => (Ok (okResponse items), w2)
                | (Throw _, w2) => (Ok Search.errorResponse, w2)
                end
              else (Ok Search.errorResponse, w1)
          end
      end
  end.
Proof.
  unfold Search.handler, try_catch at 1, bind at 1, lift, JSON_parse_or_throw.
  fold (search_text event).
  destruct (JSON_parse (search_text event)) as [parsed|]; [|reflexivity].
  unfold bind at 1.
  destruct (destructure "query" parsed) as [query|e]; [|reflexivity].
  unfold bind at 1, try_catch at 1, bind at 1.
  destruct (Helpers.getEmbedding svc consts query w) as [[embedding|e] w1];
    [|reflexivity].
  destruct (truthy embedding); [|reflexivity].
  unfold ret at 1, bind at 1, try_catch.
  destruct (Search.knnSearch svc consts embedding w1) as [[items|e] w2];
    reflexivity.
Qed.

(** C7 (as amended). The search handler never throws.  When every step
    succeeds it answers 200 with the JSON array of the items found; in every
    other case (a body that is not JSON or is [null], an embedding call that
    throws or gives a falsy embedding, a similarity search that throws) it
    answers with one fixed response, status 500 and the body
    [{ message: errorMessage }], which does not depend on the error.  The
    query text is not among the steps: the handler does not look at it, and
    a missing or empty query fails the request only when the model rejects
    the request made from it. *)
Theorem search_handler_responses
  (svc : Services) (consts : Constants) (event : APIGatewayEvent.t) (w : World) :
  (exists response w',
     Search.handler svc consts event w = (Ok response, w') /\
     ((exists items,
         search_succeeds svc consts event w items w' /\
         response = okResponse items /\
         HttpResponse.statusCode response = 200%Z) \/
      ((forall items w'', ~ search_succeeds svc consts event w items w'') /\
       response = Search.errorResponse /\
       HttpResponse.statusCode response = 500%Z /\
       HttpResponse.body response
         = JSON_stringify (VObj [("message", VStr Search.errorMessage)])))) /\
  (forall parsed query e,
     JSON_parse (search_text event) = Some parsed ->
     destructure "query" parsed = Ok query ->
     bedrock svc (clock w) (BEDROCK_MODEL_ID consts)
       (Helpers.embedding_request query) = BedrockRejects e ->
     Search.handler svc consts event w
     = (Ok Search.errorResponse,
        record_call (InvokeModel (BEDROCK_MODEL_ID consts)
                       (Helpers.embedding_request query)) w)).
Proof.
  split.
  2:{ intros parsed query e Hparse Hquery Hreject.
      rewrite search_handler_unfold, Hparse, Hquery.
      unfold Helpers.getEmbedding. rewrite createEmbedding_unfold, Hreject.
      reflexivity. }
  rewrite search_handler_unfold.
  assert (Hfail : forall w1 : World,
            (forall items w'', ~ search_succeeds svc consts event w items w'') ->
            exists response w',
              (Ok Search.errorResponse, w1) = (Ok response, w') /\
              ((exists items,
                  search_succeeds svc consts event w items w' /\
                  response = okResponse items /\
                  HttpResponse.statusCode response = 200%Z) \/
               ((forall items w'', ~ search_succeeds svc consts event w items w'') /\
                response = Search.errorResponse /\
                HttpResponse.statusCode response = 500%Z /\
                HttpResponse.body response
                  = JSON_stringify (VObj [("message", VStr Search.errorMessage)])))).
  { intros w1 Hno. exists Search.errorResponse, w1. split; [reflexivity|].
    right. repeat split. exact Hno. }
  destruct (JSON_parse (search_text event)) as [parsed|] eqn:Hparse.
  2:{ apply Hfail. intros items w'' (p & q & e & w1 & H & _). congruence. }
  destruct (destructure "query" parsed) as [query|err] eqn:Hquery.
  2:{ apply Hfail. intros items w'' (p & q & e & w1 & H1 & H2 & _). congruence. }
  destruct (Helpers.getEmbedding svc consts query w) as [[embedding|err] w1] eqn:Hemb.
  2:{ apply Hfail. intros items w'' (p & q & e & w2 & H1 & H2 & H3 & _).
      rewrite Hparse in H1. injection H1 as <-.
      rewrite Hquery in H2. injection H2 as <-. congruence. }
  destruct (truthy embedding) eqn:Htruthy.
  2:{ apply Hfail. intros items w'' (p & q & e & w2 & H1 & H2 & H3 & H4 & _).
      rewrite Hparse in H1. injection H1 as <-.
      rewrite Hquery in H2. injection H2 as <-.
      rewrite Hemb in H3. injection H3 as <- <-. congruence. }
  destruct (Search.knnSearch svc consts embedding w1) as [[items|err] w2] eqn:Hknn.
  2:{ apply Hfail. intros items w'' (p & q & e & w3 & H1 & H2 & H3 & H4 & H5).
      rewrite Hparse in H1. injection H1 as <-.
      rewrite Hquery in H2. injection H2 as <-.
      rewrite Hemb in H3. injection H3 as <- <-. congruence. }
  exists (okResponse items), w2. split; [reflexivity|]. left.
  exists items. repeat split. now exists parsed, query, embedding, w1.
Qed.

(** The handler does not look at the query itself: without a body the
    request to the model carries no input text. *)
Lemma missing_query_request (svc : Services) (consts : Constants) (w : World) :
  JSON_parse (search_text {| APIGatewayEvent.body := None;
                             APIGatewayEvent.queryStringParameters := None |})
    = Some (VObj []) /\
  destructure "query" (VObj []) = Ok VUndefined /\
  Helpers.embedding_request VUndefined = "{}".
Proof. repeat split. Qed.

(** ** The embedding client *)

(** X23. [createEmbedding] makes one request to the model.  It throws when
    the request is rejected, when the status of the response is not 200,
    when the response has no body, and when the body is not JSON or is
    [null]; otherwise it returns the [embedding] property of the body as it
    is.  In the search handler a falsy embedding ([undefined], [null]) gives
    the error response before any aggregation is requested. *)
Theorem createEmbedding_failures
  (svc : Services) (consts : Constants) (inputText : JSValue) (w : World) :
  let request := Helpers.embedding_request inputText in
  let reply := bedrock svc (clock w) (BEDROCK_MODEL_ID consts) request in
  let result := Helpers.createEmbedding svc consts inputText w in
  snd result = record_call (InvokeModel (BEDROCK_MODEL_ID consts) request) w /\
  (forall e, reply = BedrockRejects e -> fst result = Throw e) /\
  (forall status body,
     reply = BedrockResponse status body ->
     status <> Some 200%Z \/ body = None ->
     fst result = Throw (Err "Error in model response")) /\
  (forall b,
     reply = BedrockResponse (Some 200%Z) (Some b) ->
     JSON_parse b = None \/ JSON_parse b = Some VNull ->
     exists e, fst result = Throw e) /\
  (forall b parsed,
     reply = BedrockResponse (Some 200%Z) (Some b) ->
     JSON_parse b = Some parsed ->
     fst result = destructure "embedding" parsed) /\
  (forall b props,
     reply = BedrockResponse (Some 200%Z) (Some b) ->
     JSON_parse b = Some (VObj props) ->
     fst result = Ok (js_get "embedding" (VObj props))) /\
  (forall event parsed embedding,
     JSON_parse (search_text event) = Some parsed ->
     destructure "query" parsed = Ok inputText ->
     fst result = Ok embedding ->
     truthy embedding = false ->
     Search.handler svc consts event w = (Ok Search.errorResponse, snd result) /\
     calls_since w (snd result) = [InvokeModel (BEDROCK_MODEL_ID consts) request]).
Proof.
  intros request reply result. subst result.
  rewrite createEmbedding_unfold. fold request. fold reply. cbn [fst snd].
  split; [reflexivity|]. split; [|split; [|split; [|split; [|split]]]].
  - intros e ->. reflexivity.
  - intros status body -> [Hs|Hb]; cbn [embedding_of_reply].
    + destruct status as [z|]; cbn [Helpers.status_is negb]; [|reflexivity].
      destruct (z =? 200)%Z eqn:E; [|reflexivity].
      apply Z.eqb_eq in E. subst z. contradiction.
    + subst body. now destruct (negb _).
  - intros b -> [Hp|Hp]; cbn [embedding_of_reply Helpers.status_is];
      rewrite Hp; eexists; reflexivity.
  - intros b parsed -> Hp. cbn [embedding_of_reply Helpers.status_is].
    now rewrite Hp.
  - intros b props -> Hp. cbn [embedding_of_reply Helpers.status_is].
    now rewrite Hp.
  - intros event parsed embedding Hparse Hquery Hres Hfalsy.
    rewrite search_handler_unfold, Hparse, Hquery.
    unfold Helpers.getEmbedding. rewrite createEmbedding_unfold.
    fold request. fold reply. rewrite Hres, Hfalsy.
    split; [reflexivity|].
    unfold calls_since. cbn [calls record_call].
    rewrite skipn_app, skipn_all, Nat.sub_diag. reflexivity.
Qed.

(* ================================================================== *)
(** * The properties at the sample data *)
(* ================================================================== *)

Lemma fixtures_accept : queue_accepts Fixtures.services Fixtures.queueUrl.
Proof. split; [reflexivity | intros; reflexivity]. Qed.

(** 25 documents in batches of 10: two batches, 20 messages. *)
Lemma dispatch_sends_full_batches_witness :
  queue_accepts Fixtures.services Fixtures.queueUrl /\ (0 < 10)%Z /\
  exists w',
    Backfill.sendToQueueInBatches Fixtures.services (Fixtures.movies 25) 10
      (Fixtures.world (Fixtures.movies 25)) = (Ok 20, w') /\
    length (queue w') = 20 /\
    length (skipn 20 (Fixtures.movies 25)) = 5.
Proof.
  split; [exact fixtures_accept|]. split; [reflexivity|].
  destruct (dispatch_sends_full_batches Fixtures.services Fixtures.queueUrl
              (Fixtures.movies 25) 10 (Fixtures.world (Fixtures.movies 25))
              fixtures_accept eq_refl)
    as (batches & w' & Hrun & _ & _ & _ & _ & _ & Hlen & Hrest).
  exists w'. split; [exact Hrun|]. split; [exact Hlen | exact Hrest].
Defined.

(** 7 candidates under the default batch size: nothing is sent. *)
Example backfill_of_7_candidates :
  fst (Backfill.handler Fixtures.services (Fixtures.backfillEvent (Some "10"))
         (Fixtures.world (Fixtures.movies 7)))
  = Ok {| HttpResponse.statusCode := 200;
          HttpResponse.body :=
            JSON_stringify (VObj [("read", VNat 7); ("sent", VNat 0)]) |}.
Proof. vm_compute. reflexivity. Qed.

Example backfill_of_25_candidates :
  fst (Backfill.handler Fixtures.services (Fixtures.backfillEvent (Some "25"))
         (Fixtures.world (Fixtures.movies 25)))
  = Ok {| HttpResponse.statusCode := 200;
          HttpResponse.body :=
            JSON_stringify (VObj [("read", VNat 25); ("sent", VNat 20)]) |}.
Proof. vm_compute. reflexivity. Qed.


Example partial_batch_writes_the_others :
  map (has_field "plot_embedding")
    (collection
       (snd (Embed.handler Fixtures.services Fixtures.constants
               [Fixtures.recordOf 0; Fixtures.recordOf 1; Fixtures.recordOf 2]
               Fixtures.context (Fixtures.world (Fixtures.movies 3)))))
  = [true; false; true].
Proof. vm_compute. reflexivity. Qed.

Lemma reprocessing_is_idempotent_witness :
  let w := Fixtures.world (Fixtures.movies 3) in
  let w1 := snd (Embed.recordHandler Fixtures.services Fixtures.constants
                   (Fixtures.recordOf 0) Fixtures.context w) in
  Embed.recordHandler Fixtures.services Fixtures.constants
    (Fixtures.recordOf 0) Fixtures.context w = (Ok tt, w1) /\
  exists w2,
    Embed.recordHandler Fixtures.services Fixtures.constants
      (Fixtures.recordOf 0) Fixtures.context w1 = (Ok tt, w2) /\
    collection w2 = collection w1.
Proof.
  intros w w1.
  assert (Hfirst : Embed.recordHandler Fixtures.services Fixtures.constants
                     (Fixtures.recordOf 0) Fixtures.context w = (Ok tt, w1))
    by (vm_compute; reflexivity).
  split; [exact Hfirst|].
  destruct (reprocessing_is_idempotent Fixtures.services Fixtures.constants
              (Fixtures.recordOf 0) Fixtures.context w w1 Hfirst)
    as (w2 & hex & replacement & embedding & Hsecond & Hcoll & _).
  - vm_compute. discriminate.
  - intro request. reflexivity.
  - reflexivity.
  - exists w2. split; [exact Hsecond | exact Hcoll].
Defined.

Lemma time_guard_fails_before_any_work_witness :
  (getRemainingTimeInMillis Fixtures.lateContext
     (clock (Fixtures.world (Fixtures.movies 3))) < 1000)%Z /\
  Embed.recordHandler Fixtures.services Fixtures.constants
    (Fixtures.recordOf 0) Fixtures.lateContext (Fixtures.world (Fixtures.movies 3))
  = (Throw (Err "Time is about to expire, stopping processing"),
     Fixtures.world (Fixtures.movies 3)).
Proof.
  split; [reflexivity|].
  apply (time_guard_fails_before_any_work Fixtures.services Fixtures.constants
           (Fixtures.recordOf 0) Fixtures.lateContext
           (Fixtures.world (Fixtures.movies 3))).
  reflexivity.
Defined.

Lemma dispatched_message_round_trips_witness :
  Embed.extractEvent
    (JSON_stringify (Backfill.changeEvent "event-0" (Fixtures.movie 0)))
  = Ok (VStr (Fixtures.hexOf 0), js_omit "_id" (Fixtures.movie 0)) /\
  new_ObjectId (VStr (Fixtures.hexOf 0)) = Ok (Some (Fixtures.hexOf 0)).
Proof.
  destruct (dispatched_message_round_trips "event-0" (Fixtures.hexOf 0)
              (Fixtures.movie 0) eq_refl eq_refl eq_refl eq_refl)
    as (Hread & Hkey & _).
  split; [exact Hread | exact Hkey].
Defined.

(** C5, as stated, fails on a document with a [Date]: the consumer reads
    the date as a string, so the fields it reads are not the fields of the
    document. *)
Lemma date_field_is_not_recovered :
  Embed.extractEvent
    (JSON_stringify (Backfill.changeEvent "event-0" Fixtures.datedMovie))
  = Ok (VStr (Fixtures.hexOf 0),
        [("plot", VStr "plot 0"); ("released", VStr "1999-03-31T00:00:00.000Z")]) /\
  [("plot", VStr "plot 0"); ("released", VStr "1999-03-31T00:00:00.000Z")]
    <> js_omit "_id" Fixtures.datedMovie.
Proof. split; [vm_compute; reflexivity | vm_compute; discriminate]. Qed.

Lemma knnSearch_returns_top3_witness :
  let w := Fixtures.world (map Fixtures.embedded (seq 0 5)) in
  let run := Search.knnSearch Fixtures.services Fixtures.constants
               (VArr [VNum "1"]) w in
  run = (Ok (Fixtures.itemsOf (fst run)), snd run) /\
  length (Fixtures.itemsOf (fst run)) = 3 /\
  map (assoc "score") (Fixtures.itemsOf (fst run))
    = [Some (VNum "4"); Some (VNum "3"); Some (VNum "2")].
Proof.
  intros w run.
  assert (Hrun : run = (Ok (Fixtures.itemsOf (fst run)), snd run))
    by (vm_compute; reflexivity).
  split; [exact Hrun|].
  pose proof (knnSearch_returns_top3 Fixtures.services Fixtures.constants
                (VArr [VNum "1"]) w (snd run) (Fixtures.itemsOf (fst run)) Hrun)
    as (_ & Hlen & _).
  split; vm_compute; reflexivity.
Defined.

Lemma search_handler_responses_witness :
  let w := Fixtures.world (map Fixtures.embedded (seq 0 5)) in
  (exists items w',
     Search.handler Fixtures.services Fixtures.constants
       (Fixtures.searchEvent "sports") w = (Ok (okResponse items), w') /\
     search_succeeds Fixtures.services Fixtures.constants
       (Fixtures.searchEvent "sports") w items w') /\
  (exists w',
     Search.handler Fixtures.services Fixtures.constants
       (Fixtures.searchEvent "plot 1") w = (Ok Search.errorResponse, w') /\
     HttpResponse.body Search.errorResponse
     = JSON_stringify (VObj [("message", VStr Search.errorMessage)])).
Proof.
  intro w. split.
  - destruct (search_handler_responses Fixtures.services Fixtures.constants
                (Fixtures.searchEvent "sports") w)
      as ((response & w' & Hrun & [(items & Hs & -> & _) | (_ & -> & _)]) & _).
    + now exists items, w'.
    + exfalso.
      assert (Hstatus : HttpResponse.statusCode
                (match fst (Search.handler Fixtures.services Fixtures.constants
                              (Fixtures.searchEvent "sports") w) with
                 | Ok r => r
                 | Throw _ => Search.errorResponse
                 end) = 200%Z) by (vm_compute; reflexivity).
      rewrite Hrun in Hstatus. discriminate Hstatus.
  - destruct (search_handler_responses Fixtures.services Fixtures.constants
                (Fixtures.searchEvent "plot 1") w)
      as ((response & w' & Hrun & [(items & _ & -> & _) | (_ & -> & _ & Hbody)]) & _).
    + exfalso.
      assert (Hstatus : HttpResponse.statusCode
                (match fst (Search.handler Fixtures.services Fixtures.constants
                              (Fixtures.searchEvent "plot 1") w) with
                 | Ok r => r
                 | Throw _ => Search.errorResponse
                 end) = 500%Z) by (vm_compute; reflexivity).
      rewrite Hrun in Hstatus. discriminate Hstatus.
    + now exists w'.
Defined.

(** C7, as stated, fails on a request without a query when the model
    answers: the handler does not look at the query.  Without a body the
    model is asked for the embedding of nothing (the request [{}]), with
    the query [""] for that of the empty text, and the model answering, the
    handler goes on to the search and answers 200. *)
Lemma request_without_query_is_answered :
  fst (Search.handler Fixtures.services Fixtures.constants
         {| APIGatewayEvent.body := None;
            APIGatewayEvent.queryStringParameters := None |}
         (Fixtures.world []))
  = Ok {| HttpResponse.statusCode := 200; HttpResponse.body := "[]" |} /\
  hd_error (calls (snd (Search.handler Fixtures.services Fixtures.constants
                          {| APIGatewayEvent.body := None;
                             APIGatewayEvent.queryStringParameters := None |}
                          (Fixtures.world []))))
  = Some (InvokeModel "amazon.titan-embed-text-v1" "{}") /\
  fst (Search.handler Fixtures.services Fixtures.constants
         (Fixtures.searchEvent "") (Fixtures.world []))
  = Ok {| HttpResponse.statusCode := 200; HttpResponse.body := "[]" |} /\
  hd_error (calls (snd (Search.handler Fixtures.services Fixtures.constants
                          (Fixtures.searchEvent "") (Fixtures.world []))))
  = Some (InvokeModel "amazon.titan-embed-text-v1"
            (JSON_stringify (VObj [("inputText", VStr "")]))).
Proof. repeat split; vm_compute; reflexivity. Qed.

Example search_without_body_fails_generically :
  fst (Search.handler Fixtures.services Fixtures.constants
         {| APIGatewayEvent.body := Some "not json";
            APIGatewayEvent.queryStringParameters := None |}
         (Fixtures.world (map Fixtures.embedded (seq 0 5))))
  = Ok Search.errorResponse.
Proof. vm_compute. reflexivity. Qed.

Lemma createEmbedding_failures_witness :
  fst (Helpers.createEmbedding Fixtures.services Fixtures.constants
         (VStr "plot 1") (Fixtures.world []))
  = Throw (Err "Error in model response").
Proof.
  destruct (createEmbedding_failures Fixtures.services Fixtures.constants
              (VStr "plot 1") (Fixtures.world []))
    as (_ & _ & Hstatus & _).
  apply (Hstatus (Some 500%Z) None); [reflexivity | right; reflexivity].
Defined.

(** C8.  On a response of the model with status 200 and the body
    [{ embedding: [] }] the code does not do what the claim says:
    [createEmbedding] returns the empty vector as a success, and the search
    handler, whose test [!embedding] an empty array passes, goes on to
    request the aggregation instead of failing with
    'Empty embedding returned by the API'. *)
Lemma empty_embedding_is_returned :
  bedrock Fixtures.emptyVectorServices 0 "amazon.titan-embed-text-v1"
    (Helpers.embedding_request (VStr "sports"))
  = BedrockResponse (Some 200%Z)
      (Some (JSON_stringify (VObj [("embedding", VArr [])]))) /\
  fst (Helpers.createEmbedding Fixtures.emptyVectorServices Fixtures.constants
         (VStr "sports") (Fixtures.world (map Fixtures.embedded (seq 0 5))))
  = Ok (VArr []) /\
  truthy (VArr []) = true /\
  existsb is_aggregate
    (calls (snd (Search.handler Fixtures.emptyVectorServices Fixtures.constants
                   (Fixtures.searchEvent "sports")
                   (Fixtures.world (map Fixtures.embedded (seq 0 5))))))
  = true.
Proof. repeat split; vm_compute; reflexivity. Qed.

Lemma readDocuments_selects_candidates_witness :
  let w := Fixtures.world (Fixtures.embedded 0 :: Fixtures.movies 25) in
  let w1 := snd (Helpers.getMongoCollection Fixtures.services w) in
  (0 < 10)%Z /\
  Helpers.getMongoCollection Fixtures.services w = (Ok tt, w1) /\
  storeFault Fixtures.services (clock w1) = None /\
  fst (Backfill.readDocuments Fixtures.services (Int 10) w)
  = Ok (Fixtures.movies 10).
Proof.
  intros w w1.
  assert (Hconn : Helpers.getMongoCollection Fixtures.services w = (Ok tt, w1))
    by reflexivity.
  split; [reflexivity|]. split; [exact Hconn|]. split; [reflexivity|].
  destruct (readDocuments_selects_candidates Fixtures.services 10 w w1
              eq_refl Hconn eq_refl)
    as (documents & Hrun & Hdocs & _).
  rewrite Hrun, Hdocs. vm_compute. reflexivity.
Defined.

Lemma count_is_passed_unvalidated_witness :
  let w := Fixtures.world (Fixtures.movies 25) in
  let w1 := snd (Helpers.getMongoCollection Fixtures.services w) in
  exists response w' later,
    Backfill.handler Fixtures.services (Fixtures.backfillEvent (Some "abc")) w
    = (Ok response, w') /\
    HttpResponse.statusCode response = 200%Z /\
    calls w' = calls w1 ++ Find NaN :: later.
Proof.
  intros w w1.
  destruct (count_is_passed_unvalidated Fixtures.services Fixtures.queueUrl
              (Fixtures.backfillEvent (Some "abc")) w w1 fixtures_accept
              (fun _ => eq_refl) (fun _ _ => eq_refl) eq_refl)
    as (_ & _ & _ & _ & _ & _ & _ & response & w' & later & Hrun & Hstatus & Hcalls).
  exists response, w', later. split; [exact Hrun|]. split; [exact Hstatus|].
  exact Hcalls.
Defined.

Example count_zero_reads_everything :
  fst (Backfill.handler Fixtures.services (Fixtures.backfillEvent (Some "0"))
         (Fixtures.world (Fixtures.movies 25)))
  = Ok {| HttpResponse.statusCode := 200;
          HttpResponse.body :=
            JSON_stringify (VObj [("read", VNat 25); ("sent", VNat 20)]) |}.
Proof. vm_compute. reflexivity. Qed.

(* ================================================================== *)
(** * The client of the collection *)
(* ================================================================== *)

Lemma getStringFromEnv_unset (svc : Services) (name : string) :
  env_unset svc name ->
  Helpers.getStringFromEnv svc name
  = Throw (Err (String.append name " is not set")).
Proof.
  unfold Helpers.getStringFromEnv. intros [H|H]; rewrite H; reflexivity.
Qed.

Lemma getStringFromEnv_set (svc : Services) (name value : string) :
  processEnv svc name = Some value -> value <> "" ->
  Helpers.getStringFromEnv svc name = Ok value.
Proof.
  unfold Helpers.getStringFromEnv. intros -> Hv.
  destruct (String.eqb value "") eqn:E; [|reflexivity].
  apply String.eqb_eq in E. contradiction.
Qed.

Lemma getStringFromEnv_ok (svc : Services) (name value : string) :
  Helpers.getStringFromEnv svc name = Ok value ->
  processEnv svc name = Some value /\ value <> "".
Proof.
  unfold Helpers.getStringFromEnv.
  destruct (processEnv svc name) as [v|]; [|discriminate].
  destruct (String.eqb v "") eqn:E; [discriminate|].
  intro H. injection H as <-. split; [reflexivity|].
  intros ->. discriminate E.
Qed.

(** X1. [getMongoCollection] connects once: a call that succeeds leaves a
    client, and a call made when a client exists returns at once, without
    reading the environment or requesting the secret; the call that creates
    the client makes exactly one request, for the secret whose name the
    environment gives. *)
Theorem getMongoCollection_connects_once (svc : Services) (w w1 : World) :
  Helpers.getMongoCollection svc w = (Ok tt, w1) ->
  mongoClient w1 = true /\
  Helpers.getMongoCollection svc w1 = (Ok tt, w1) /\
  (mongoClient w = true -> w1 = w) /\
  (mongoClient w = false ->
   exists name url,
     processEnv svc "MONGODB_CONNECTION_STRING_SECRET_NAME" = Some name /\
     name <> "" /\
     getSecret svc (clock w) name = SecretValue url /\
     w1 = set_mongoClient true (record_call (GetSecret name) w)).
Proof.
  intro H.
  assert (Hc : mongoClient w1 = true).
  { apply getMongoCollection_inv in H as (_ & _ & _ & _ & Hc). now apply Hc. }
  split; [exact Hc|]. split; [now apply getMongoCollection_connected|].
  unfold Helpers.getMongoCollection in H. split; intro Hw; rewrite Hw in H.
  - now injection H as <-.
  - destruct (Helpers.getStringFromEnv svc _) as [name|e] eqn:Hn; [|discriminate].
    apply getStringFromEnv_ok in Hn as [Hn Hne].
    destruct (getSecret svc (clock w) name) as [e| |url] eqn:Hs; try discriminate.
    injection H as <-. now exists name, url.
Qed.

(** X2. The ways [getMongoCollection] fails when no client exists: without
    the name of the secret in the environment (unset or empty) it throws
    before any request; when the secret is not found it throws after the
    one request; when the request is rejected it throws that error.  In
    every case no client is left, so that the next call tries again. *)
Theorem getMongoCollection_failures (svc : Services) (w : World) :
  mongoClient w = false ->
  let variable := "MONGODB_CONNECTION_STRING_SECRET_NAME" in
  (env_unset svc variable ->
   Helpers.getMongoCollection svc w
   = (Throw (Err "MONGODB_CONNECTION_STRING_SECRET_NAME is not set"), w)) /\
  (forall name,
     processEnv svc variable = Some name -> name <> "" ->
     let w1 := record_call (GetSecret name) w in
     mongoClient w1 = false /\
     (getSecret svc (clock w) name = SecretUndefined ->
      Helpers.getMongoCollection svc w
      = (Throw (Err "MongoDB connection string not found"), w1)) /\
     (forall e,
        getSecret svc (clock w) name = SecretRejects e ->
        Helpers.getMongoCollection svc w = (Throw e, w1))).
Proof.
  intros Hw variable. subst variable.
  unfold Helpers.getMongoCollection. rewrite Hw. split.
  - intro Hu. now rewrite (getStringFromEnv_unset _ _ Hu).
  - intros name Hn Hne. cbv zeta.
    rewrite (getStringFromEnv_set _ _ _ Hn Hne).
    split; [exact Hw|]. split.
    + now intros ->.
    + now intros e ->.
Qed.

(** ** Which requests a function makes *)

Lemma only_requests_refl (P : Call -> bool) (w : World) : only_requests P w w.
Proof.
  split; [|auto]. exists []. now rewrite app_nil_r.
Qed.

Lemma only_requests_trans (P : Call -> bool) (w w1 w2 : World) :
  only_requests P w w1 -> only_requests P w1 w2 -> only_requests P w w2.
Proof.
  intros [(l1 & Hc1 & Hp1) Hk1] [(l2 & Hc2 & Hp2) Hk2]. split; [|auto].
  exists (l1 ++ l2). split; [now rewrite Hc2, Hc1, app_assoc|].
  rewrite forallb_app, Hp1. cbn [andb].
  rewrite forallb_forall in *. intros c Hc. specialize (Hp2 c Hc).
  destruct (mongoClient w) eqn:Hw.
  - rewrite (Hk1 eq_refl) in Hp2. exact Hp2.
  - apply orb_true_iff in Hp2 as [Hp2|Hp2].
    + now rewrite Hp2.
    + apply andb_true_iff in Hp2 as [-> _]. cbn. now rewrite orb_true_r.
Qed.

Lemma only_requests_weaken (P Q : Call -> bool) (w w' : World) :
  (forall c, P c = true -> Q c = true) ->
  only_requests P w w' -> only_requests Q w w'.
Proof.
  intros Hpq [(l & Hc & Hp) Hk]. split; [|exact Hk].
  exists l. split; [exact Hc|].
  rewrite forallb_forall in *. intros c Hin. specialize (Hp c Hin).
  apply orb_true_iff in Hp as [Hp|Hp].
  - now rewrite (Hpq c Hp).
  - rewrite Hp. now rewrite orb_true_r.
Qed.

Lemma only_requests_record (P : Call -> bool) (c : Call) (w : World) :
  P c = true -> only_requests P w (record_call c w).
Proof.
  intro Hp. split; [|auto]. exists [c]. split; [reflexivity|].
  cbn [forallb]. now rewrite Hp.
Qed.

(** Once a client exists, none of the allowed requests is for the secret. *)
Lemma only_requests_connected (P : Call -> bool) (w w' : World) :
  only_requests P w w' -> mongoClient w = true ->
  exists later, calls w' = calls w ++ later /\ forallb P later = true.
Proof.
  intros [(l & Hc & Hp) _] Hw. exists l. split; [exact Hc|].
  rewrite forallb_forall in *. intros c Hin. specialize (Hp c Hin).
  rewrite Hw in Hp. cbn [negb] in Hp. now rewrite andb_false_r, orb_false_r in Hp.
Qed.

Lemma getMongoCollection_requests (svc : Services) (P : Call -> bool)
  (w w1 : World) (o : Outcome unit) :
  Helpers.getMongoCollection svc w = (o, w1) -> only_requests P w w1.
Proof.
  unfold Helpers.getMongoCollection. intro H.
  destruct (mongoClient w) eqn:Hw.
  - injection H as <- <-. apply only_requests_refl.
  - split; [|intro Hk; rewrite Hk in Hw; discriminate].
    rewrite Hw.
    destruct (Helpers.getStringFromEnv svc _) as [name|e].
    + exists [GetSecret name].
      destruct (getSecret svc (clock w) name); injection H as <- <-;
        (split; [reflexivity | cbn; now rewrite orb_true_r]).
    + injection H as <- <-. exists []. now rewrite app_nil_r.
Qed.

(* ================================================================== *)
(** * The backfill dispatcher: rejected batches and the answer *)
(* ================================================================== *)

Section DispatchRuns.
Variable svc : Services.

(** One turn of the loop of [sendToQueueInBatches]. *)
Lemma sendLoop_cons (document : Document) (rest : list Document)
  (batchSize : Z) (sentCount : nat) (batch : list Entry) (w : World) :
  Backfill.sendLoop svc (document :: rest) batchSize sentCount batch w =
  let entry := {| Id := uuid svc (uuids w);
                  MessageBody :=
                    JSON_stringify
                      (Backfill.changeEvent (uuid svc (S (uuids w))) document) |} in
  let w2 := draw_uuid (draw_uuid w) in
  if (Z.of_nat (length (batch ++ [entry])) =? batchSize)%Z then
    match Helpers.sendMessagesToQueue svc (batch ++ [entry]) w2 with
    | (Ok _, w3) =>
        Backfill.sendLoop svc rest batchSize
          (sentCount + length (batch ++ [entry])) [] w3
    | (Throw e, w3) => (Throw e, w3)
    end
  else Backfill.sendLoop svc rest batchSize sentCount (batch ++ [entry]) w2.
Proof.
  cbn [Backfill.sendLoop]. unfold bind at 1. unfold Backfill.randomUUID at 1.
  unfold bind at 1. unfold Backfill.randomUUID at 1. cbv zeta.
  cbn [uuids draw_uuid].
  destruct (Z.of_nat _ =? batchSize)%Z; [|reflexivity].
  unfold bind at 1.
  destruct (Helpers.sendMessagesToQueue svc _ _) as [[[]|e] w3]; reflexivity.
Qed.

(** The three ways a batch request ends. *)
Lemma sendMessagesToQueue_cases (batch : list Entry) (w : World) :
  (exists e,
     Helpers.getStringFromEnv svc "EVENTS_QUEUE_URL" = Throw e /\
     Helpers.sendMessagesToQueue svc batch w = (Throw e, w)) \/
  (exists url,
     Helpers.getStringFromEnv svc "EVENTS_QUEUE_URL" = Ok url /\
     ((exists e,
         sqs svc (clock w) url batch = Some e /\
         Helpers.sendMessagesToQueue svc batch w
         = (Throw e, record_call (SendMessageBatch url batch) w)) \/
      (sqs svc (clock w) url batch = None /\
       Helpers.sendMessagesToQueue svc batch w
       = (Ok tt, enqueue batch (record_call (SendMessageBatch url batch) w))))).
Proof.
  unfold Helpers.sendMessagesToQueue, bind, lift.
  destruct (Helpers.getStringFromEnv svc "EVENTS_QUEUE_URL") as [url|e].
  - right. exists url. split; [reflexivity|].
    destruct (sqs svc (clock w) url batch) as [e|]; [left|right]; eauto.
  - left. eauto.
Qed.

Lemma full_batch_quotient (n b r : nat) :
  0 < n -> S b = n -> (b + S r) / n = S (r / n).
Proof.
  intros Hn Hb. replace (b + S r) with (1 * n + r) by lia.
  rewrite Nat.div_add_l by lia. lia.
Qed.

(** Every run of the loop: [k] batches were accepted, their messages are
    in the queue, and the loop returns only when every full batch was. *)
Lemma sendLoop_run (n : nat) (documents : list Document) :
  0 < n ->
  forall sentCount batch w o w',
    length batch < n ->
    Backfill.sendLoop svc documents (Z.of_nat n) sentCount batch w = (o, w') ->
    exists k later,
      k <= (length batch + length documents) / n /\
      queue w' = queue w ++
                 firstn (n * k) (batch ++ entriesFor svc (uuids w) documents) /\
      collection w' = collection w /\
      mongoClient w' = mongoClient w /\
      calls w' = calls w ++ later /\
      forallb is_send later = true /\
      (forall m, o = Ok m ->
         k = (length batch + length documents) / n /\ m = sentCount + n * k /\
         length later = k) /\
      (forall e, o = Throw e -> k < (length batch + length documents) / n).
Proof.
  intro Hn. induction documents as [|document rest IH];
    intros sentCount batch w o w' Hb H.
  - cbn [Backfill.sendLoop] in H. injection H as <- <-. exists 0, [].
    cbn [length]. rewrite Nat.add_0_r, (Nat.div_small _ _ Hb), Nat.mul_0_r.
    cbn [firstn]. rewrite !app_nil_r.
    split; [|split; [|split; [|split; [|split; [|split; [|split]]]]]]; try reflexivity; try lia.
    + intros m Hm. injection Hm as <-. repeat split; lia.
    + intros e He. discriminate He.
  - rewrite sendLoop_cons in H. cbv zeta in H.
    set (entry := {| Id := uuid svc (uuids w); MessageBody := _ |}) in H.
    set (w2 := draw_uuid (draw_uuid w)) in H.
    assert (Hlen : length (batch ++ [entry]) = S (length batch))
      by (rewrite length_app; cbn [length]; lia).
    destruct (Z.of_nat (length (batch ++ [entry])) =? Z.of_nat n)%Z eqn:E.
    + apply Z.eqb_eq in E. apply Nat2Z.inj in E.
      assert (Hq : (length batch + length (document :: rest)) / n
                   = S (length rest / n))
        by (cbn [length]; apply full_batch_quotient; lia).
      rewrite Hq.
      destruct (sendMessagesToQueue_cases (batch ++ [entry]) w2)
        as [(e & _ & Hs) | (url & _ & [(e & _ & Hs) | (_ & Hs)])];
        rewrite Hs in H.
      * injection H as <- <-. exists 0, [].
        rewrite Nat.mul_0_r. cbn [firstn]. rewrite !app_nil_r.
        split; [|split; [|split; [|split; [|split; [|split; [|split]]]]]]; try reflexivity; try lia;
          intros ? Hx; try discriminate Hx; lia.
      * injection H as <- <-.
        exists 0, [SendMessageBatch url (batch ++ [entry])].
        rewrite Nat.mul_0_r. cbn [firstn]. rewrite !app_nil_r.
        split; [|split; [|split; [|split; [|split; [|split; [|split]]]]]]; try reflexivity; try lia;
          intros ? Hx; try discriminate Hx; lia.
      * apply IH in H; [|cbn [length]; lia].
        destruct H as (k & later & Hk & Hqueue & Hcoll & Hcli & Hcalls & Hsend
                       & Hok & Hthrow).
        cbn [length app Nat.add] in Hk, Hqueue, Hok, Hthrow.
        exists (S k), (SendMessageBatch url (batch ++ [entry]) :: later).
        split; [|split; [|split; [|split; [|split; [|split; [|split]]]]]]; try assumption.
        -- lia.
        -- rewrite Hqueue. cbn [queue enqueue record_call uuids].
           subst w2. cbn [queue uuids draw_uuid]. rewrite <- app_assoc. f_equal.
           replace (n * S k) with (length (batch ++ [entry]) + n * k)
             by (rewrite E, Nat.mul_succ_r; lia).
           rewrite <- firstn_app_exact. cbn [entriesFor].
           rewrite <- app_assoc. reflexivity.
        -- rewrite Hcalls. cbn [calls enqueue record_call]. subst w2.
           cbn [calls draw_uuid]. now rewrite <- app_assoc.
        -- intros m Hm. apply Hok in Hm as (-> & -> & Hl).
           cbn [length]. rewrite Hl, E, Nat.mul_succ_r. repeat split; lia.
        -- intros e He. apply Hthrow in He. lia.
    + apply Z.eqb_neq in E.
      assert (Hb' : length (batch ++ [entry]) < n) by (rewrite Hlen; lia).
      apply IH in H; [|exact Hb'].
      destruct H as (k & later & Hk & Hqueue & Hcoll & Hcli & Hcalls & Hsend
                     & Hok & Hthrow).
      assert (Hsum : length (batch ++ [entry]) + length rest
                     = length batch + length (document :: rest))
        by (rewrite Hlen; cbn [length]; lia).
      rewrite Hsum in *.
      exists k, later.
      split; [|split; [|split; [|split; [|split; [|split; [|split]]]]]]; try assumption.
      rewrite Hqueue. subst w2. cbn [queue uuids draw_uuid entriesFor].
      rewrite <- app_assoc. reflexivity.
Qed.

(** A run that returns has drawn two identifiers for every document. *)
Lemma sendLoop_uuids (documents : list Document) (batchSize : Z) :
  forall sentCount batch w m w',
    Backfill.sendLoop svc documents batchSize sentCount batch w = (Ok m, w') ->
    uuids w' = uuids w + 2 * length documents.
Proof.
  induction documents as [|document rest IH]; intros sentCount batch w m w' H.
  - cbn [Backfill.sendLoop] in H. injection H as _ <-. cbn [length]. lia.
  - rewrite sendLoop_cons in H. cbv zeta in H.
    destruct (Z.of_nat _ =? batchSize)%Z.
    + destruct (sendMessagesToQueue_cases
                  (batch ++ [{| Id := uuid svc (uuids w);
                                MessageBody :=
                                  JSON_stringify
                                    (Backfill.changeEvent (uuid svc (S (uuids w)))
                                       document) |}])
                  (draw_uuid (draw_uuid w)))
        as [(e & _ & Hs) | (url & _ & [(e & _ & Hs) | (_ & Hs)])];
        rewrite Hs in H; try discriminate.
      apply IH in H. rewrite H.
      cbn [uuids enqueue record_call draw_uuid length]. lia.
    + apply IH in H. rewrite H. cbn [uuids draw_uuid length]. lia.
Qed.

End DispatchRuns.

Section DispatchEdges.
Variable svc : Services.

Lemma sendLoop_without_url (n : nat) (e : JSError) (documents : list Document) :
  0 < n ->
  Helpers.getStringFromEnv svc "EVENTS_QUEUE_URL" = Throw e ->
  forall sentCount batch w,
    length batch < n ->
    exists w',
      Backfill.sendLoop svc documents (Z.of_nat n) sentCount batch w
      = (if length batch + length documents <? n then Ok sentCount else Throw e,
         w') /\
      queue w' = queue w /\ calls w' = calls w /\ collection w' = collection w.
Proof.
  intros Hn Henv. induction documents as [|document rest IH];
    intros sentCount batch w Hb.
  - exists w. cbn [Backfill.sendLoop length]. rewrite Nat.add_0_r.
    apply Nat.ltb_lt in Hb. rewrite Hb. auto.
  - rewrite sendLoop_cons. cbv zeta.
    set (entry := {| Id := uuid svc (uuids w); MessageBody := _ |}).
    assert (Hlen : length (batch ++ [entry]) = S (length batch))
      by (rewrite length_app; cbn [length]; lia).
    destruct (Z.of_nat (length (batch ++ [entry])) =? Z.of_nat n)%Z eqn:E.
    + apply Z.eqb_eq in E. apply Nat2Z.inj in E.
      unfold Helpers.sendMessagesToQueue, bind, lift. rewrite Henv.
      exists (draw_uuid (draw_uuid w)). cbn [length].
      replace (length batch + S (length rest) <? n) with false
        by (symmetry; apply Nat.ltb_ge; lia).
      auto.
    + apply Z.eqb_neq in E.
      destruct (IH sentCount (batch ++ [entry]) (draw_uuid (draw_uuid w)))
        as (w' & Hrun & Hq & Hc & Hcoll); [rewrite Hlen; lia|].
      exists w'. rewrite Hrun, Hlen. cbn [length].
      replace (S (length batch) + length rest)
        with (length batch + S (length rest)) by lia.
      auto.
Qed.

Lemma sendLoop_rejected (n : nat) (queueUrl : string) (e : JSError)
  (documents : list Document) :
  0 < n ->
  Helpers.getStringFromEnv svc "EVENTS_QUEUE_URL" = Ok queueUrl ->
  forall j sentCount batch w,
    length batch < n ->
    (forall i entries, i < j -> sqs svc (clock w + i) queueUrl entries = None) ->
    (forall entries, sqs svc (clock w + j) queueUrl entries = Some e) ->
    (j + 1) * n <= length batch + length documents ->
    exists w',
      Backfill.sendLoop svc documents (Z.of_nat n) sentCount batch w
      = (Throw e, w') /\
      queue w' = queue w ++
                 firstn (j * n) (batch ++ entriesFor svc (uuids w) documents) /\
      length (calls w') = length (calls w) + j + 1 /\
      collection w' = collection w.
Proof.
  intros Hn Henv. induction documents as [|document rest IH];
    intros j sentCount batch w Hb Hacc Hrej Hlen.
  - cbn [length] in Hlen. nia.
  - rewrite sendLoop_cons. cbv zeta.
    set (entry := {| Id := uuid svc (uuids w); MessageBody := _ |}).
    set (w2 := draw_uuid (draw_uuid w)).
    assert (Hl : length (batch ++ [entry]) = S (length batch))
      by (rewrite length_app; cbn [length]; lia).
    destruct (Z.of_nat (length (batch ++ [entry])) =? Z.of_nat n)%Z eqn:E.
    + apply Z.eqb_eq in E. apply Nat2Z.inj in E.
      unfold Helpers.sendMessagesToQueue, bind, lift. rewrite Henv.
      change (clock w2) with (clock w).
      destruct j as [|j].
      * rewrite <- (Nat.add_0_r (clock w)), Hrej.
        eexists. split; [reflexivity|].
        cbn [queue calls collection record_call firstn Nat.mul].
        subst w2. cbn [queue calls collection draw_uuid].
        rewrite app_nil_r, length_app. cbn [length]. repeat split; lia.
      * rewrite <- (Nat.add_0_r (clock w)), (Hacc 0) by lia.
        set (w3 := enqueue _ _).
        destruct (IH j (sentCount + length (batch ++ [entry])) [] w3)
          as (w' & Hrun & Hq & Hc & Hcoll).
        -- cbn [length]. lia.
        -- intros i entries Hi.
           replace (clock w3 + i) with (clock w + S i); [apply Hacc; lia|].
           subst w3 w2. unfold clock.
           cbn [calls enqueue record_call draw_uuid].
           rewrite length_app. cbn [length]. lia.
        -- intros entries.
           replace (clock w3 + j) with (clock w + S j); [apply Hrej|].
           subst w3 w2. unfold clock.
           cbn [calls enqueue record_call draw_uuid].
           rewrite length_app. cbn [length]. lia.
        -- cbn [length app Nat.add] in *. nia.
        -- exists w'. split; [exact Hrun|].
           cbn [app] in Hq. rewrite Hq, Hc, Hcoll.
           subst w3 w2.
           cbn [queue calls collection uuids enqueue record_call draw_uuid].
           rewrite length_app. cbn [length].
           repeat split; try lia.
           rewrite <- app_assoc. f_equal.
           replace (S j * n) with (length (batch ++ [entry]) + j * n)
             by (rewrite E; cbn [Nat.mul]; lia).
           rewrite <- firstn_app_exact. cbn [entriesFor].
           rewrite <- app_assoc. reflexivity.
    + apply Z.eqb_neq in E.
      destruct (IH j sentCount (batch ++ [entry]) w2)
        as (w' & Hrun & Hq & Hc & Hcoll).
      * rewrite Hl. lia.
      * exact Hacc.
      * exact Hrej.
      * rewrite Hl. cbn [length] in Hlen. lia.
      * exists w'. split; [exact Hrun|]. rewrite Hq, Hc, Hcoll.
        subst w2. cbn [queue calls collection uuids draw_uuid entriesFor].
        rewrite <- app_assoc. auto.
Qed.

Lemma sendLoop_never_full (batchSize : Z) (documents : list Document) :
  (batchSize <= 0)%Z ->
  forall sentCount batch w,
    exists w',
      Backfill.sendLoop svc documents batchSize sentCount batch w
      = (Ok sentCount, w') /\
      queue w' = queue w /\ calls w' = calls w /\ collection w' = collection w /\
      uuids w' = uuids w + 2 * length documents.
Proof.
  intro Hb. induction documents as [|document rest IH];
    intros sentCount batch w.
  - exists w. cbn [Backfill.sendLoop length]. repeat split; lia.
  - rewrite sendLoop_cons. cbv zeta.
    set (entry := {| Id := uuid svc (uuids w); MessageBody := _ |}).
    replace (Z.of_nat (length (batch ++ [entry])) =? batchSize)%Z with false
      by (symmetry; apply Z.eqb_neq; rewrite length_app; cbn [length]; lia).
    destruct (IH sentCount (batch ++ [entry]) (draw_uuid (draw_uuid w)))
      as (w' & Hrun & Hq & Hc & Hcoll & Hu).
    exists w'. split; [exact Hrun|]. rewrite Hq, Hc, Hcoll, Hu.
    cbn [queue calls collection uuids draw_uuid length]. repeat split; lia.
Qed.

Lemma entriesFor_ids (u : nat) (documents : list Document) (x : string) :
  In x (map Id (entriesFor svc u documents)) -> exists i, u <= i /\ x = uuid svc i.
Proof.
  revert u. induction documents as [|d r IH]; intros u H; [contradiction|].
  cbn [entriesFor map Id] in H. destruct H as [<-|H].
  - exists u. auto.
  - apply IH in H as (i & Hi & ->). exists i. split; [lia|reflexivity].
Qed.

Lemma entriesFor_NoDup (u : nat) (documents : list Document) :
  (forall a b, uuid svc a = uuid svc b -> a = b) ->
  NoDup (map Id (entriesFor svc u documents)).
Proof.
  intro Hinj. revert u. induction documents as [|d r IH]; intro u; [constructor|].
  cbn [entriesFor map Id]. constructor; [|apply IH].
  intro H. apply entriesFor_ids in H as (i & Hi & He).
  apply Hinj in He. lia.
Qed.

Lemma NoDup_firstn_of {A} (m : nat) (l : list A) : NoDup l -> NoDup (firstn m l).
Proof.
  revert l. induction m as [|m IH]; intros [|x l] H; cbn [firstn];
    try constructor.
  - inversion H as [|? ? Hx Hl]; subst. intro Hin. apply Hx.
    rewrite <- (firstn_skipn m l). apply in_or_app. now left.
  - inversion H; subst. now apply IH.
Qed.

Lemma length_entriesFor (u : nat) (documents : list Document) :
  length (entriesFor svc u documents) = length documents.
Proof.
  revert u. induction documents as [|d r IH]; intro u; [reflexivity|].
  cbn [entriesFor length]. now rewrite IH.
Qed.

Lemma readDocuments_frame (count : Num) (w w1 : World) (o : Outcome (list Document)) :
  Backfill.readDocuments svc count w = (o, w1) ->
  collection w1 = collection w /\ queue w1 = queue w /\ uuids w1 = uuids w /\
  only_requests is_find w w1.
Proof.
  unfold Backfill.readDocuments, bind at 1. intro H.
  destruct (Helpers.getMongoCollection svc w) as [[[]|e] wc] eqn:Hc.
  - pose proof (getMongoCollection_requests svc is_find _ _ _ Hc) as Hreq.
    apply getMongoCollection_inv in Hc as (Hcoll & Hq & Hu & _).
    assert (Hw1 : w1 = record_call (Find count) wc).
    { unfold bind, Mongo.find_candidates, ret in H.
      destruct (storeFault svc (clock wc)); [now injection H as _ <-|].
      destruct count as [|n|negative]; [|now injection H as _ <-|];
        destruct (limitNonFinite svc _ _); now injection H as _ <-. }
    subst w1. cbn [collection queue uuids record_call].
    repeat split; try assumption.
    + destruct Hreq as [(l & Hl & Hp) _]. exists (l ++ [Find count]).
      cbn [calls record_call]. rewrite Hl, app_assoc. split; [reflexivity|].
      rewrite forallb_app, Hp. reflexivity.
    + intro Hk. destruct Hreq as [_ Hk']. exact (Hk' Hk).
  - injection H as _ <-.
    pose proof (getMongoCollection_requests svc is_find _ _ _ Hc) as Hreq.
    apply getMongoCollection_inv in Hc as (Hcoll & Hq & Hu & _). auto.
Qed.

Lemma backfill_handler_unfold (event : APIGatewayEvent.t) (w : World) :
  Backfill.handler svc event w =
  match Backfill.readDocuments svc (Backfill.limitOfCount (count_of event)) w with
  | (Throw e, w1) => (Throw e, w1)
  | (Ok documents, w1) =>
      match Backfill.sendToQueueInBatches svc documents
              Backfill.defaultBatchSize w1 with
      | (Throw e, w2) => (Throw e, w2)
      | (Ok sentCount, w2) =>
          (Ok (backfillResponse (length documents) sentCount), w2)
      end
  end.
Proof.
  unfold Backfill.handler, try_catch, bind at 1. fold (count_of event).
  destruct (Backfill.readDocuments svc _ w) as [[documents|e] w1]; [|reflexivity].
  unfold bind at 1.
  destruct (Backfill.sendToQueueInBatches svc documents _ w1) as [[sent|e] w2];
    reflexivity.
Qed.

End DispatchEdges.

Section DispatchProperties.
Variable svc : Services.

Lemma sendLoop_requests (documents : list Document) (w1 w2 : World)
  (o : Outcome nat) :
  Backfill.sendToQueueInBatches svc documents Backfill.defaultBatchSize w1
  = (o, w2) ->
  exists k,
    k <= length documents / 10 /\
    queue w2 = queue w1 ++
               entriesFor svc (uuids w1) (firstn (10 * k) documents) /\
    collection w2 = collection w1 /\
    only_requests is_send w1 w2 /\
    (forall m, o = Ok m -> k = length documents / 10 /\ m = 10 * k).
Proof.
  unfold Backfill.sendToQueueInBatches. change Backfill.defaultBatchSize with (Z.of_nat 10).
  intro H. apply sendLoop_run in H; [|lia|cbn [length]; lia].
  destruct H as (k & later & Hk & Hq & Hcoll & Hcli & Hcalls & Hsend & Hok & _).
  cbn [length app Nat.add] in *. exists k.
  split; [exact Hk|]. split; [now rewrite entriesFor_firstn|].
  split; [exact Hcoll|]. split.
  - split; [|intro Hc; now rewrite Hcli].
    exists later. split; [exact Hcalls|].
    rewrite forallb_forall in *. intros c Hin. now rewrite (Hsend c Hin).
  - intros m Hm. apply Hok in Hm as (-> & -> & _). auto.
Qed.

(** X3. A rejected batch stops the dispatch without undoing it.  When the
    queue accepts the first [j] batch requests and rejects the next one,
    [sendToQueueInBatches] throws the error of the rejected request: the
    messages of the first [j] batches stay in the queue, the documents
    after them are not sent, and the caller gets no count. *)
Theorem sendToQueueInBatches_stops_at_rejected_batch
  (queueUrl : string) (documents : list Document) (batchSize : Z)
  (j : nat) (e : JSError) (w : World) :
  (0 < batchSize)%Z ->
  Helpers.getStringFromEnv svc "EVENTS_QUEUE_URL" = Ok queueUrl ->
  (forall i entries, i < j -> sqs svc (clock w + i) queueUrl entries = None) ->
  (forall entries, sqs svc (clock w + j) queueUrl entries = Some e) ->
  (j + 1) * Z.to_nat batchSize <= length documents ->
  exists w',
    Backfill.sendToQueueInBatches svc documents batchSize w = (Throw e, w') /\
    queue w' = queue w ++
               entriesFor svc (uuids w)
                 (firstn (j * Z.to_nat batchSize) documents) /\
    length (calls w') = length (calls w) + j + 1 /\
    collection w' = collection w.
Proof.
  intros Hpos Henv Hacc Hrej Hlen.
  destruct (sendLoop_rejected svc (Z.to_nat batchSize) queueUrl e documents
              ltac:(lia) Henv j 0 [] w ltac:(cbn [length]; lia) Hacc Hrej Hlen)
    as (w' & Hrun & Hq & Hc & Hcoll).
  exists w'. unfold Backfill.sendToQueueInBatches.
  replace batchSize with (Z.of_nat (Z.to_nat batchSize)) at 1 by lia.
  cbn [app] in Hq. rewrite entriesFor_firstn. auto.
Qed.

(** X4. The address of the queue is read only when a batch is full.  When
    [EVENTS_QUEUE_URL] is not set (or empty), the backfill handler still
    answers 200 with [sent] 0 for fewer than 10 documents read; from 10
    documents on it throws [EVENTS_QUEUE_URL is not set].  In both cases no
    request is made to the queue. *)
Theorem backfill_without_queue_url
  (event : APIGatewayEvent.t) (documents : list Document) (w w1 : World) :
  env_unset svc "EVENTS_QUEUE_URL" ->
  Backfill.readDocuments svc (Backfill.limitOfCount (count_of event)) w
  = (Ok documents, w1) ->
  exists w',
    Backfill.handler svc event w
    = (if length documents <? 10
       then Ok (backfillResponse (length documents) 0)
       else Throw (Err "EVENTS_QUEUE_URL is not set"), w') /\
    queue w' = queue w /\ calls w' = calls w1.
Proof.
  intros Hu Hread. rewrite backfill_handler_unfold, Hread.
  apply getStringFromEnv_unset in Hu.
  destruct (sendLoop_without_url svc 10 _ documents ltac:(lia) Hu 0 [] w1
              ltac:(cbn [length]; lia)) as (w' & Hrun & Hq & Hc & _).
  unfold Backfill.sendToQueueInBatches.
  change Backfill.defaultBatchSize with (Z.of_nat 10). rewrite Hrun.
  cbn [length Nat.add]. apply readDocuments_frame in Hread as (_ & Hq1 & _).
  exists w'. rewrite Hq, Hq1.
  destruct (length documents <? 10); auto.
Qed.

(** X5. A batch is sent when its length equals the batch size, so with a
    batch size of zero or less [sendToQueueInBatches] sends nothing
    whatever the number of documents: it returns 0 without any request,
    having drawn two identifiers for every document. *)
Theorem sendToQueueInBatches_nonpositive_batch_size
  (documents : list Document) (batchSize : Z) (w : World) :
  (batchSize <= 0)%Z ->
  exists w',
    Backfill.sendToQueueInBatches svc documents batchSize w = (Ok 0, w') /\
    queue w' = queue w /\ calls w' = calls w /\
    uuids w' = uuids w + 2 * length documents.
Proof.
  intro Hb.
  destruct (sendLoop_never_full svc batchSize documents Hb 0 [] w)
    as (w' & Hrun & Hq & Hc & _ & Hu).
  exists w'. auto.
Qed.

(** X6. Every entry is given identifiers of its own: the entry of the
    [i]th document has the [2i]th identifier drawn as its [Id].  So when
    [randomUUID] never gives the same identifier twice, no two messages
    that [sendToQueueInBatches] puts in the queue share an [Id], whether
    the run ends normally or with a rejected batch. *)
Theorem batch_entry_ids_are_distinct
  (documents : list Document) (batchSize : Z) (w : World) :
  (0 < batchSize)%Z ->
  exists sent,
    queue (snd (Backfill.sendToQueueInBatches svc documents batchSize w))
    = queue w ++ sent /\
    (forall i entry, nth_error sent i = Some entry ->
                     Id entry = uuid svc (uuids w + 2 * i)) /\
    ((forall a b, uuid svc a = uuid svc b -> a = b) -> NoDup (map Id sent)).
Proof.
  intros Hpos. unfold Backfill.sendToQueueInBatches.
  destruct (Backfill.sendLoop svc documents batchSize 0 [] w) as [o w'] eqn:H.
  replace batchSize with (Z.of_nat (Z.to_nat batchSize)) in H by lia.
  apply sendLoop_run in H; [|lia|cbn [length]; lia].
  destruct H as (k & later & _ & Hq & _). cbn [app snd] in *.
  eexists. split; [exact Hq|]. split.
  - intros i entry Hi.
    assert (Hnth : nth_error (entriesFor svc (uuids w) documents) i = Some entry).
    { rewrite nth_error_firstn in Hi.
      destruct (i <? Z.to_nat batchSize * k); [exact Hi | discriminate Hi]. }
    clear Hi Hq. revert i Hnth. generalize (uuids w).
    induction documents as [|d r IH]; intros u i Hnth.
    + destruct i; discriminate.
    + destruct i as [|i]; cbn [entriesFor nth_error] in Hnth.
      * injection Hnth as <-. cbn [Id]. f_equal. lia.
      * apply IH in Hnth. rewrite Hnth. f_equal. lia.
  - intro Hinj. rewrite <- firstn_map. apply NoDup_firstn_of.
    now apply entriesFor_NoDup.
Qed.

(** X7. What a 200 answer of the backfill handler says.  Whenever the
    handler answers, [read] is the number of documents [readDocuments]
    returned and [sent] is the largest multiple of 10 not above it; the
    queue has received the messages of exactly the first [sent] documents,
    and the last [read mod 10] documents were left out. *)
Theorem backfill_answer_counts
  (event : APIGatewayEvent.t) (w w' : World) (response : HttpResponse.t) :
  Backfill.handler svc event w = (Ok response, w') ->
  exists documents w1,
    Backfill.readDocuments svc (Backfill.limitOfCount (count_of event)) w
    = (Ok documents, w1) /\
    let read := length documents in
    let sent := 10 * (read / 10) in
    response = backfillResponse read sent /\
    queue w' = queue w ++ entriesFor svc (uuids w) (firstn sent documents) /\
    read - sent = read mod 10 /\
    collection w' = collection w.
Proof.
  rewrite backfill_handler_unfold.
  destruct (Backfill.readDocuments svc _ w) as [[documents|e] w1] eqn:Hread;
    [|discriminate].
  destruct (Backfill.sendToQueueInBatches svc documents _ w1) as [[m|e] w2] eqn:Hsend;
    [|discriminate].
  intro H. injection H as <- <-.
  apply sendLoop_requests in Hsend as (k & _ & Hq & Hcoll & _ & Hok).
  destruct (Hok m eq_refl) as [-> ->].
  apply readDocuments_frame in Hread as Hframe.
  destruct Hframe as (Hcoll1 & Hq1 & Hu1 & _).
  exists documents, w1. split; [reflexivity|]. cbv zeta.
  split; [reflexivity|]. split; [now rewrite Hq, Hq1, Hu1|].
  split; [|now rewrite Hcoll, Hcoll1].
  pose proof (Nat.div_mod_eq (length documents) 10). lia.
Qed.

(** X8. What the backfill handler never does.  It never changes the
    collection and never takes a message out of the queue; its requests
    are the request for the secret (only when no client exists), the one
    [find] and the batch requests, never a request to the model or a write
    to the collection.  It has no error response: it answers 200 or throws
    the error of the step that failed, unchanged. *)
Theorem backfill_handler_frame (event : APIGatewayEvent.t) (w : World) :
  let run := Backfill.handler svc event w in
  let limit := Backfill.limitOfCount (count_of event) in
  collection (snd run) = collection w /\
  (exists sent, queue (snd run) = queue w ++ sent) /\
  only_requests (fun c => is_find c || is_send c) w (snd run) /\
  (forall response,
     fst run = Ok response -> HttpResponse.statusCode response = 200%Z) /\
  (forall e,
     fst run = Throw e ->
     (exists w1, Backfill.readDocuments svc limit w = (Throw e, w1)) \/
     (exists documents w1 w2,
        Backfill.readDocuments svc limit w = (Ok documents, w1) /\
        Backfill.sendToQueueInBatches svc documents Backfill.defaultBatchSize w1
        = (Throw e, w2))).
Proof.
  cbv zeta. rewrite backfill_handler_unfold.
  destruct (Backfill.readDocuments svc _ w) as [[documents|e] w1] eqn:Hread.
  - apply readDocuments_frame in Hread as Hframe.
    destruct Hframe as (Hcoll1 & Hq1 & _ & Hreq1).
    assert (Hreq1' : only_requests (fun c => is_find c || is_send c) w w1).
    { apply (only_requests_weaken is_find); [|exact Hreq1].
      intros c ->. reflexivity. }
    destruct (Backfill.sendToQueueInBatches svc documents _ w1) as [o w2] eqn:Hsend.
    apply sendLoop_requests in Hsend as Hrun.
    destruct Hrun as (k & _ & Hq & Hcoll & Hreq2 & _).
    assert (Hreq : only_requests (fun c => is_find c || is_send c) w w2).
    { apply (only_requests_trans _ _ w1); [exact Hreq1'|].
      apply (only_requests_weaken is_send); [|exact Hreq2].
      intros c ->. apply orb_true_r. }
    destruct o as [m|e]; cbn [fst snd].
    + split; [now rewrite Hcoll|]. split; [eexists; now rewrite Hq, Hq1|].
      split; [exact Hreq|]. split.
      * intros response Hr. now injection Hr as <-.
      * intros e He. discriminate He.
    + split; [now rewrite Hcoll|]. split; [eexists; now rewrite Hq, Hq1|].
      split; [exact Hreq|]. split.
      * intros response Hr. discriminate Hr.
      * intros e' He. injection He as <-. right. now exists documents, w1, w2.
  - apply readDocuments_frame in Hread as Hframe.
    destruct Hframe as (Hcoll1 & Hq1 & _ & Hreq1). cbn [fst snd].
    split; [exact Hcoll1|]. split; [exists []; now rewrite app_nil_r|].
    split.
    + apply (only_requests_weaken is_find); [|exact Hreq1].
      intros c ->. reflexivity.
    + split.
      * intros response Hr. discriminate Hr.
      * intros e' He. injection He as <-. left. now exists w1.
Qed.

End DispatchProperties.

(* ================================================================== *)
(** * The queue consumer: errors, requests and what is stored *)
(* ================================================================== *)

Lemma destructure_throw (key : string) (v : JSValue) (e : JSError) :
  destructure key v = Throw e -> e = TypeError /\ is_nullish v = true.
Proof. destruct v; cbn; intro H; try discriminate; now injection H as <-. Qed.

Lemma destructure_ok (key : string) (v x : JSValue) :
  destructure key v = Ok x -> x = js_get key v /\ is_nullish v = false.
Proof. destruct v; cbn; intro H; try discriminate; now injection H as <-. Qed.

Lemma rest_without_throw (key : string) (v : JSValue) (e : JSError) :
  Embed.rest_without key v = Throw e -> e = TypeError /\ is_nullish v = true.
Proof. destruct v; cbn; intro H; try discriminate; now injection H as <-. Qed.

Lemma rest_without_ok (key : string) (v : JSValue) (d : Document) :
  Embed.rest_without key v = Ok d -> is_nullish v = false.
Proof. destruct v; cbn; intro H; try discriminate; reflexivity. Qed.

(** A parsed text is never [undefined]. *)
Lemma parse_value_defined (f : nat) (t r : text) :
  parse_value f t <> Some (VUndefined, r).
Proof.
  destruct f as [|f]; [discriminate|]. rewrite parse_value_unfold. intro H.
  unfold literal in H.
  repeat match type of H with
         | context [if ?b then _ else _] => destruct b
         | context [match ?x with _ => _ end] => destruct x
         end; discriminate.
Qed.

Lemma JSON_parse_defined (s : string) : JSON_parse s <> Some VUndefined.
Proof.
  unfold JSON_parse. intro H.
  destruct (parse_value _ _) as [[v r]|] eqn:E; [|discriminate].
  destruct (skip_ws r); [|discriminate]. injection H as ->.
  now apply parse_value_defined in E.
Qed.

(** When the event cannot be read: the body is not JSON, or one of the
    values the handler takes apart is [null] or [undefined]. *)
Lemma extractEvent_cases (body : string) :
  match JSON_parse body with
  | None =>
      Embed.extractEvent body
      = Throw (ErrCause "Unable to parse SQS record" SyntaxError)
  | Some payload =>
      let detail := js_get "detail" payload in
      if is_nullish payload || is_nullish detail ||
         is_nullish (js_get "documentKey" detail) ||
         is_nullish (js_get "fullDocument" detail)
      then Embed.extractEvent body = Throw TypeError
      else exists document,
             Embed.rest_without "_id" (js_get "fullDocument" detail) = Ok document /\
             Embed.extractEvent body
             = Ok (js_get "_id" (js_get "documentKey" detail), document)
  end.
Proof.
  unfold Embed.extractEvent, Embed.parseBody, JSON_parse_or_throw.
  destruct (JSON_parse body) as [payload|]; [|reflexivity].
  cbn [Embed.obind]. cbv zeta. unfold Embed.extractDetail.
  destruct (destructure "detail" payload) as [detail|e] eqn:Hd.
  - apply destructure_ok in Hd as [-> Hp]. rewrite Hp. cbn [orb Embed.obind].
    destruct (destructure "documentKey" (js_get "detail" payload))
      as [documentKey|e] eqn:Hk.
    + apply destructure_ok in Hk as [-> Hdn]. rewrite Hdn. cbn [orb Embed.obind].
      destruct (destructure "_id" (js_get "documentKey" (js_get "detail" payload)))
        as [id|e] eqn:Hi.
      * apply destructure_ok in Hi as [-> Hkn]. rewrite Hkn. cbn [orb Embed.obind].
        destruct (Embed.rest_without "_id" _) as [document|e] eqn:Hr.
        -- rewrite (rest_without_ok _ _ _ Hr). cbn [Embed.obind]. eauto.
        -- apply rest_without_throw in Hr as [-> ->]. reflexivity.
      * apply destructure_throw in Hi as [-> ->]. reflexivity.
    + apply destructure_throw in Hk as [-> ->]. reflexivity.
  - apply destructure_throw in Hd as [-> ->]. reflexivity.
Qed.

Lemma calls_since_app (w w' : World) (later : list Call) :
  calls w' = calls w ++ later -> calls_since w w' = later.
Proof.
  intro H. unfold calls_since. rewrite H, skipn_app, skipn_all, Nat.sub_diag.
  reflexivity.
Qed.

Lemma assoc_js_set_other (k key : string) (v : JSValue) (d : Document) :
  k <> key -> assoc k (js_set key v d) = assoc k d.
Proof.
  intro Hk. induction d as [|[k' v'] d IH]; cbn [js_set assoc].
  - destruct (String.eqb k key) eqn:E; [|reflexivity].
    apply String.eqb_eq in E. contradiction.
  - destruct (String.eqb key k') eqn:E; cbn [assoc].
    + apply String.eqb_eq in E. subst k'.
      destruct (String.eqb k key) eqn:E2; [|reflexivity].
      apply String.eqb_eq in E2. contradiction.
    + now rewrite IH.
Qed.

Lemma assoc_js_omit_same (k : string) (d : Document) : assoc k (js_omit k d) = None.
Proof.
  unfold js_omit. induction d as [|[k' v'] d IH]; [reflexivity|].
  cbn [filter fst]. destruct (String.eqb k k') eqn:E; cbn [negb]; [exact IH|].
  cbn [assoc]. now rewrite E.
Qed.

Lemma assoc_js_omit_other (k key : string) (d : Document) :
  k <> key -> assoc k (js_omit key d) = assoc k d.
Proof.
  intro Hk. unfold js_omit. induction d as [|[k' v'] d IH]; [reflexivity|].
  cbn [filter fst]. destruct (String.eqb key k') eqn:E; cbn [negb assoc].
  - apply String.eqb_eq in E. subst k'.
    destruct (String.eqb k key) eqn:E2; [|exact IH].
    apply String.eqb_eq in E2. contradiction.
  - now rewrite IH.
Qed.

Lemma has_field_bson_document (k : string) (d : Document) :
  has_field k (bson_document d) = has_field k d.
Proof.
  unfold has_field, bson_document.
  induction d as [|[k' v'] d IH]; [reflexivity|].
  cbn [map assoc fst snd]. destruct (String.eqb k k'); [reflexivity|exact IH].
Qed.

(** The decimal form of a number starts with a digit. *)
Lemma dec_aux_head (fuel n : nat) (acc : text) :
  exists d rest, d < 10 /\ dec_aux (S fuel) n acc = digit_char d :: rest.
Proof.
  revert n acc. induction fuel as [|f IH]; intros n acc.
  - cbn [dec_aux]. exists (n mod 10).
    pose proof (Nat.mod_upper_bound n 10 ltac:(lia)).
    destruct (n / 10 =? 0); eauto.
  - change (dec_aux (S (S f)) n acc)
      with (if n / 10 =? 0 then digit_char (n mod 10) :: acc
            else dec_aux (S f) (n / 10) (digit_char (n mod 10) :: acc)).
    destruct (n / 10 =? 0); [|apply IH].
    exists (n mod 10).
    pose proof (Nat.mod_upper_bound n 10 ltac:(lia)). eauto.
Qed.

Lemma dec_is_not_id (n : nat) : String.eqb "_id" (dec n) = false.
Proof.
  unfold dec. destruct (dec_aux_head n n []) as (d & rest & Hd & ->).
  do 10 (destruct d as [|d]; [reflexivity|]). lia.
Qed.

Lemma assoc_combine_none (k : string) (keys : list string) (vals : list JSValue) :
  (forall k', In k' keys -> String.eqb k k' = false) ->
  assoc k (combine keys vals) = None.
Proof.
  revert vals. induction keys as [|k' keys IH]; intros vals H; [reflexivity|].
  destruct vals as [|v vals]; [reflexivity|]. cbn [combine assoc].
  rewrite (H k') by now left. apply IH. intros k'' Hin. apply H. now right.
Qed.

Lemma indexed_has_no_id (items : list JSValue) :
  assoc "_id" (Embed.indexed items) = None.
Proof.
  unfold Embed.indexed. apply assoc_combine_none.
  intros k' Hin. apply in_map_iff in Hin as (n & <- & _). apply dec_is_not_id.
Qed.

Lemma rest_without_id (v : JSValue) (d : Document) :
  Embed.rest_without "_id" v = Ok d -> assoc "_id" d = None.
Proof.
  destruct v; cbn [Embed.rest_without]; intro H; try discriminate;
    injection H as <-; try reflexivity.
  - apply indexed_has_no_id.
  - apply indexed_has_no_id.
  - apply assoc_js_omit_same.
Qed.

Lemma extractEvent_no_id (body : string) (id : JSValue) (document : Document) :
  Embed.extractEvent body = Ok (id, document) -> assoc "_id" document = None.
Proof.
  intro H. pose proof (extractEvent_cases body) as Hc.
  destruct (JSON_parse body) as [payload|]; [|congruence].
  cbv zeta in Hc. destruct (_ || _); [congruence|].
  destruct Hc as (d & Hr & He). rewrite H in He. injection He as _ ->.
  now apply rest_without_id in Hr.
Qed.

Section ConsumerRuns.
Variable svc : Services.
Variable consts : Constants.

Lemma replace_by_id_length (hex : string) (replacement : Document)
  (docs docs' : list Document) :
  replace_by_id hex replacement docs = Some docs' -> length docs' = length docs.
Proof.
  revert docs'. induction docs as [|d r IH]; intros docs' H; [discriminate|].
  cbn [replace_by_id] in H. destruct (has_id hex d).
  - now injection H as <-.
  - destruct (replace_by_id hex replacement r) as [r'|]; [|discriminate].
    injection H as <-. cbn [length]. now rewrite (IH r' eq_refl).
Qed.

Lemma replace_by_id_split (hex : string) (replacement : Document)
  (docs docs' : list Document) :
  replace_by_id hex replacement docs = Some docs' ->
  exists before old after,
    docs = before ++ old :: after /\
    docs' = before ++ (("_id", VObjectId hex) :: replacement) :: after /\
    has_id hex old = true /\
    forallb (fun d => negb (has_id hex d)) before = true.
Proof.
  revert docs'. induction docs as [|d r IH]; intros docs' H; [discriminate|].
  cbn [replace_by_id] in H. destruct (has_id hex d) eqn:Hd.
  - injection H as <-. now exists [], d, r.
  - destruct (replace_by_id hex replacement r) as [r'|]; [|discriminate].
    injection H as <-.
    destruct (IH r' eq_refl) as (before & old & after & -> & -> & Hold & Hb).
    exists (d :: before), old, after. cbn [app forallb]. now rewrite Hd, Hb.
Qed.

Lemma replaceOne_calls (oid : option string) (replacement : Document)
  (w w' : World) (o : Outcome nat) :
  Mongo.replaceOne svc oid replacement w = (o, w') ->
  (exists modified, calls w' = calls w ++ [ReplaceOne oid replacement modified]) /\
  uuids w' = uuids w /\ queue w' = queue w /\ mongoClient w' = mongoClient w /\
  length (collection w') = length (collection w).
Proof.
  unfold Mongo.replaceOne. intro H.
  destruct (storeFault svc (clock w)).
  { injection H as <- <-. repeat split. eexists. reflexivity. }
  destruct oid as [hex|].
  - destruct (replace_by_id hex _ (collection w)) as [docs|] eqn:E;
      injection H as <- <-; repeat split; try (eexists; reflexivity).
    cbn [collection set_collection]. now apply replace_by_id_length in E.
  - injection H as <- <-. repeat split. eexists. reflexivity.
Qed.

Lemma getMongoCollection_secret (w wc : World) (o : Outcome unit) :
  Helpers.getMongoCollection svc w = (o, wc) ->
  exists secret,
    calls wc = calls w ++ secret /\
    forallb (fun c => is_get_secret c && negb (mongoClient w)) secret = true /\
    length secret <= 1.
Proof.
  unfold Helpers.getMongoCollection. intro Hc. destruct (mongoClient w).
  - injection Hc as _ <-. exists []. rewrite app_nil_r. auto.
  - destruct (Helpers.getStringFromEnv svc _) as [name|e].
    + exists [GetSecret name].
      destruct (getSecret svc (clock w) name); injection Hc as _ <-; auto.
    + injection Hc as _ <-. exists []. rewrite app_nil_r. auto.
Qed.

(** The requests of [writeEmbedding]: the secret when no client exists,
    then at most one replacement, of the document given, under the key
    that [new ObjectId] makes of the id. *)
Lemma writeEmbedding_run (id : JSValue) (document : Document)
  (w w' : World) (o : Outcome unit) :
  Embed.writeEmbedding svc id document w = (o, w') ->
  uuids w' = uuids w /\ queue w' = queue w /\
  length (collection w') = length (collection w) /\
  (mongoClient w = true -> mongoClient w' = true) /\
  exists secret,
    forallb (fun c => is_get_secret c && negb (mongoClient w)) secret = true /\
    length secret <= 1 /\
    (calls w' = calls w ++ secret \/
     exists oid modified,
       new_ObjectId id = Ok oid /\
       calls w' = calls w ++ secret ++ [ReplaceOne oid document modified]).
Proof.
  rewrite writeEmbedding_unfold. intro H.
  destruct (Helpers.getMongoCollection svc w) as [oc wc] eqn:Hc.
  pose proof (getMongoCollection_secret _ _ _ Hc) as Hsecret.
  destruct Hsecret as (secret & Hcalls & Hsec & Hlen).
  pose proof (getMongoCollection_requests svc (fun _ => false) _ _ _ Hc) as [_ Hk].
  apply getMongoCollection_inv in Hc as (Hcoll & Hq & Hu & _ & _).
  destruct oc as [[]|e].
  - destruct (new_ObjectId id) as [oid|e] eqn:Hid.
    + destruct (Mongo.replaceOne svc oid document wc) as [o2 w2] eqn:Hr.
      apply replaceOne_calls in Hr as ((modified & Hc2) & Hu2 & Hq2 & Hk2 & Hl2).
      assert (Hw : w' = w2) by (destruct o2 as [m|e]; [destruct (m =? 1)|];
                                now injection H as _ <-).
      subst w'. rewrite Hu2, Hq2, Hl2, Hk2, Hu, Hq, Hcoll.
      repeat split; auto.
      exists secret. repeat split; auto. right. exists oid, modified.
      split; [reflexivity|]. now rewrite Hc2, Hcalls, app_assoc.
    + injection H as _ <-. rewrite Hu, Hq, Hcoll. repeat split; auto.
      exists secret. auto.
  - injection H as _ <-. rewrite Hu, Hq, Hcoll. repeat split; auto.
    exists secret. auto.
Qed.

End ConsumerRuns.

Section ConsumerProperties.
Variable svc : Services.
Variable consts : Constants.

(** X9. Every way [recordHandler] fails.  The error is the time error
    (exactly when less than 1000 ms remain); or [Unable to parse SQS
    record] for a body that is not JSON; or the bare TypeError of taking
    the payload apart; or [Unble to create embedding] or [Unable to write
    embedding], each with the error of the failed step kept as its cause.
    In the first three cases nothing was requested. *)
Theorem recordHandler_errors
  (record : SQSRecord.t) (ctx : Context) (w w' : World) (e : JSError) :
  Embed.recordHandler svc consts record ctx w = (Throw e, w') ->
  let body := SQSRecord.body record in
  let late := (getRemainingTimeInMillis ctx (clock w) <? Embed.timeThreshold)%Z in
  (late = true /\
   e = Err "Time is about to expire, stopping processing" /\ w' = w) \/
  (late = false /\ JSON_parse body = None /\
   e = ErrCause "Unable to parse SQS record" SyntaxError /\ w' = w) \/
  (late = false /\ JSON_parse body <> None /\ e = TypeError /\ w' = w) \/
  (late = false /\
   exists id document cause,
     Embed.extractEvent body = Ok (id, document) /\
     Helpers.getEmbedding svc consts (js_get "plot" (VObj document)) w
     = (Throw cause, w') /\
     e = ErrCause "Unble to create embedding" cause) \/
  (late = false /\
   exists id document embedding wa cause,
     Embed.extractEvent body = Ok (id, document) /\
     Helpers.getEmbedding svc consts (js_get "plot" (VObj document)) w
     = (Ok embedding, wa) /\
     Embed.writeEmbedding svc id (replacementOf document embedding) wa
     = (Throw cause, w') /\
     e = ErrCause "Unable to write embedding" cause).
Proof.
  rewrite recordHandler_unfold. cbv zeta. intro H.
  destruct (_ <? _)%Z.
  { injection H as <- <-. left. auto. }
  right.
  pose proof (extractEvent_cases (SQSRecord.body record)) as Hc.
  destruct (Embed.extractEvent (SQSRecord.body record)) as [[id document]|e1] eqn:He.
  - right. right. unfold Helpers.getEmbedding.
    destruct (Helpers.createEmbedding svc consts _ w) as [[embedding|e2] wa] eqn:Hemb.
    + destruct (Embed.writeEmbedding svc id _ wa) as [[u|e3] wb] eqn:Hw;
        [discriminate|].
      injection H as <- <-. right. split; [reflexivity|].
      now exists id, document, embedding, wa, e3.
    + injection H as <- <-. left. split; [reflexivity|].
      now exists id, document, e2.
  - injection H as <- <-.
    destruct (JSON_parse (SQSRecord.body record)) as [payload|].
    + right. left. cbv zeta in Hc. destruct (_ || _).
      * injection Hc as ->. repeat split. discriminate.
      * destruct Hc as (d & _ & Hc). discriminate Hc.
    + left. injection Hc as ->. auto.
Qed.

(** X10. An event that lacks what the handler takes apart fails at once.
    With time remaining and a body that is JSON, [recordHandler] throws the
    bare TypeError, without any request, exactly when the payload, its
    [detail], [detail.documentKey] or [detail.fullDocument] is [null] or
    missing, as for the change event of a deleted document. *)
Theorem malformed_event_fails_before_any_request
  (record : SQSRecord.t) (ctx : Context) (w : World) (payload : JSValue) :
  (Embed.timeThreshold <= getRemainingTimeInMillis ctx (clock w))%Z ->
  JSON_parse (SQSRecord.body record) = Some payload ->
  let detail := js_get "detail" payload in
  Embed.recordHandler svc consts record ctx w = (Throw TypeError, w) <->
  is_nullish payload || is_nullish detail ||
  is_nullish (js_get "documentKey" detail) ||
  is_nullish (js_get "fullDocument" detail) = true.
Proof.
  intros Htime Hparse. cbv zeta. rewrite recordHandler_unfold.
  replace (_ <? _)%Z with false by (symmetry; apply Z.ltb_ge; exact Htime).
  pose proof (extractEvent_cases (SQSRecord.body record)) as Hc.
  rewrite Hparse in Hc. cbv zeta in Hc.
  destruct (_ || _).
  - rewrite Hc. split; reflexivity.
  - destruct Hc as (document & _ & ->). split; [|discriminate].
    destruct (Helpers.createEmbedding svc consts _ w) as [[embedding|e2] wa];
      [|discriminate].
    destruct (Embed.writeEmbedding svc _ _ wa) as [[u|e3] wb]; discriminate.
Qed.

(** X11. What [recordHandler] asks the collection to store.  Every
    replacement it requests is the document snapshot of the event without
    its [_id], with [plot_embedding] set to what the model returned and
    every other field as in the snapshot, under the key that
    [new ObjectId] makes of [detail.documentKey._id]; it is requested only
    after the model has answered. *)
Theorem recordHandler_replacement
  (record : SQSRecord.t) (ctx : Context) (w : World)
  (oid : option string) (replacement : Document) (modified : option nat) :
  In (ReplaceOne oid replacement modified)
     (calls_since w (snd (Embed.recordHandler svc consts record ctx w))) ->
  exists id document embedding wa,
    Embed.extractEvent (SQSRecord.body record) = Ok (id, document) /\
    Helpers.getEmbedding svc consts (js_get "plot" (VObj document)) w
    = (Ok embedding, wa) /\
    new_ObjectId id = Ok oid /\
    replacement = replacementOf document embedding /\
    assoc "plot_embedding" replacement = Some embedding /\
    assoc "_id" replacement = None /\
    (forall key, key <> "plot_embedding" ->
                 assoc key replacement = assoc key document).
Proof.
  rewrite recordHandler_unfold.
  destruct (_ <? _)%Z.
  { cbn [snd]. rewrite (calls_since_app w w []) by now rewrite app_nil_r.
    contradiction. }
  destruct (Embed.extractEvent (SQSRecord.body record)) as [[id document]|e1] eqn:He.
  2:{ cbn [snd]. rewrite (calls_since_app w w []) by now rewrite app_nil_r.
      contradiction. }
  unfold Helpers.getEmbedding.
  destruct (Helpers.createEmbedding svc consts _ w) as [[embedding|e2] wa] eqn:Hemb.
  2:{ cbn [snd]. rewrite createEmbedding_unfold in Hemb. injection Hemb as _ <-.
      rewrite (calls_since_app w _ [InvokeModel _ _]) by reflexivity.
      intros [H|[]]. discriminate H. }
  assert (Hwa : calls wa = calls w ++ [InvokeModel (BEDROCK_MODEL_ID consts)
                  (Helpers.embedding_request (js_get "plot" (VObj document)))]).
  { rewrite createEmbedding_unfold in Hemb. now injection Hemb as _ <-. }
  destruct (Embed.writeEmbedding svc id _ wa) as [ow wb] eqn:Hw.
  assert (Hsnd : snd (match ow with
                      | Ok u => (Ok u, wb)
                      | Throw e => (Throw (ErrCause "Unable to write embedding" e), wb)
                      end) = wb) by now destruct ow.
  rewrite Hsnd. clear Hsnd.
  apply writeEmbedding_run in Hw
    as (_ & _ & _ & _ & secret & Hsec & _ & Hcalls).
  assert (Hnot : ~ In (ReplaceOne oid replacement modified) secret).
  { intro Hin. rewrite forallb_forall in Hsec. apply Hsec in Hin. discriminate. }
  intro Hin.
  assert (Hthis : exists oid' modified',
            new_ObjectId id = Ok oid' /\
            ReplaceOne oid replacement modified
            = ReplaceOne oid' (js_set "plot_embedding" embedding document) modified').
  { destruct Hcalls as [Hcalls | (oid' & modified' & Hid & Hcalls)].
    - rewrite (calls_since_app w wb (_ :: secret)) in Hin
        by (rewrite Hcalls, Hwa, <- app_assoc; reflexivity).
      destruct Hin as [H|H]; [discriminate H | contradiction].
    - rewrite (calls_since_app w wb (_ :: secret ++ [_])) in Hin
        by (rewrite Hcalls, Hwa, <- app_assoc; reflexivity).
      destruct Hin as [H|H]; [discriminate H|].
      apply in_app_or in H as [H|[H|[]]]; [contradiction|].
      exists oid', modified'. auto. }
  destruct Hthis as (oid' & modified' & Hid & Heq). injection Heq as -> -> ->.
  exists id, document, embedding, wa. unfold replacementOf.
  repeat split; try assumption; try reflexivity.
  - apply assoc_js_set.
  - rewrite assoc_js_set_other by discriminate. now apply extractEvent_no_id in He.
  - intros key Hkey. now apply assoc_js_set_other.
Qed.

(** A successful run: the event was read, the model gave a vector, and the
    first document with the key was replaced. *)
Lemma recordHandler_success
  (record : SQSRecord.t) (ctx : Context) (w w' : World) :
  Embed.recordHandler svc consts record ctx w = (Ok tt, w') ->
  exists hex id document embedding wa docs,
    Embed.extractEvent (SQSRecord.body record) = Ok (id, document) /\
    new_ObjectId id = Ok (Some hex) /\
    Helpers.getEmbedding svc consts (js_get "plot" (VObj document)) w
    = (Ok embedding, wa) /\
    replace_by_id hex
      (js_omit "_id" (bson_document (replacementOf document embedding)))
      (collection w) = Some docs /\
    collection w' = docs.
Proof.
  rewrite recordHandler_unfold.
  destruct (_ <? _)%Z; [discriminate|].
  destruct (Embed.extractEvent (SQSRecord.body record)) as [[id document]|e1] eqn:He;
    [|discriminate].
  rewrite createEmbedding_unfold.
  destruct (embedding_of_reply _) as [embedding|e2] eqn:Hemb; [|discriminate].
  set (wa := record_call _ w).
  rewrite writeEmbedding_unfold.
  destruct (Helpers.getMongoCollection svc wa) as [[[]|e3] wc] eqn:Hc;
    [|discriminate].
  apply getMongoCollection_inv in Hc as (Hcoll & _).
  destruct (new_ObjectId id) as [oid|e4] eqn:Hid; [|discriminate].
  destruct (Mongo.replaceOne svc oid _ wc) as [[m|e5] w2] eqn:Hr; [|discriminate].
  destruct (m =? 1) eqn:Hm; [|discriminate].
  apply Nat.eqb_eq in Hm. subst m. intro H. injection H as <-.
  apply replaceOne_inv in Hr as (_ & _ & _ & Hone).
  destruct (Hone eq_refl) as (hex & docs & -> & _ & Hrep & ->).
  exists hex, id, document, embedding, wa, docs.
  split; [reflexivity|]. split; [exact Hid|].
  split; [unfold Helpers.getEmbedding; rewrite createEmbedding_unfold, Hemb;
          reflexivity|].
  split; [|reflexivity]. rewrite <- Hrep, Hcoll. reflexivity.
Qed.

(** X12. A document that was processed is not selected again.  When
    [recordHandler] succeeds, exactly one stored document has changed, the
    first one with the key of the event: it keeps its key, holds the
    replacement and has the field [plot_embedding], so that the filter of
    [readDocuments] no longer selects it; no document was added or
    removed.  (The store replaces the document whole, as [replaceOne]
    does.) *)
Theorem processed_document_is_no_candidate
  (record : SQSRecord.t) (ctx : Context) (w w' : World) :
  Embed.recordHandler svc consts record ctx w = (Ok tt, w') ->
  exists hex id document embedding wa before old after,
    Embed.extractEvent (SQSRecord.body record) = Ok (id, document) /\
    new_ObjectId id = Ok (Some hex) /\
    Helpers.getEmbedding svc consts (js_get "plot" (VObj document)) w
    = (Ok embedding, wa) /\
    let stored := storedAs hex (replacementOf document embedding) in
    collection w = before ++ old :: after /\
    collection w' = before ++ stored :: after /\
    has_id hex old = true /\
    forallb (fun d => negb (has_id hex d)) before = true /\
    has_id hex stored = true /\
    has_field "plot_embedding" stored = true /\
    is_candidate stored = false.
Proof.
  intro H. apply recordHandler_success in H
    as (hex & id & document & embedding & wa & docs & He & Hid & Hemb & Hrep & ->).
  apply replace_by_id_split in Hrep
    as (before & old & after & Hbefore & Hafter & Hold & Hrest).
  exists hex, id, document, embedding, wa, before, old, after.
  split; [exact He|]. split; [exact Hid|]. split; [exact Hemb|]. cbv zeta.
  assert (Hfield : has_field "plot_embedding"
                     (storedAs hex (replacementOf document embedding)) = true).
  { unfold storedAs, replacementOf, has_field. cbn [assoc String.eqb Ascii.eqb Bool.eqb].
    rewrite assoc_js_omit_other by discriminate.
    fold (has_field "plot_embedding"
            (bson_document (js_set "plot_embedding" embedding document))).
    rewrite has_field_bson_document. unfold has_field.
    now rewrite assoc_js_set. }
  split; [exact Hbefore|]. split; [exact Hafter|].
  split; [exact Hold|]. split; [exact Hrest|]. split.
  - unfold has_id, storedAs. cbn [assoc String.eqb Ascii.eqb Bool.eqb].
    apply String.eqb_refl.
  - split; [exact Hfield|]. unfold is_candidate. rewrite Hfield.
    apply andb_false_r.
Qed.

(** X13. What [recordHandler] never does.  It never touches the queue and
    draws no identifier; it neither adds a document to the collection nor
    removes one; and it makes at most three requests: one to the model, the
    request for the secret (only when no client exists) and one
    replacement. *)
Theorem recordHandler_frame
  (record : SQSRecord.t) (ctx : Context) (w : World) :
  let w' := snd (Embed.recordHandler svc consts record ctx w) in
  queue w' = queue w /\ uuids w' = uuids w /\
  length (collection w') = length (collection w) /\
  only_requests (fun c => is_invoke_model c || is_replace c) w w' /\
  length (calls_since w w') <= 3.
Proof.
  cbv zeta. rewrite recordHandler_unfold.
  assert (Hsame : queue w = queue w /\ uuids w = uuids w /\
                  length (collection w) = length (collection w) /\
                  only_requests (fun c => is_invoke_model c || is_replace c) w w /\
                  length (calls_since w w) <= 3).
  { split; [reflexivity|]. split; [reflexivity|]. split; [reflexivity|].
    split; [apply only_requests_refl|].
    rewrite (calls_since_app w w []) by now rewrite app_nil_r. cbn. lia. }
  destruct (_ <? _)%Z; [exact Hsame|].
  destruct (Embed.extractEvent (SQSRecord.body record)) as [[id document]|e1];
    [|exact Hsame].
  clear Hsame. rewrite createEmbedding_unfold.
  set (wa := record_call _ w).
  assert (Hwa : only_requests (fun c => is_invoke_model c || is_replace c) w wa)
    by now apply only_requests_record.
  destruct (embedding_of_reply _) as [embedding|e2].
  2:{ cbn [snd]. split; [reflexivity|]. split; [reflexivity|].
      split; [reflexivity|]. split; [exact Hwa|].
      rewrite (calls_since_app w wa [_]) by reflexivity. cbn. lia. }
  destruct (Embed.writeEmbedding svc id _ wa) as [ow wb] eqn:Hw.
  assert (Hsnd : snd (match ow with
                      | Ok u => (Ok u, wb)
                      | Throw e => (Throw (ErrCause "Unable to write embedding" e), wb)
                      end) = wb) by now destruct ow.
  rewrite Hsnd. clear Hsnd.
  apply writeEmbedding_run in Hw
    as (Hu & Hq & Hl & Hk & secret & Hsec & Hlen & Hcalls).
  split; [exact Hq|]. split; [exact Hu|]. split; [exact Hl|].
  assert (Hlater : exists later,
            calls wb = calls wa ++ later /\ length later <= 2 /\
            forallb (fun c => (is_invoke_model c || is_replace c) ||
                              (is_get_secret c && negb (mongoClient wa))) later = true).
  { destruct Hcalls as [Hcalls | (oid & modified & _ & Hcalls)].
    - exists secret. split; [exact Hcalls|]. split; [lia|].
      rewrite forallb_forall in *. intros c Hin. rewrite (Hsec c Hin).
      apply orb_true_r.
    - exists (secret ++ [ReplaceOne oid (js_set "plot_embedding" embedding document)
                           modified]).
      split; [exact Hcalls|]. split; [rewrite length_app; cbn [length]; lia|].
      rewrite forallb_app. apply andb_true_iff. split; [|reflexivity].
      rewrite forallb_forall in *. intros c Hin. rewrite (Hsec c Hin).
      apply orb_true_r. }
  destruct Hlater as (later & Hcb & Hlen2 & Hall). split.
  - apply (only_requests_trans _ _ wa); [exact Hwa|].
    split; [now exists later | exact Hk].
  - rewrite (calls_since_app w wb (InvokeModel (BEDROCK_MODEL_ID consts)
               (Helpers.embedding_request (js_get "plot" (VObj document))) :: later)).
    + cbn [length]. lia.
    + rewrite Hcb. subst wa. cbn [calls record_call].
      now rewrite <- app_assoc.
Qed.

End ConsumerProperties.

(* ================================================================== *)
(** * The search handler: requests and what it never does *)
(* ================================================================== *)

Section SearchProperties.
Variable svc : Services.
Variable consts : Constants.

Lemma knnSearch_run (embedding : JSValue) (w w' : World)
  (o : Outcome (list Document)) :
  Search.knnSearch svc consts embedding w = (o, w') ->
  collection w' = collection w /\ queue w' = queue w /\ uuids w' = uuids w /\
  (mongoClient w = true -> mongoClient w' = true) /\
  exists later,
    calls w' = calls w ++ later /\ length later <= 2 /\
    forallb (fun c => is_aggregate c || (is_get_secret c && negb (mongoClient w)))
      later = true /\
    forall pipeline, In (Aggregate pipeline) later ->
                     pipeline = Search.pipeline consts embedding.
Proof.
  unfold Search.knnSearch, bind at 1. intro H.
  destruct (Helpers.getMongoCollection svc w) as [oc wc] eqn:Hc.
  destruct (getMongoCollection_secret svc _ _ _ Hc) as (secret & Hcalls & Hsec & Hlen).
  pose proof (getMongoCollection_requests svc (fun _ => false) _ _ _ Hc) as [_ Hk].
  apply getMongoCollection_inv in Hc as (Hcoll & Hq & Hu & _ & _).
  assert (Hno : forall pipeline, ~ In (Aggregate pipeline) secret).
  { intros pipeline Hin. rewrite forallb_forall in Hsec.
    apply Hsec in Hin. discriminate. }
  assert (Hsec' : forallb (fun c => is_aggregate c ||
                             (is_get_secret c && negb (mongoClient w))) secret = true).
  { rewrite forallb_forall in *. intros c Hin. rewrite (Hsec c Hin).
    apply orb_true_r. }
  destruct oc as [[]|e].
  - assert (Hw : w' = record_call (Aggregate (Search.pipeline consts embedding)) wc).
    { unfold bind, Mongo.aggregate, ret in H.
      destruct (storeFault svc (clock wc)); now injection H as _ <-. }
    subst w'. cbn [collection queue uuids mongoClient calls record_call].
    repeat split; auto.
    exists (secret ++ [Aggregate (Search.pipeline consts embedding)]).
    rewrite Hcalls, app_assoc. split; [reflexivity|].
    split; [rewrite length_app; cbn [length]; lia|]. split.
    + rewrite forallb_app, Hsec'. reflexivity.
    + intros pipeline Hin. apply in_app_or in Hin as [Hin|[Hin|[]]].
      * now apply Hno in Hin.
      * now injection Hin as <-.
  - injection H as _ <-. repeat split; auto.
    exists secret. repeat split; auto; try lia.
    intros pipeline Hin. now apply Hno in Hin.
Qed.

(** X14. When the search handler asks the model.  A body that is not JSON,
    or is the JSON [null], is answered with the error response without any
    request, and only such a body is; for every other body the first
    request is the one to the model, made from the [query] property of the
    body whatever it is: a body without [query] (or no body at all) gives
    a request without [inputText]. *)
Theorem search_request_is_made_unless_body_is_unreadable
  (event : APIGatewayEvent.t) (w : World) :
  let run := Search.handler svc consts event w in
  let parsed := JSON_parse (search_text event) in
  ((parsed = None \/ parsed = Some VNull) -> run = (Ok Search.errorResponse, w)) /\
  (calls (snd run) = calls w -> parsed = None \/ parsed = Some VNull) /\
  (forall payload,
     parsed = Some payload -> payload <> VNull ->
     exists later,
       calls (snd run)
       = calls w ++
         InvokeModel (BEDROCK_MODEL_ID consts)
           (Helpers.embedding_request (js_get "query" payload)) :: later) /\
  (forall payload,
     js_get "query" payload = VUndefined ->
     Helpers.embedding_request (js_get "query" payload) = "{}").
Proof.
  cbv zeta. rewrite search_handler_unfold.
  assert (Hmade : forall payload,
            JSON_parse (search_text event) = Some payload -> payload <> VNull ->
            exists later,
              calls (snd (Search.handler svc consts event w))
              = calls w ++
                InvokeModel (BEDROCK_MODEL_ID consts)
                  (Helpers.embedding_request (js_get "query" payload)) :: later).
  { intros payload Hp Hnull. rewrite search_handler_unfold, Hp.
    assert (Hq : destructure "query" payload = Ok (js_get "query" payload)).
    { destruct payload; try reflexivity; [|congruence].
      exfalso. exact (JSON_parse_defined _ Hp). }
    rewrite Hq. unfold Helpers.getEmbedding. rewrite createEmbedding_unfold.
    set (wa := record_call _ w).
    destruct (embedding_of_reply _) as [embedding|e];
      [|exists []; reflexivity].
    destruct (truthy embedding); [|exists []; reflexivity].
    destruct (Search.knnSearch svc consts embedding wa) as [o w2] eqn:Hk.
    apply knnSearch_run in Hk as (_ & _ & _ & _ & later & Hc & _).
    exists later.
    replace (snd (match o with
                  | Ok items => (Ok (okResponse items), w2)
                  | Throw _ => (Ok Search.errorResponse, w2)
                  end)) with w2 by now destruct o.
    rewrite Hc. subst wa. cbn [calls record_call]. now rewrite <- app_assoc. }
  rewrite search_handler_unfold in Hmade.
  split; [|split; [|split; [exact Hmade | now intros payload ->]]].
  - intros [->| ->]; reflexivity.
  - intro Hsame.
    destruct (JSON_parse (search_text event)) as [payload|]; [|now left].
    destruct payload; try (now right);
      (destruct (Hmade _ eq_refl ltac:(discriminate)) as (later & Hl);
       rewrite Hl in Hsame; apply (f_equal (@length Call)) in Hsame;
       rewrite length_app in Hsame; cbn [length] in Hsame; lia).
Qed.

Lemma search_handler_run (event : APIGatewayEvent.t) (w : World) :
  let w' := snd (Search.handler svc consts event w) in
  collection w' = collection w /\ queue w' = queue w /\ uuids w' = uuids w /\
  (mongoClient w = true -> mongoClient w' = true) /\
  exists later,
    calls w' = calls w ++ later /\ length later <= 3 /\
    forallb (fun c => (is_invoke_model c || is_aggregate c) ||
                      (is_get_secret c && negb (mongoClient w))) later = true /\
    forall pipeline,
      In (Aggregate pipeline) later ->
      exists payload embedding wa,
        JSON_parse (search_text event) = Some payload /\
        Helpers.getEmbedding svc consts (js_get "query" payload) w
        = (Ok embedding, wa) /\
        truthy embedding = true /\
        pipeline = Search.pipeline consts embedding.
Proof.
  cbv zeta. rewrite search_handler_unfold.
  assert (Hsame : exists later,
            calls w = calls w ++ later /\ length later <= 3 /\
            forallb (fun c => (is_invoke_model c || is_aggregate c) ||
                              (is_get_secret c && negb (mongoClient w))) later = true /\
            forall pipeline,
              In (Aggregate pipeline) later ->
              exists payload embedding wa,
                JSON_parse (search_text event) = Some payload /\
                Helpers.getEmbedding svc consts (js_get "query" payload) w
                = (Ok embedding, wa) /\
                truthy embedding = true /\
                pipeline = Search.pipeline consts embedding).
  { exists []. rewrite app_nil_r. split; [reflexivity|]. split; [cbn; lia|].
    split; [reflexivity|]. intros pipeline []. }
  destruct (JSON_parse (search_text event)) as [payload|] eqn:Hp; [|now auto].
  destruct (destructure "query" payload) as [query|e] eqn:Hq; [|now auto].
  apply destructure_ok in Hq as [-> _]. clear Hsame.
  destruct (Helpers.getEmbedding svc consts (js_get "query" payload) w)
    as [oe wa] eqn:Hemb.
  assert (Hwa : wa = record_call
                       (InvokeModel (BEDROCK_MODEL_ID consts)
                          (Helpers.embedding_request (js_get "query" payload))) w).
  { unfold Helpers.getEmbedding in Hemb. rewrite createEmbedding_unfold in Hemb.
    now injection Hemb as _ <-. }
  assert (Hstop : collection wa = collection w /\ queue wa = queue w /\
            uuids wa = uuids w /\
            (mongoClient w = true -> mongoClient wa = true) /\
            exists later,
              calls wa = calls w ++ later /\ length later <= 3 /\
              forallb (fun c => (is_invoke_model c || is_aggregate c) ||
                                (is_get_secret c && negb (mongoClient w))) later
              = true /\
              forall pipeline,
                In (Aggregate pipeline) later ->
                exists payload' embedding wa',
                  Some payload = Some payload' /\
                  Helpers.getEmbedding svc consts (js_get "query" payload') w
                  = (Ok embedding, wa') /\
                  truthy embedding = true /\
                  pipeline = Search.pipeline consts embedding).
  { subst wa. cbn [collection queue uuids mongoClient calls record_call].
    repeat (split; [now auto|]).
    eexists. split; [reflexivity|]. split; [cbn; lia|]. split; [reflexivity|].
    intros pipeline [H|[]]. discriminate H. }
  destruct oe as [embedding|e]; [|exact Hstop].
  destruct (truthy embedding) eqn:Ht; [|exact Hstop]. clear Hstop.
  destruct (Search.knnSearch svc consts embedding wa) as [o w2] eqn:Hk.
  replace (snd (match o with
                | Ok items => (Ok (okResponse items), w2)
                | Throw _ => (Ok Search.errorResponse, w2)
                end)) with w2 by now destruct o.
  apply knnSearch_run in Hk
    as (Hcoll & Hq & Hu & Hcli & later & Hc & Hlen & Hall & Hpipe).
  assert (Hwa_fields : collection wa = collection w /\ queue wa = queue w /\
                       uuids wa = uuids w /\ mongoClient wa = mongoClient w /\
                       calls wa = calls w ++
                         [InvokeModel (BEDROCK_MODEL_ID consts)
                            (Helpers.embedding_request (js_get "query" payload))])
    by (subst wa; repeat split).
  destruct Hwa_fields as (Hcoll0 & Hq0 & Hu0 & Hcli0 & Hcalls0).
  split; [congruence|]. split; [congruence|]. split; [congruence|].
  split; [intro Hw; apply Hcli; congruence|].
  exists (InvokeModel (BEDROCK_MODEL_ID consts)
            (Helpers.embedding_request (js_get "query" payload)) :: later).
  split; [rewrite Hc, Hcalls0, <- app_assoc; reflexivity|].
  split; [cbn [length]; lia|]. split.
  - cbn [forallb is_invoke_model orb andb].
    rewrite forallb_forall in *. intros c Hin. specialize (Hall c Hin).
    rewrite Hcli0 in Hall.
    apply orb_true_iff in Hall as [Ha|Ha].
    + rewrite Ha. now rewrite orb_true_r.
    + rewrite Ha. apply orb_true_r.
  - intros pipeline [H|H]; [discriminate H|].
    exists payload, embedding, wa. repeat split; auto.
Qed.

(** X15. What the search handler never does.  It changes neither the
    collection nor the queue and draws no identifier; it makes at most
    three requests, one to the model, the request for the secret (only
    when no client exists) and one aggregation, never a write; and the
    aggregation it requests is the pipeline of [knnSearch] for an
    embedding that the model returned and that is not falsy. *)
Theorem search_handler_frame (event : APIGatewayEvent.t) (w : World) :
  let w' := snd (Search.handler svc consts event w) in
  collection w' = collection w /\ queue w' = queue w /\ uuids w' = uuids w /\
  only_requests (fun c => is_invoke_model c || is_aggregate c) w w' /\
  length (calls_since w w') <= 3 /\
  forall pipeline,
    In (Aggregate pipeline) (calls_since w w') ->
    exists payload embedding wa,
      JSON_parse (search_text event) = Some payload /\
      Helpers.getEmbedding svc consts (js_get "query" payload) w
      = (Ok embedding, wa) /\
      truthy embedding = true /\
      pipeline = Search.pipeline consts embedding.
Proof.
  cbv zeta.
  destruct (search_handler_run event w)
    as (Hcoll & Hq & Hu & Hcli & later & Hc & Hlen & Hall & Hpipe).
  rewrite (calls_since_app _ _ _ Hc).
  split; [exact Hcoll|]. split; [exact Hq|]. split; [exact Hu|].
  split; [|split; [exact Hlen | exact Hpipe]].
  split; [now exists later | exact Hcli].
Qed.

End SearchProperties.

(* ================================================================== *)
(** * Numbers and texts that cross the interfaces *)
(* ================================================================== *)

(** The decimal form of a number: a digit that is not zero unless the
    number is, then digits. *)
Lemma dec_aux_shape (fuel n : nat) (acc : text) :
  n < fuel ->
  exists d rest,
    dec_aux fuel n acc = digit_char d :: rest ++ acc /\
    d < 10 /\ (n <> 0 -> d <> 0) /\ (n = 0 -> rest = []) /\
    Forall is_decimal rest.
Proof.
  revert n acc. induction fuel as [|f IH]; intros n acc Hn; [lia|].
  cbn [dec_aux]. pose proof (Nat.mod_upper_bound n 10 ltac:(lia)) as Hm.
  pose proof (Nat.div_mod_eq n 10) as Hdm.
  destruct (n / 10 =? 0) eqn:E.
  - apply Nat.eqb_eq in E. exists (n mod 10), [].
    repeat split; auto. lia.
  - apply Nat.eqb_neq in E.
    destruct (IH (n / 10) (digit_char (n mod 10) :: acc)) as (d & rest & Hr & Hd & Hnz & _ & Hall).
    { assert (n / 10 < n) by (apply Nat.div_lt; lia). lia. }
    exists d, (rest ++ [digit_char (n mod 10)]).
    rewrite Hr, <- app_assoc. repeat split; auto.
    + intros ->. cbn in E. congruence.
    + apply Forall_app. split; [exact Hall|]. constructor; [|constructor].
      now exists (n mod 10).
Qed.

Lemma dec_shape (n : nat) :
  exists d rest,
    chars (dec n) = digit_char d :: rest /\
    d < 10 /\ (n <> 0 -> d <> 0) /\ (n = 0 -> rest = []) /\
    Forall is_decimal rest.
Proof.
  unfold dec. rewrite chars_str.
  destruct (dec_aux_shape (S n) n [] ltac:(lia)) as (d & rest & H & Hd).
  rewrite app_nil_r in H. now exists d, rest.
Qed.

Lemma digit_value_char (d : nat) : d < 10 -> digit_value (digit_char d) = Z.of_nat d.
Proof. intro H. do 10 (destruct d as [|d]; [reflexivity|]). lia. Qed.

Lemma radix_digit_char (d : nat) : d < 10 -> radix_digit 10 (digit_char d) = true.
Proof. intro H. do 10 (destruct d as [|d]; [reflexivity|]). lia. Qed.

Lemma numchar_char (d : nat) : d < 10 -> numchar (digit_char d) = true.
Proof. intro H. do 10 (destruct d as [|d]; [reflexivity|]). lia. Qed.

Lemma is_digit_char (d : nat) : d < 10 -> is_digit (digit_char d) = true.
Proof. intro H. do 10 (destruct d as [|d]; [reflexivity|]). lia. Qed.

Lemma dec_aux_value (fuel n : nat) (acc : text) :
  n < fuel ->
  fold_left (fun a c => (a * Z.of_nat 10 + digit_value c)%Z) (dec_aux fuel n acc) 0%Z
  = fold_left (fun a c => (a * Z.of_nat 10 + digit_value c)%Z) acc (Z.of_nat n).
Proof.
  revert n acc. induction fuel as [|f IH]; intros n acc Hn; [lia|].
  cbn [dec_aux]. pose proof (Nat.mod_upper_bound n 10 ltac:(lia)) as Hm.
  pose proof (Nat.div_mod_eq n 10) as Hdm.
  destruct (n / 10 =? 0) eqn:E.
  - apply Nat.eqb_eq in E. cbn [fold_left].
    rewrite digit_value_char by exact Hm. f_equal. lia.
  - apply Nat.eqb_neq in E. rewrite IH.
    + cbn [fold_left]. rewrite digit_value_char by exact Hm. f_equal. lia.
    + assert (n / 10 < n) by (apply Nat.div_lt; lia). lia.
Qed.

Lemma span_all (f : ascii -> bool) (t : text) :
  forallb f t = true -> span f t = (t, []).
Proof.
  induction t as [|c t IH]; [reflexivity|]. cbn [forallb span].
  intro H. apply andb_true_iff in H as [-> Ht]. now rewrite (IH Ht).
Qed.

Lemma decimal_forallb (f : ascii -> bool) (t : text) :
  (forall d, d < 10 -> f (digit_char d) = true) ->
  Forall is_decimal t -> forallb f t = true.
Proof.
  intros Hf Ht. induction Ht as [|c t (d & Hd & ->) _ IH]; [reflexivity|].
  cbn [forallb]. now rewrite (Hf d Hd), IH.
Qed.

Lemma drop_js_space_digit (d : nat) (rest : text) :
  d < 10 -> drop_js_space (digit_char d :: rest) = None.
Proof.
  intro H. do 10 (destruct d as [|d]; [destruct rest as [|b [|c r]]; reflexivity|]).
  lia.
Qed.

(** [parseInt] of a text of decimal digits without a leading zero. *)
Lemma parseInt_digits (d : nat) (rest : text) :
  d < 10 -> Forall is_decimal rest -> (d = 0 -> rest = []) ->
  parseInt (str (digit_char d :: rest))
  = number_of_integer (digits_value 10 (digit_char d :: rest)).
Proof.
  intros Hd Hrest Hzero. unfold parseInt. rewrite chars_str.
  unfold trim_start. cbn [length trim_start_fuel].
  rewrite drop_js_space_digit by exact Hd.
  assert (Hspan : span (radix_digit 10) (digit_char d :: rest)
                  = (digit_char d :: rest, [])).
  { apply span_all. cbn [forallb]. rewrite radix_digit_char by exact Hd.
    apply decimal_forallb; [apply radix_digit_char | exact Hrest]. }
  destruct d as [|d].
  - rewrite (Hzero eq_refl). vm_compute. reflexivity.
  - assert (Hsign : exists c, digit_char (S d) = c /\
                              (nat_of_ascii c =? 45) = false /\
                              (nat_of_ascii c =? 43) = false /\
                              (nat_of_ascii c =? 48) = false).
    { exists (digit_char (S d)). split; [reflexivity|].
      do 9 (destruct d as [|d]; [repeat split|]). lia. }
    destruct Hsign as (c & Hc & H45 & H43 & H48). rewrite Hc in *.
    rewrite H45, H43.
    assert (Hradix : (let (radix, t2) :=
                        match c :: rest with
                        | z :: x :: r =>
                            if (nat_of_ascii z =? 48) &&
                               ((nat_of_ascii x =? 120) || (nat_of_ascii x =? 88))
                            then (16, r) else (10, c :: rest)
                        | _ => (10, c :: rest)
                        end in
                      match fst (span (radix_digit radix) t2) with
                      | [] => NaN
                      | ds => number_of_integer (digits_value radix ds)
                      end) = number_of_integer (digits_value 10 (c :: rest))).
    { destruct rest as [|x r]; cbv zeta.
      - rewrite Hspan. reflexivity.
      - rewrite H48. cbn [andb]. rewrite Hspan. reflexivity. }
    exact Hradix.
Qed.

(** An integer of magnitude up to 2^53 is a Number value. *)
Lemma nearest_double_exact (a : Z) :
  (0 <= a <= 2 ^ 53)%Z -> nearest_double a = a.
Proof.
  intro H. unfold nearest_double.
  destruct (a <? 2 ^ 53)%Z eqn:E; [reflexivity|].
  apply Z.ltb_ge in E. assert (a = 2 ^ 53)%Z as -> by lia.
  vm_compute. reflexivity.
Qed.

Lemma number_of_integer_exact (z : Z) :
  (Z.abs z <= 2 ^ 53)%Z -> number_of_integer z = Int z.
Proof.
  intro H. unfold number_of_integer.
  rewrite nearest_double_exact by (split; [apply Z.abs_nonneg | exact H]).
  assert (Hsmall : (2 ^ 53 < 2 ^ 1024)%Z) by (vm_compute; reflexivity).
  destruct (2 ^ 1024 <=? Z.abs z)%Z eqn:E.
  - apply Z.leb_le in E. lia.
  - f_equal. destruct (z <? 0)%Z eqn:Es.
    + apply Z.ltb_lt in Es. lia.
    + apply Z.ltb_ge in Es. lia.
Qed.

Lemma parseInt_dec (n : nat) :
  parseInt (dec n) = number_of_integer (Z.of_nat n).
Proof.
  destruct (dec_shape n) as (d & rest & Hshape & Hd & Hnz & Hz & Hall).
  assert (Hdec : dec n = str (digit_char d :: rest))
    by (rewrite <- Hshape; symmetry; apply str_chars).
  rewrite Hdec, parseInt_digits; try assumption.
  - f_equal. rewrite <- Hshape. unfold dec, digits_value. rewrite chars_str.
    rewrite dec_aux_value by lia. reflexivity.
  - intros ->. apply Hz. destruct n; [reflexivity|].
    exfalso. now apply Hnz.
Qed.

(** X16. A count given in decimal digits is read as the Number value of
    that number: [parseInt] of the decimal form of [n] is the double nearest
    to [n], and so is the limit that the backfill handler passes to
    [readDocuments] for a request with [count=n].  Up to 2^53 that is [n]
    itself (for [n = 0] it is 0, not the default 50); the next integer,
    2^53 + 1, is already read as 2^53. *)
Theorem parseInt_reads_a_decimal_count (n : nat) :
  parseInt (dec n) = number_of_integer (Z.of_nat n) /\
  Backfill.limitOfCount (Some (dec n)) = number_of_integer (Z.of_nat n) /\
  ((Z.of_nat n <= 2 ^ 53)%Z ->
   parseInt (dec n) = Int (Z.of_nat n) /\
   Backfill.limitOfCount (Some (dec n)) = Int (Z.of_nat n)) /\
  parseInt "9007199254740993" = Int (2 ^ 53).
Proof.
  assert (Hlimit : Backfill.limitOfCount (Some (dec n)) = parseInt (dec n)).
  { unfold Backfill.limitOfCount.
    destruct (String.eqb (dec n) "") eqn:E; [|reflexivity].
    apply String.eqb_eq in E. destruct (dec_shape n) as (d & rest & Hshape & _).
    rewrite E in Hshape. discriminate Hshape. }
  split; [apply parseInt_dec|]. split; [rewrite Hlimit; apply parseInt_dec|].
  split; [|vm_compute; reflexivity].
  intro Hn. rewrite Hlimit, parseInt_dec.
  split; apply number_of_integer_exact; lia.
Qed.

Lemma num_run_digits (rest : text) :
  Forall is_decimal rest -> num_run NInt rest = true.
Proof.
  induction 1 as [|c t (d & Hd & ->) _ IH]; [reflexivity|].
  cbn [num_run]. unfold num_step. rewrite is_digit_char by exact Hd. exact IH.
Qed.

Lemma dec_is_json_number (n : nat) : is_json_number (chars (dec n)) = true.
Proof.
  destruct (dec_shape n) as (d & rest & -> & Hd & Hnz & Hz & Hall).
  unfold is_json_number. apply andb_true_iff. split.
  - cbn [forallb]. rewrite numchar_char by exact Hd.
    apply decimal_forallb; [apply numchar_char | exact Hall].
  - destruct d as [|d].
    + destruct n as [|n]; [|exfalso; now apply Hnz].
      rewrite (Hz eq_refl). reflexivity.
    + cbn [num_run].
      replace (num_step NStart (digit_char (S d))) with (Some NInt)
        by (do 9 (destruct d as [|d]; [reflexivity|]); lia).
      now apply num_run_digits.
Qed.

(** X17. The answer of the backfill handler is JSON: its body reads back
    as an object with exactly the properties [read] and [sent], in this
    order, each the number given, written in decimal digits (digits that
    [parseInt] reads as the Number value of the number given, which up to
    2^53 is the number itself). *)
Theorem backfill_body_reads_back (read sent : nat) :
  JSON_parse (HttpResponse.body (backfillResponse read sent))
  = Some (VObj [("read", VNum (dec read)); ("sent", VNum (dec sent))]) /\
  parseInt (dec read) = number_of_integer (Z.of_nat read) /\
  parseInt (dec sent) = number_of_integer (Z.of_nat sent) /\
  (forall n : nat, (Z.of_nat n <= 2 ^ 53)%Z ->
                   number_of_integer (Z.of_nat n) = Int (Z.of_nat n)).
Proof.
  split; [|split; [apply parseInt_dec|split; [apply parseInt_dec|]]].
  2: { intros n Hn. apply number_of_integer_exact. lia. }
  unfold backfillResponse. cbn [HttpResponse.body].
  rewrite JSON_roundtrip by (reflexivity || discriminate).
  unfold VNat. cbn [to_json flat_map snd fst app].
  now rewrite !dec_is_json_number.
Qed.

(** X18. The text reaches the model unchanged.  For every text, the body
    of the request that [createEmbedding] makes is JSON that reads back as
    an object with the one property [inputText] holding exactly that text,
    whatever characters it has (quotes, backslashes, control characters);
    for [undefined] the request is the empty object. *)
Theorem embedding_request_carries_the_text (inputText : string) :
  JSON_parse (Helpers.embedding_request (VStr inputText))
  = Some (VObj [("inputText", VStr inputText)]) /\
  Helpers.embedding_request VUndefined = "{}".
Proof.
  split; [|reflexivity]. unfold Helpers.embedding_request.
  now rewrite JSON_roundtrip by (reflexivity || discriminate).
Qed.

(* ================================================================== *)
(** * From the backfill to the stored vector *)
(* ================================================================== *)

Lemma bson_json (v : JSValue) : is_json v = true -> bson v = v.
Proof.
  induction v as [| |b|lit|s|items IH|props IH|h|d] using JSValue_ind';
    cbn [is_json bson]; intro H; try discriminate; try reflexivity.
  - f_equal. induction items as [|x items IHl]; [reflexivity|].
    cbn [forallb] in H. apply andb_true_iff in H as [Hx Hl].
    inversion IH as [|? ? IHx IHitems]; subst.
    cbn [map]. now rewrite (IHx Hx), (IHl IHitems Hl).
  - f_equal. induction props as [|[key x] props IHl]; [reflexivity|].
    cbn [forallb snd] in H. apply andb_true_iff in H as [Hx Hl].
    inversion IH as [|? ? IHx IHprops]; subst. cbn [snd] in IHx.
    cbn [map fst snd]. now rewrite (IHx Hx), (IHl IHprops Hl).
Qed.

Lemma bson_document_json (d : Document) :
  forallb (fun kv => is_json (snd kv)) d = true -> bson_document d = d.
Proof.
  unfold bson_document. induction d as [|[k v] d IH]; [reflexivity|].
  cbn [forallb snd map fst]. intro H. apply andb_true_iff in H as [Hv Hd].
  now rewrite (bson_json v Hv), (IH Hd).
Qed.

Lemma bson_document_js_set (key : string) (v : JSValue) (d : Document) :
  bson_document (js_set key v d) = js_set key (bson v) (bson_document d).
Proof.
  unfold bson_document. induction d as [|[k x] d IH]; [reflexivity|].
  cbn [js_set map fst snd]. destruct (String.eqb key k); cbn [map fst snd].
  - reflexivity.
  - now rewrite IH.
Qed.

Lemma js_omit_absent (key : string) (d : Document) :
  assoc key d = None -> js_omit key d = d.
Proof.
  unfold js_omit. induction d as [|[k x] d IH]; [reflexivity|].
  cbn [assoc filter fst]. destruct (String.eqb key k); [discriminate|].
  intro H. cbn [negb]. now rewrite (IH H).
Qed.

Lemma replace_by_id_none (hex : string) (replacement : Document)
  (docs : list Document) :
  forallb (fun d => negb (has_id hex d)) docs = true ->
  replace_by_id hex replacement docs = None.
Proof.
  induction docs as [|d r IH]; [reflexivity|]. cbn [forallb replace_by_id].
  intro H. apply andb_true_iff in H as [Hd Hr].
  apply negb_true_iff in Hd. now rewrite Hd, (IH Hr).
Qed.

(** What the consumer reads in a message of the dispatcher. *)
Lemma extractEvent_of_message (id hex : string) (document : Document) :
  unique_keys (VObj document) = true ->
  assoc "_id" document = Some (VObjectId hex) ->
  forallb (fun kv => is_json (snd kv)) (js_omit "_id" document) = true ->
  Embed.extractEvent (JSON_stringify (Backfill.changeEvent id document))
  = Ok (VStr hex, js_omit "_id" document).
Proof.
  intros Hu Hid Hjson. rewrite extractEvent_changeEvent by exact Hu.
  unfold Embed.extractDetail. cbn [js_get]. rewrite Hid.
  cbn [to_json flat_map fst snd app destructure js_get assoc String.eqb
       Ascii.eqb Bool.eqb Embed.obind Embed.rest_without].
  rewrite to_json_fields_omit by exact Hjson. reflexivity.
Qed.

Section EndToEnd.
Variable svc : Services.
Variable consts : Constants.

(** X19. From the backfill to the stored vector.  When the consumer
    succeeds on a message that the dispatcher made of a document (with an
    ObjectId key and JSON-valued fields), the stored document under that
    key becomes the document itself with [plot_embedding] set to the
    vector that the model returned for its plot: the key and every other
    field are as they were, and no other document changes. *)
Theorem backfilled_document_gets_its_vector
  (messageId id hex : string) (document : Document)
  (ctx : Context) (w w' : World) :
  unique_keys (VObj document) = true ->
  assoc "_id" document = Some (VObjectId hex) ->
  is_object_id_hex hex = true ->
  forallb (fun kv => is_json (snd kv)) (js_omit "_id" document) = true ->
  Embed.recordHandler svc consts
    {| SQSRecord.messageId := messageId;
       SQSRecord.body := JSON_stringify (Backfill.changeEvent id document) |}
    ctx w = (Ok tt, w') ->
  exists embedding wa before old after,
    Helpers.getEmbedding svc consts (js_get "plot" (VObj document)) w
    = (Ok embedding, wa) /\
    collection w = before ++ old :: after /\
    has_id hex old = true /\
    forallb (fun d => negb (has_id hex d)) before = true /\
    collection w'
    = before ++
      (("_id", VObjectId hex)
       :: js_set "plot_embedding" (bson embedding) (js_omit "_id" document))
      :: after.
Proof.
  intros Hu Hid Hhex Hjson Hrun.
  pose proof (extractEvent_of_message id hex document Hu Hid Hjson) as Hmsg.
  apply recordHandler_success in Hrun
    as (hex' & id' & document' & embedding & wa & docs
        & Hev & Hoid & Hemb & Hrep & Hcoll').
  apply replace_by_id_split in Hrep
    as (before & old & after & Hcoll & Hdocs & Hold & Hbefore).
  rewrite Hdocs in Hcoll'. fold (storedAs hex' (replacementOf document' embedding)) in Hcoll'.
  cbn [SQSRecord.body] in Hev. rewrite Hmsg in Hev. injection Hev as <- <-.
  rewrite (lower_hex_id hex Hhex) in Hoid. injection Hoid as <-.
  assert (Hplot : js_get "plot" (VObj (js_omit "_id" document))
                  = js_get "plot" (VObj document))
    by (cbn [js_get]; now rewrite assoc_js_omit_other by discriminate).
  rewrite Hplot in Hemb.
  exists embedding, wa, before, old, after.
  split; [exact Hemb|]. split; [exact Hcoll|]. split; [exact Hold|].
  split; [exact Hbefore|]. rewrite Hcoll'.
  unfold storedAs, replacementOf.
  rewrite bson_document_js_set, (bson_document_json _ Hjson).
  rewrite js_omit_absent; [reflexivity|].
  rewrite assoc_js_set_other by discriminate. apply assoc_js_omit_same.
Qed.

Lemma readDocuments_ok (count : Num) (w w1 : World) (documents : list Document) :
  Backfill.readDocuments svc count w = (Ok documents, w1) ->
  mongoClient w1 = true /\ found svc count (collection w) = Ok documents.
Proof.
  unfold Backfill.readDocuments, bind at 1. intro H.
  destruct (Helpers.getMongoCollection svc w) as [[[]|e] wc] eqn:Hc;
    [|discriminate].
  apply getMongoCollection_inv in Hc as (Hcoll & _ & _ & _ & Hcli).
  specialize (Hcli eq_refl).
  unfold bind, Mongo.find_candidates, ret in H. rewrite Hcoll in H.
  destruct (storeFault svc (clock wc)); [discriminate|].
  unfold found. destruct count as [|n|negative].
  - destruct (limitNonFinite svc _ _) as [docs|e]; [|discriminate].
    injection H as <- <-. auto.
  - injection H as <- <-. auto.
  - destruct (limitNonFinite svc _ _) as [docs|e]; [|discriminate].
    injection H as <- <-. auto.
Qed.

Lemma readDocuments_connected (count : Num) (w : World) (documents : list Document) :
  mongoClient w = true -> storeFault svc (clock w) = None ->
  found svc count (collection w) = Ok documents ->
  Backfill.readDocuments svc count w = (Ok documents, record_call (Find count) w).
Proof.
  intros Hcli Hfault Hfound. unfold Backfill.readDocuments, bind at 1.
  rewrite (getMongoCollection_connected _ _ Hcli).
  unfold bind, Mongo.find_candidates, ret. rewrite Hfault.
  unfold found in Hfound. destruct count as [|n|negative].
  - now rewrite Hfound.
  - now injection Hfound as <-.
  - now rewrite Hfound.
Qed.

(** X20. Running the backfill again sends the same documents again.  The
    backfill changes no document, so after a run that answered, a second
    run with the same request (store reachable, queue accepting) reads the
    same documents and gives the same answer, and the queue receives a
    second message for each of the documents sent before, under new
    identifiers. *)
Theorem backfill_rerun_sends_again
  (queueUrl : string) (event : APIGatewayEvent.t) (w w1 : World)
  (response : HttpResponse.t) :
  queue_accepts svc queueUrl ->
  Backfill.handler svc event w = (Ok response, w1) ->
  storeFault svc (clock w1) = None ->
  exists documents w2,
    found svc (Backfill.limitOfCount (count_of event)) (collection w)
    = Ok documents /\
    Backfill.handler svc event w1 = (Ok response, w2) /\
    let sent := firstn (10 * (length documents / 10)) documents in
    queue w1 = queue w ++ entriesFor svc (uuids w) sent /\
    queue w2 = queue w1 ++ entriesFor svc (uuids w1) sent /\
    uuids w1 = uuids w + 2 * length documents /\
    collection w2 = collection w.
Proof.
  intros Hacc Hrun Hfault. rewrite backfill_handler_unfold in Hrun.
  destruct (Backfill.readDocuments svc _ w) as [[documents|e] wr] eqn:Hread;
    [|discriminate].
  destruct (Backfill.sendToQueueInBatches svc documents _ wr) as [[m|e] ws] eqn:Hsend;
    [|discriminate].
  injection Hrun as <- <-.
  pose proof (readDocuments_ok _ _ _ _ Hread) as [Hcli Hfound].
  apply readDocuments_frame in Hread as (Hcoll & Hq & Hu & _).
  unfold Backfill.sendToQueueInBatches in Hsend.
  change Backfill.defaultBatchSize with (Z.of_nat 10) in Hsend.
  destruct (sendLoop_spec svc queueUrl Hacc 10 documents ltac:(lia) 0 [] wr
              ltac:(cbn [length]; lia))
    as (batches & ws' & Hrun1 & _ & _ & Hcat1 & Hcalls1 & Hq1 & Hcoll1).
  rewrite Hrun1 in Hsend. injection Hsend as <- <-.
  cbn [length app Nat.add] in Hrun1, Hcat1, Hq1.
  assert (Hcli1 : mongoClient ws' = true).
  { destruct (sendLoop_run svc 10 documents ltac:(lia) 0 [] wr _ _
                ltac:(cbn [length]; lia) Hrun1)
      as (k & later & _ & _ & _ & Hk & _). now rewrite Hk. }
  assert (Hu1 : uuids ws' = uuids wr + 2 * length documents)
    by (eapply sendLoop_uuids; exact Hrun1).
  exists documents.
  destruct (sendLoop_spec svc queueUrl Hacc 10 documents ltac:(lia) 0 []
              (record_call (Find (Backfill.limitOfCount (count_of event))) ws')
              ltac:(cbn [length]; lia))
    as (batches2 & w2 & Hrun2 & _ & _ & Hcat2 & _ & Hq2 & Hcoll2).
  cbn [length app Nat.add uuids queue collection record_call]
    in Hrun2, Hcat2, Hq2, Hcoll2.
  exists w2. split; [exact Hfound|].
  split.
  - rewrite backfill_handler_unfold.
    rewrite (readDocuments_connected _ ws' documents Hcli1 Hfault)
      by (now rewrite Hcoll1, Hcoll).
    unfold Backfill.sendToQueueInBatches.
    change Backfill.defaultBatchSize with (Z.of_nat 10). now rewrite Hrun2.
  - cbv zeta. rewrite !entriesFor_firstn.
    split; [now rewrite Hq1, Hcat1, Hq, Hu|].
    split; [now rewrite Hq2, Hcat2|].
    split; [now rewrite Hu1, Hu|].
    now rewrite Hcoll2, Hcoll1.
Qed.

(** X21. An event for a document that is gone.  When no stored document
    has the key of the event, [recordHandler] still asks the model for the
    vector, then requests the replacement, which modifies nothing, and
    fails the record with [Unable to write embedding], caused by
    [Unable to update document]; the collection is as it was. *)
Theorem event_for_a_missing_document_fails
  (record : SQSRecord.t) (ctx : Context) (w wa : World)
  (id embedding : JSValue) (document : Document) (hex : string) :
  (Embed.timeThreshold <= getRemainingTimeInMillis ctx (clock w))%Z ->
  Embed.extractEvent (SQSRecord.body record) = Ok (id, document) ->
  Helpers.getEmbedding svc consts (js_get "plot" (VObj document)) w
  = (Ok embedding, wa) ->
  new_ObjectId id = Ok (Some hex) ->
  mongoClient w = true ->
  storeFault svc (clock wa) = None ->
  forallb (fun d => negb (has_id hex d)) (collection w) = true ->
  Embed.recordHandler svc consts record ctx w
  = (Throw (ErrCause "Unable to write embedding" (Err "Unable to update document")),
     record_call
       (ReplaceOne (Some hex) (replacementOf document embedding) (Some 0)) wa) /\
  collection wa = collection w /\
  calls_since w wa
  = [InvokeModel (BEDROCK_MODEL_ID consts)
       (Helpers.embedding_request (js_get "plot" (VObj document)))].
Proof.
  intros Htime Hev Hemb Hid Hcli Hfault Hnone.
  assert (Hwa : wa = record_call
                       (InvokeModel (BEDROCK_MODEL_ID consts)
                          (Helpers.embedding_request (js_get "plot" (VObj document)))) w).
  { unfold Helpers.getEmbedding in Hemb. rewrite createEmbedding_unfold in Hemb.
    now injection Hemb as _ <-. }
  split; [|split; [now rewrite Hwa|rewrite Hwa; now apply calls_since_app]].
  rewrite recordHandler_unfold.
  replace (_ <? _)%Z with false by (symmetry; apply Z.ltb_ge; exact Htime).
  rewrite Hev. unfold Helpers.getEmbedding in Hemb. rewrite Hemb.
  rewrite writeEmbedding_unfold.
  rewrite (getMongoCollection_connected svc wa) by (rewrite Hwa; exact Hcli).
  rewrite Hid. unfold Mongo.replaceOne. rewrite Hfault.
  rewrite replace_by_id_none by (rewrite Hwa; exact Hnone).
  reflexivity.
Qed.

End EndToEnd.

(* ================================================================== *)
(** * The further properties at the sample data *)
(* ================================================================== *)

(** The first call fetches the secret, the second one does nothing. *)
Lemma getMongoCollection_connects_once_witness :
  let w := Fixtures.world [] in
  let w1 := set_mongoClient true (record_call (GetSecret "mongodb-secret") w) in
  Helpers.getMongoCollection Fixtures.services w = (Ok tt, w1) /\
  Helpers.getMongoCollection Fixtures.services w1 = (Ok tt, w1).
Proof.
  intros w w1.
  assert (H : Helpers.getMongoCollection Fixtures.services w = (Ok tt, w1))
    by reflexivity.
  split; [exact H|].
  destruct (getMongoCollection_connects_once Fixtures.services w w1 H)
    as (_ & Hagain & _).
  exact Hagain.
Defined.

(** A secret that does not exist. *)
Lemma getMongoCollection_failures_witness :
  mongoClient (Fixtures.world []) = false /\
  Helpers.getMongoCollection Scenarios.noSecretServices (Fixtures.world [])
  = (Throw (Err "MongoDB connection string not found"),
     record_call (GetSecret "mongodb-secret") (Fixtures.world [])).
Proof.
  split; [reflexivity|].
  pose proof (getMongoCollection_failures Scenarios.noSecretServices
                (Fixtures.world []) eq_refl) as H.
  cbv zeta in H. destruct H as [_ H].
  destruct (H "mongodb-secret" eq_refl ltac:(discriminate)) as (_ & Hundefined & _).
  apply Hundefined. reflexivity.
Defined.

(** 25 documents and a queue that rejects the second batch: the first ten
    messages stay in the queue. *)
Lemma sendToQueueInBatches_stops_at_rejected_batch_witness :
  exists w',
    Backfill.sendToQueueInBatches Scenarios.rejectingServices
      (Fixtures.movies 25) 10 (Fixtures.world (Fixtures.movies 25))
    = (Throw (Err "ServiceUnavailable"), w') /\
    length (queue w') = 10 /\ length (calls w') = 2.
Proof.
  destruct (sendToQueueInBatches_stops_at_rejected_batch
              Scenarios.rejectingServices Fixtures.queueUrl (Fixtures.movies 25)
              10 1 (Err "ServiceUnavailable") (Fixtures.world (Fixtures.movies 25)))
    as (w' & Hrun & Hq & Hc & _).
  - reflexivity.
  - reflexivity.
  - intros i entries Hi. assert (Hi0 : i = 0) by lia. subst i. reflexivity.
  - intros entries. reflexivity.
  - vm_compute. lia.
  - exists w'. split; [exact Hrun|]. split.
    + rewrite Hq. vm_compute. reflexivity.
    + rewrite Hc. reflexivity.
Defined.

(** 25 documents without the address of the queue. *)
Lemma backfill_without_queue_url_witness :
  let event := Fixtures.backfillEvent (Some "25") in
  let w := Fixtures.world (Fixtures.movies 25) in
  env_unset Scenarios.noQueueServices "EVENTS_QUEUE_URL" /\
  exists w',
    Backfill.handler Scenarios.noQueueServices event w
    = (Throw (Err "EVENTS_QUEUE_URL is not set"), w') /\
    queue w' = [].
Proof.
  intros event w.
  assert (Hunset : env_unset Scenarios.noQueueServices "EVENTS_QUEUE_URL")
    by (left; reflexivity).
  split; [exact Hunset|].
  destruct (backfill_without_queue_url Scenarios.noQueueServices event
              (Fixtures.movies 25) w
              (snd (Backfill.readDocuments Scenarios.noQueueServices (Int 25) w))
              Hunset)
    as (w' & Hrun & Hq & _).
  - vm_compute. reflexivity.
  - exists w'. split; [exact Hrun | exact Hq].
Defined.

(** A batch size of 0. *)
Lemma sendToQueueInBatches_nonpositive_batch_size_witness :
  (0 <= 0)%Z /\
  exists w',
    Backfill.sendToQueueInBatches Fixtures.services (Fixtures.movies 25) 0
      (Fixtures.world (Fixtures.movies 25)) = (Ok 0, w') /\
    queue w' = [] /\ uuids w' = 50.
Proof.
  split; [reflexivity|].
  destruct (sendToQueueInBatches_nonpositive_batch_size Fixtures.services
              (Fixtures.movies 25) 0 (Fixtures.world (Fixtures.movies 25)))
    as (w' & Hrun & Hq & _ & Hu).
  - reflexivity.
  - exists w'. split; [exact Hrun|]. split; [exact Hq|].
    rewrite Hu. reflexivity.
Defined.

Lemma batch_entry_ids_are_distinct_witness :
  (0 < 10)%Z /\
  exists sent,
    queue (snd (Backfill.sendToQueueInBatches Fixtures.services
                  (Fixtures.movies 25) 10 (Fixtures.world (Fixtures.movies 25))))
    = sent /\
    forall i entry, nth_error sent i = Some entry ->
                    Id entry = uuid Fixtures.services (2 * i).
Proof.
  split; [reflexivity|].
  destruct (batch_entry_ids_are_distinct Fixtures.services (Fixtures.movies 25)
              10 (Fixtures.world (Fixtures.movies 25)) eq_refl)
    as (sent & Hq & Hid & _).
  exists sent. split; [exact Hq | exact Hid].
Defined.

(** 25 documents read, 20 sent. *)
Lemma backfill_answer_counts_witness :
  let event := Fixtures.backfillEvent (Some "25") in
  let w := Fixtures.world (Fixtures.movies 25) in
  let w' := snd (Backfill.handler Fixtures.services event w) in
  Backfill.handler Fixtures.services event w = (Ok (backfillResponse 25 20), w') /\
  exists documents,
    backfillResponse 25 20
    = backfillResponse (length documents) (10 * (length documents / 10)) /\
    queue w' = entriesFor Fixtures.services 0
                 (firstn (10 * (length documents / 10)) documents).
Proof.
  intros event w w'.
  assert (H : Backfill.handler Fixtures.services event w
              = (Ok (backfillResponse 25 20), w')) by (vm_compute; reflexivity).
  split; [exact H|].
  destruct (backfill_answer_counts Fixtures.services event w w' _ H)
    as (documents & w1 & _ & Hresponse & Hq & _).
  exists documents. split; [exact Hresponse | exact Hq].
Defined.

(** The record of movie 1, on whose plot the model fails. *)
Lemma recordHandler_errors_witness :
  let w := Fixtures.world (Fixtures.movies 3) in
  let e := ErrCause "Unble to create embedding" (Err "Error in model response") in
  let w' := snd (Embed.recordHandler Fixtures.services Fixtures.constants
                   (Fixtures.recordOf 1) Fixtures.context w) in
  Embed.recordHandler Fixtures.services Fixtures.constants
    (Fixtures.recordOf 1) Fixtures.context w = (Throw e, w') /\
  (getRemainingTimeInMillis Fixtures.context (clock w) <? Embed.timeThreshold)%Z
  = false.
Proof.
  intros w e w'.
  assert (H : Embed.recordHandler Fixtures.services Fixtures.constants
                (Fixtures.recordOf 1) Fixtures.context w = (Throw e, w'))
    by (vm_compute; reflexivity).
  split; [exact H|].
  pose proof (recordHandler_errors Fixtures.services Fixtures.constants
                (Fixtures.recordOf 1) Fixtures.context w w' e H) as Hc.
  cbv zeta in Hc.
  destruct Hc as [(_ & He & _) | [(Hl & _) | [(Hl & _) | [(Hl & _) | (Hl & _)]]]];
    [discriminate He | exact Hl ..].
Defined.

(** The change event of a deleted document fails with the TypeError. *)
Lemma malformed_event_fails_before_any_request_witness :
  let w := Fixtures.world (Fixtures.movies 3) in
  JSON_parse (SQSRecord.body Scenarios.deleteRecord) = Some Scenarios.deleteEvent /\
  Embed.recordHandler Fixtures.services Fixtures.constants
    Scenarios.deleteRecord Fixtures.context w = (Throw TypeError, w).
Proof.
  intro w.
  assert (Hparse : JSON_parse (SQSRecord.body Scenarios.deleteRecord)
                   = Some Scenarios.deleteEvent) by (vm_compute; reflexivity).
  split; [exact Hparse|].
  apply (malformed_event_fails_before_any_request Fixtures.services
           Fixtures.constants Scenarios.deleteRecord Fixtures.context w
           Scenarios.deleteEvent).
  - vm_compute. discriminate.
  - exact Hparse.
  - reflexivity.
Defined.

(** The replacement requested for movie 0. *)
Lemma recordHandler_replacement_witness :
  let w := Fixtures.world (Fixtures.movies 3) in
  let replacement :=
    replacementOf (js_omit "_id" (Fixtures.movie 0)) Scenarios.vector in
  In (ReplaceOne (Some (Fixtures.hexOf 0)) replacement (Some 1))
     (calls_since w (snd (Embed.recordHandler Fixtures.services Fixtures.constants
                            (Fixtures.recordOf 0) Fixtures.context w))) /\
  assoc "plot_embedding" replacement = Some Scenarios.vector /\
  assoc "_id" replacement = None.
Proof.
  intros w replacement.
  assert (Hin : In (ReplaceOne (Some (Fixtures.hexOf 0)) replacement (Some 1))
                  (calls_since w
                     (snd (Embed.recordHandler Fixtures.services Fixtures.constants
                             (Fixtures.recordOf 0) Fixtures.context w))))
    by (vm_compute; right; right; left; reflexivity).
  split; [exact Hin|].
  destruct (recordHandler_replacement Fixtures.services Fixtures.constants
              (Fixtures.recordOf 0) Fixtures.context w _ _ _ Hin)
    as (id & document & embedding & wa & _ & _ & _ & _ & _ & Hnoid & _).
  split; [reflexivity | exact Hnoid].
Defined.

(** A key given as an object with an [id] of 24 hexadecimal digits names
    the document too: the replacement is requested and the document is
    modified. *)
Example object_key_names_the_document :
  let w := Fixtures.world (Fixtures.movies 3) in
  let run := Embed.recordHandler Fixtures.services Fixtures.constants
               Scenarios.objectKeyRecord Fixtures.context w in
  fst run = Ok tt /\
  nth_error (collection (snd run)) 0
  = Some (("_id", VObjectId (Fixtures.hexOf 0)) ::
          replacementOf (js_omit "_id" (Fixtures.movie 0)) Scenarios.vector).
Proof. split; vm_compute; reflexivity. Qed.

(** Movie 0, once processed, is no candidate. *)
Lemma processed_document_is_no_candidate_witness :
  let w := Fixtures.world (Fixtures.movies 3) in
  let w' := snd (Embed.recordHandler Fixtures.services Fixtures.constants
                   (Fixtures.recordOf 0) Fixtures.context w) in
  Embed.recordHandler Fixtures.services Fixtures.constants
    (Fixtures.recordOf 0) Fixtures.context w = (Ok tt, w') /\
  exists stored, In stored (collection w') /\ is_candidate stored = false.
Proof.
  intros w w'.
  assert (H : Embed.recordHandler Fixtures.services Fixtures.constants
                (Fixtures.recordOf 0) Fixtures.context w = (Ok tt, w'))
    by (vm_compute; reflexivity).
  split; [exact H|].
  destruct (processed_document_is_no_candidate Fixtures.services Fixtures.constants
              (Fixtures.recordOf 0) Fixtures.context w w' H)
    as (hex & id & document & embedding & wa & before & old & after
        & _ & _ & _ & _ & Hcoll & _ & _ & _ & _ & Hcand).
  eexists. split; [|exact Hcand].
  rewrite Hcoll. apply in_or_app. right. now left.
Defined.

(** Movie 0 through the backfill and the consumer. *)
Lemma backfilled_document_gets_its_vector_witness :
  let w := Fixtures.world (Fixtures.movies 3) in
  let w' := snd (Embed.recordHandler Fixtures.services Fixtures.constants
                   (Fixtures.recordOf 0) Fixtures.context w) in
  Embed.recordHandler Fixtures.services Fixtures.constants
    (Fixtures.recordOf 0) Fixtures.context w = (Ok tt, w') /\
  exists embedding before after,
    collection w'
    = before ++
      (("_id", VObjectId (Fixtures.hexOf 0))
       :: js_set "plot_embedding" (bson embedding)
            (js_omit "_id" (Fixtures.movie 0)))
      :: after.
Proof.
  intros w w'.
  assert (H : Embed.recordHandler Fixtures.services Fixtures.constants
                (Fixtures.recordOf 0) Fixtures.context w = (Ok tt, w'))
    by (vm_compute; reflexivity).
  split; [exact H|].
  destruct (backfilled_document_gets_its_vector Fixtures.services Fixtures.constants
              "message-0" "event-0" (Fixtures.hexOf 0) (Fixtures.movie 0)
              Fixtures.context w w' eq_refl eq_refl eq_refl eq_refl H)
    as (embedding & wa & before & old & after & _ & _ & _ & _ & Hcoll).
  now exists embedding, before, after.
Defined.

(** A second backfill of the same 25 documents. *)
Lemma backfill_rerun_sends_again_witness :
  let event := Fixtures.backfillEvent (Some "25") in
  let w := Fixtures.world (Fixtures.movies 25) in
  let w1 := snd (Backfill.handler Fixtures.services event w) in
  Backfill.handler Fixtures.services event w = (Ok (backfillResponse 25 20), w1) /\
  exists w2,
    Backfill.handler Fixtures.services event w1 = (Ok (backfillResponse 25 20), w2) /\
    length (queue w1) = 20 /\ length (queue w2) = 40.
Proof.
  intros event w w1.
  assert (H : Backfill.handler Fixtures.services event w
              = (Ok (backfillResponse 25 20), w1)) by (vm_compute; reflexivity).
  split; [exact H|].
  destruct (backfill_rerun_sends_again Fixtures.services Fixtures.queueUrl event
              w w1 _ fixtures_accept H eq_refl)
    as (documents & w2 & Hfound & Hagain & Hq1 & Hq2 & _).
  exists w2. split; [exact Hagain|].
  assert (Hdocs : documents = Fixtures.movies 25).
  { assert (Hf : found Fixtures.services
                   (Backfill.limitOfCount (count_of event)) (collection w)
                 = Ok (Fixtures.movies 25)) by (vm_compute; reflexivity).
    rewrite Hf in Hfound. now injection Hfound as <-. }
  cbv zeta in Hq1, Hq2. subst documents.
  split.
  - rewrite Hq1. vm_compute. reflexivity.
  - rewrite Hq2, length_app, Hq1. vm_compute. reflexivity.
Defined.

(** The event of movie 0 when the collection no longer has it. *)
Lemma event_for_a_missing_document_fails_witness :
  let w := Scenarios.connected [Fixtures.movie 1; Fixtures.movie 2] in
  let document := js_omit "_id" (Fixtures.movie 0) in
  let wa := snd (Helpers.getEmbedding Fixtures.services Fixtures.constants
                   (js_get "plot" (VObj document)) w) in
  Embed.recordHandler Fixtures.services Fixtures.constants
    (Fixtures.recordOf 0) Fixtures.context w
  = (Throw (ErrCause "Unable to write embedding" (Err "Unable to update document")),
     record_call
       (ReplaceOne (Some (Fixtures.hexOf 0))
          (replacementOf document Scenarios.vector) (Some 0)) wa) /\
  collection wa = collection w.
Proof.
  intros w document wa.
  destruct (event_for_a_missing_document_fails Fixtures.services Fixtures.constants
              (Fixtures.recordOf 0) Fixtures.context w wa
              (VStr (Fixtures.hexOf 0)) Scenarios.vector document (Fixtures.hexOf 0))
    as (Hrun & Hcoll & _).
  - vm_compute. discriminate.
  - vm_compute. reflexivity.
  - vm_compute. reflexivity.
  - vm_compute. reflexivity.
  - reflexivity.
  - reflexivity.
  - vm_compute. reflexivity.
  - split; [exact Hrun | exact Hcoll].
Defined.

(* ================================================================== *)
(** * The search handler behind the request model of the gateway *)
(* ================================================================== *)

Section ValidatedSearch.
Variable svc : Services.
Variable consts : Constants.

Lemma SearchRequestModel_query (payload : JSValue) :
  SearchRequestModel payload = true ->
  exists query,
    js_get "query" payload = VStr query /\
    destructure "query" payload = Ok (VStr query).
Proof.
  destruct payload as [| | | | | |props| |]; try discriminate.
  cbn [SearchRequestModel js_get destructure].
  destruct (assoc "query" props) as [[| | | |query| | | |]|]; try discriminate.
  intros _. now exists query.
Qed.

(** X22. A request that passes the request model of the gateway (a JSON
    object whose [query] is a string) always reaches the model, with a
    request whose [inputText] is exactly that string; and the handler
    looks at nothing else in the body: two such bodies with the same
    [query] are answered in the same way. *)
Theorem search_of_a_validated_request
  (event : APIGatewayEvent.t) (w : World) (payload : JSValue) :
  JSON_parse (search_text event) = Some payload ->
  SearchRequestModel payload = true ->
  exists query later,
    js_get "query" payload = VStr query /\
    calls (snd (Search.handler svc consts event w))
    = calls w ++
      InvokeModel (BEDROCK_MODEL_ID consts)
        (Helpers.embedding_request (VStr query)) :: later /\
    JSON_parse (Helpers.embedding_request (VStr query))
    = Some (VObj [("inputText", VStr query)]) /\
    forall event' payload',
      JSON_parse (search_text event') = Some payload' ->
      SearchRequestModel payload' = true ->
      js_get "query" payload' = VStr query ->
      Search.handler svc consts event' w = Search.handler svc consts event w.
Proof.
  intros Hp Hvalid.
  destruct (SearchRequestModel_query payload Hvalid) as (query & Hq & Hd).
  assert (Hfirst : exists rest,
            calls (snd (Search.handler svc consts event w))
            = calls w ++
              InvokeModel (BEDROCK_MODEL_ID consts)
                (Helpers.embedding_request (VStr query)) :: rest).
  { rewrite search_handler_unfold, Hp, Hd.
    unfold Helpers.getEmbedding. rewrite createEmbedding_unfold.
    set (wa := record_call _ w).
    destruct (embedding_of_reply _) as [embedding|e];
      [|exists []; reflexivity].
    destruct (truthy embedding); [|exists []; reflexivity].
    destruct (Search.knnSearch svc consts embedding wa) as [o w2] eqn:Hk.
    apply knnSearch_run in Hk as (_ & _ & _ & _ & rest & Hc & _).
    exists rest.
    replace (snd (match o with
                  | Ok items => (Ok (okResponse items), w2)
                  | Throw _ => (Ok Search.errorResponse, w2)
                  end)) with w2 by now destruct o.
    rewrite Hc. subst wa. cbn [calls record_call]. now rewrite <- app_assoc. }
  destruct Hfirst as (rest & Hrest).
  exists query, rest. split; [exact Hq|]. split; [exact Hrest|]. split.
  - unfold Helpers.embedding_request.
    now rewrite JSON_roundtrip by (reflexivity || discriminate).
  - intros event' payload' Hp' Hvalid' Hq'.
    destruct (SearchRequestModel_query payload' Hvalid') as (query' & Hq2 & Hd').
    rewrite Hq' in Hq2. injection Hq2 as <-.
    now rewrite !search_handler_unfold, Hp, Hp', Hd, Hd'.
Qed.

End ValidatedSearch.

(** A search for "sports". *)
Lemma search_of_a_validated_request_witness :
  let event := Fixtures.searchEvent "sports" in
  let w := Fixtures.world (map Fixtures.embedded (seq 0 5)) in
  JSON_parse (search_text event) = Some (VObj [("query", VStr "sports")]) /\
  exists later,
    calls (snd (Search.handler Fixtures.services Fixtures.constants event w))
    = InvokeModel (BEDROCK_MODEL_ID Fixtures.constants)
        (Helpers.embedding_request (VStr "sports")) :: later.
Proof.
  intros event w.
  assert (Hp : JSON_parse (search_text event)
               = Some (VObj [("query", VStr "sports")]))
    by (vm_compute; reflexivity).
  split; [exact Hp|].
  destruct (search_of_a_validated_request Fixtures.services Fixtures.constants
              event w _ Hp eq_refl)
    as (query & later & Hq & Hcalls & _).
  injection Hq as <-. now exists later.
Defined.
